(** * Luba cultural showcase: search, aggregation, retry and rate limiting

    A shallow embedding of the asynchronous core of the site
    (api-module.js, search-module.js, data-management.js) and the proofs
    of its specified properties.

    Conventions of the embedding.
    - Time is the value of [Date.now()], an integer number of milliseconds.
    - The network is an oracle [net]: for a URL and the 0-based index of the
      attempt that one [fetchWithRetry] call makes on it, it gives the
      latency of the attempt and what came back.
    - An asynchronous call started at time [t] is a [run]: the time at which
      its promise settles, how it settles, and the time-stamped effects
      (requests, timers, console output) it performed on the way.
    - Timers fire exactly when they are due.
    - API payloads follow the schemas of the three services: a field the
      code reads is either absent or has the documented type.
    - A string holds the UTF-8 text of the JavaScript string it stands for;
      [length], [trim] and [<] work on its UTF-16 code units, and
      [toLowerCase] is a parameter, provided by the runtime.
    - An object read or written under a computed key is the map of its own
      properties together with the names it inherits from
      [Object.prototype]; a call that throws is a [Thrown] completion. *)

From stdpp Require Import gmap strings list fin_maps.

Local Open Scope Z_scope.

(* ===================================================================== *)
(** * Values, errors and promises                                         *)
(* ===================================================================== *)

(** What JavaScript can throw in this code. *)
Inductive error :=
| NetworkError (msg : string)                    (* fetch() rejected *)
| HttpError (status : Z) (statusText : string)   (* new Error(`HTTP ${status}: ${statusText}`) *)
| SyntaxError (msg : string)                     (* response.json() rejected *)
| TypeError (msg : string).                      (* property read on null / undefined *)

(** How a promise settles. *)
Inductive outcome (A : Type) :=
| Fulfilled (v : A)
| Rejected (e : error).
Arguments Fulfilled {A} v.
Arguments Rejected {A} e.

Definition isFulfilled {A} (o : outcome A) : bool :=
  match o with Fulfilled _ => true | Rejected _ => false end.

Definition isRejected {A} (o : outcome A) : bool := negb (isFulfilled o).

(** Identifiers are numbers (Met, Cleveland) or strings (MusicBrainz);
    [===] never identifies a number with a string. *)
Inductive ident :=
| IdNum (n : Z)
| IdStr (s : string)
| IdUndefined.

#[global] Instance ident_eq_dec : EqDecision ident.
Proof. solve_decision. Defined.

(** A record of one of the sources, with the fields this code reads. *)
Record item := mkItem {
  item_id : ident;
  item_name : option string;
  item_title : option string;
  item_primaryImage : option string;
  item_dateAdded : option string
}.

(** The body of a search response, with the fields this code reads. *)
Record searchBody := mkSearchBody {
  body_objectIDs : option (list Z);
  body_data : option (list item);
  body_count : option Z;
  body_artists : option (list item);
  body_recordings : option (list item);
  body_instruments : option (list item)
}.

Inductive payload :=
| JUndefined
| JNull
| JSearch (b : searchBody)
| JObject (o : item).

(** Truthiness of a string-valued property. *)
Definition truthy (s : option string) : bool :=
  match s with
  | Some s => negb (String.eqb s "")
  | None => false
  end.

(* ===================================================================== *)
(** * Requests, the network and effects                                   *)
(* ===================================================================== *)

Inductive paramValue :=
| PString (s : string)
| PNumber (n : Z)
| PBoolean (b : bool).

(** [`${base}/${segment}?${search}`] *)
Record Url := mkUrl {
  url_base : string;
  url_segment : option paramValue;
  url_search : list (string * paramValue)
}.

Record RequestInit := mkInit {
  init_headers : list (string * string);
  init_cache : option string
}.

Definition noOptions : RequestInit := mkInit [] None.

(** What an HTTP attempt gives back. *)
Inductive reply :=
| NetworkFailure (e : error)
| Response (ok : bool) (status : Z) (statusText : string) (json : outcome payload).

Record attempt := mkAttempt {
  latency : Z;
  answer : reply
}.

Definition network := Url -> nat -> attempt.

Inductive event :=
| EvFetch (url : Url) (init : RequestInit)
| EvTimeout (ms : Z)
| EvConsoleError (msg : string) (e : error).

Record run (A : Type) := mkRun {
  settled : Z;
  result : outcome A;
  effects : list (Z * event)
}.
Arguments mkRun {A} settled result effects.
Arguments settled {A} r.
Arguments result {A} r.
Arguments effects {A} r.

Definition during {A} (es : list (Z * event)) (r : run A) : run A :=
  mkRun (settled r) (result r) (es ++ effects r).

(* ===================================================================== *)
(** * api-module.js                                                       *)
(* ===================================================================== *)

Module API_CONFIG.
Definition met_search : string :=
  "https://collectionapi.metmuseum.org/public/collection/v1/search".
Definition met_object : string :=
  "https://collectionapi.metmuseum.org/public/collection/v1/objects".
Definition cleveland_search : string :=
  "https://openaccess-api.clevelandart.org/api/artworks".
Definition musicbrainz_base : string := "https://musicbrainz.org/ws/2".
Definition musicbrainz_userAgent : string :=
  "LubaCulture/1.0 (info@lubaculture.com)".
End API_CONFIG.

Definition MUSICBRAINZ_RATE_LIMIT : Z := 1000.

(** ** fetchWithRetry *)

(** The body of the [try] block: the request, the [response.ok] test and
    [response.json()]. *)
Definition attemptOutcome (a : attempt) : outcome payload :=
  match answer a with
  | NetworkFailure e => Rejected e
  | Response ok status statusText json =>
      if ok then json else Rejected (HttpError status statusText)
  end.

(** The [for] loop, at index [i] and time [t], with [n] iterations left. *)
Fixpoint fetchLoop (net : network) (url : Url) (options : RequestInit)
    (retries : Z) (n : nat) (i : Z) (t : Z) : run payload :=
  match n with
  | O => mkRun t (Fulfilled JUndefined) []
  | S n' =>
      let a := net url (Z.to_nat i) in
      let t' := t + latency a in
      let request :=
        (t, EvFetch url (mkInit (init_headers options) (Some "no-store"))) in
      match attemptOutcome a with
      | Fulfilled v => mkRun t' (Fulfilled v) [request]
      | Rejected e =>
          if i =? retries - 1 then mkRun t' (Rejected e) [request]
          else
            let ms := 400 * (i + 1) in
            during [request; (t', EvTimeout ms)]
              (fetchLoop net url options retries n' (i + 1) (t' + ms))
      end
  end.

Definition fetchWithRetry (net : network) (url : Url)
    (options : RequestInit) (retries : Z) (t : Z) : run payload :=
  fetchLoop net url options retries (Z.to_nat retries) 0 t.

(** The requests and the waits of a run, in the order they were made. *)
Definition requestsOf (es : list (Z * event)) : list Url :=
  omap (fun te => match snd te with EvFetch u _ => Some u | _ => None end) es.

Definition timeoutsOf (es : list (Z * event)) : list Z :=
  omap (fun te => match snd te with EvTimeout ms => Some ms | _ => None end) es.

(** When the requests of a run were sent. *)
Definition fetchTimes (es : list (Z * event)) : list Z :=
  omap (fun te => match snd te with EvFetch _ _ => Some (fst te) | _ => None end) es.

(** ** The event loop seen by the MusicBrainz rate limiter *)

(** The MusicBrainz-facing functions of the module. *)
Inductive mbCall :=
| ArtistSearch
| RecordingSearch
| InstrumentSearch
| ArtistDetails.

(** [now] is [Date.now()]; [timers] holds, by due time and first come first
    served among equal due times, the callers suspended inside
    [rateLimitMusicBrainz]; [admitted] records, in order, which caller
    returned from [rateLimitMusicBrainz] and when. *)
Record EventLoop := mkLoop {
  now : Z;
  lastMusicBrainzRequest : Z;
  timers : list (Z * mbCall);
  admitted : list (mbCall * Z)
}.

Definition startOfPage (t : Z) : EventLoop := mkLoop t 0 [] [].

(** [setTimeout]: the queue stays ordered by due time. *)
Fixpoint setTimeout (x : Z * mbCall) (queue : list (Z * mbCall))
    : list (Z * mbCall) :=
  match queue with
  | [] => [x]
  | y :: queue' =>
      if fst x <? fst y then x :: y :: queue' else y :: setTimeout x queue'
  end.

(** The timer queue is in the order of the due times. *)
Fixpoint ordered (queue : list (Z * mbCall)) : bool :=
  match queue with
  | a :: (b :: _) as queue' => (fst a <=? fst b) && ordered queue'
  | _ => true
  end.

(** The last statement of [rateLimitMusicBrainz]:
    [lastMusicBrainzRequest = Date.now()], after which the caller goes on. *)
Definition rateLimitGrant (who : mbCall) (s : EventLoop) : EventLoop :=
  mkLoop (now s) (now s) (timers s) (admitted s ++ [(who, now s)]).

(** The delay [rateLimitMusicBrainz] asks [setTimeout] for, if any. *)
Definition rateLimitDelay (s : EventLoop) : option Z :=
  let timeSinceLastRequest := now s - lastMusicBrainzRequest s in
  if timeSinceLastRequest <? MUSICBRAINZ_RATE_LIMIT
  then Some (MUSICBRAINZ_RATE_LIMIT - timeSinceLastRequest)
  else None.

(** [rateLimitMusicBrainz] up to its first suspension: either the caller is
    parked on a timer, or the function runs to its end at once. *)
Definition rateLimitMusicBrainz (who : mbCall) (s : EventLoop) : EventLoop :=
  match rateLimitDelay s with
  | Some ms =>
      mkLoop (now s) (lastMusicBrainzRequest s)
             (setTimeout (now s + ms, who) (timers s)) (admitted s)
  | None => rateLimitGrant who s
  end.

(** When the caller entering [rateLimitMusicBrainz] in [s] gets out of it. *)
Definition admissionTime (s : EventLoop) : Z :=
  match rateLimitDelay s with
  | Some ms => now s + ms
  | None => now s
  end.

(** The earliest timer fires: the clock is at its due time and the
    suspended caller finishes [rateLimitMusicBrainz]. *)
Definition fire (s : EventLoop) : EventLoop :=
  match timers s with
  | [] => s
  | (due, who) :: queue =>
      rateLimitGrant who
        (mkLoop (Z.max (now s) due) (lastMusicBrainzRequest s) queue (admitted s))
  end.

Fixpoint fireUntil (n : nat) (t : Z) (s : EventLoop) : EventLoop :=
  match n with
  | O => s
  | S n' =>
      match timers s with
      | (due, _) :: _ => if due <=? t then fireUntil n' t (fire s) else s
      | [] => s
      end
  end.

(** Time passes until [t]: every timer due by then fires, in order. *)
Definition advance (t : Z) (s : EventLoop) : EventLoop :=
  let s' := fireUntil (length (timers s)) t s in
  mkLoop (Z.max (now s') t) (lastMusicBrainzRequest s') (timers s') (admitted s').

(** Every pending timer fires. *)
Fixpoint drain (n : nat) (s : EventLoop) : EventLoop :=
  match n with
  | O => s
  | S n' => drain n' (fire s)
  end.

(** A schedule of calls: each enters [rateLimitMusicBrainz] at its time. *)
Fixpoint arrivals (calls : list (Z * mbCall)) (s : EventLoop) : EventLoop :=
  match calls with
  | [] => s
  | (t, who) :: calls' => arrivals calls' (rateLimitMusicBrainz who (advance t s))
  end.

Definition admissions (calls : list (Z * mbCall)) (s : EventLoop)
    : list (mbCall * Z) :=
  let s' := arrivals calls s in
  admitted (drain (length (timers s')) s').

(** Consecutive admissions are at least [gap] apart. *)
Fixpoint spaced (gap : Z) (log : list (mbCall * Z)) : bool :=
  match log with
  | a :: (b :: _) as log' => (snd a + gap <=? snd b) && spaced gap log'
  | _ => true
  end.

(** ** Promises *)

(** [await r] followed by [k]: the continuation starts when [r] is fulfilled. *)
Definition andThen {A B} (r : run A) (k : A -> Z -> run B) : run B :=
  match result r with
  | Fulfilled v => during (effects r) (k v (settled r))
  | Rejected e => mkRun (settled r) (Rejected e) (effects r)
  end.

(** [try { await r } catch (error) { handler }] *)
Definition tryCatch {A} (r : run A) (handler : error -> Z -> run A) : run A :=
  match result r with
  | Fulfilled v => r
  | Rejected e => during (effects r) (handler e (settled r))
  end.

(** [Promise.all([r1, r2])]: fulfilled when both are, rejected as soon as one
    is rejected (the first of the array when both are rejected at the same
    time). The effects of both calls take place either way. *)
Definition promiseAll2 {A B} (r1 : run A) (r2 : run B) : run (A * B) :=
  let es := effects r1 ++ effects r2 in
  match result r1, result r2 with
  | Fulfilled a, Fulfilled b =>
      mkRun (Z.max (settled r1) (settled r2)) (Fulfilled (a, b)) es
  | Rejected e, Fulfilled _ => mkRun (settled r1) (Rejected e) es
  | Fulfilled _, Rejected e => mkRun (settled r2) (Rejected e) es
  | Rejected e1, Rejected e2 =>
      if settled r2 <? settled r1
      then mkRun (settled r2) (Rejected e2) es
      else mkRun (settled r1) (Rejected e1) es
  end.

(** [Promise.all([r1, r2, r3])] *)
Definition promiseAll3 {A B C} (r1 : run A) (r2 : run B) (r3 : run C)
    : run (A * B * C) :=
  promiseAll2 (promiseAll2 r1 r2) r3.

(** [Promise.allSettled(rs)], started at [t]: never rejected. *)
Definition promiseAllSettled {A} (t : Z) (rs : list (run A))
    : run (list (outcome A)) :=
  mkRun (foldr Z.max t (settled <$> rs))
        (Fulfilled (result <$> rs))
        (concat (effects <$> rs)).

(** [array.slice(0, n)] *)
Definition slice0 {A} (n : Z) (l : list A) : list A :=
  if n <? 0 then take (length l - Z.to_nat (- n))%nat l
  else take (Z.to_nat n) l.

(** Reading a property of the payload: a [TypeError] on [null] and
    [undefined], [undefined] (here [None]) where the object lacks it. *)
Definition property {A} (field : searchBody -> option A) (data : payload)
    : outcome (option A) :=
  match data with
  | JUndefined => Rejected (TypeError "Cannot read properties of undefined")
  | JNull => Rejected (TypeError "Cannot read properties of null")
  | JSearch b => Fulfilled (field b)
  | JObject _ => Fulfilled None
  end.

(** [data.field || []] *)
Definition arrayOr {A} (field : searchBody -> option (list A)) (data : payload)
    (t : Z) : run (list A) :=
  mkRun t (match property field data with
           | Fulfilled v => Fulfilled (default [] v)
           | Rejected e => Rejected e
           end) [].

(** ** Met Museum *)

Definition searchMetArtifacts (net : network) (query : string)
    (hasImages : bool) (t : Z) : run (list Z) :=
  let params := [("q", PString query); ("hasImages", PBoolean hasImages)] in
  andThen (fetchWithRetry net (mkUrl API_CONFIG.met_search None params) noOptions 3 t)
          (arrayOr body_objectIDs).

Definition getMetObject (net : network) (objectId : Z) (t : Z) : run payload :=
  fetchWithRetry net (mkUrl API_CONFIG.met_object (Some (PNumber objectId)) [])
                 noOptions 3 t.

(** [obj && obj.primaryImage] *)
Definition hasPrimaryImage (obj : payload) : option item :=
  match obj with
  | JObject o => if truthy (item_primaryImage o) then Some o else None
  | _ => None
  end.

Definition fulfilledValue {A} (r : outcome A) : option A :=
  match r with Fulfilled v => Some v | Rejected _ => None end.

Definition getMetObjects (net : network) (objectIds : list Z) (t : Z)
    : run (list item) :=
  andThen (promiseAllSettled t ((fun id => getMetObject net id t) <$> objectIds))
          (fun results t' =>
             mkRun t' (Fulfilled (omap hasPrimaryImage (omap fulfilledValue results))) []).

(** ** Cleveland Museum of Art *)

Definition searchClevelandArtifacts (net : network) (query : string)
    (limit : Z) (t : Z) : run (list item) :=
  let params := [("q", PString query); ("has_image", PNumber 1);
                 ("limit", PNumber limit)] in
  andThen (fetchWithRetry net (mkUrl API_CONFIG.cleveland_search None params)
                          noOptions 3 t)
          (arrayOr body_data).

(** ** MusicBrainz *)

Definition musicBrainzHeaders : RequestInit :=
  mkInit [("User-Agent", API_CONFIG.musicbrainz_userAgent);
          ("Accept", "application/json")] None.

Definition musicBrainzUrl (entity : string) (query : string) (limit offset : Z)
    : Url :=
  mkUrl (API_CONFIG.musicbrainz_base +:+ entity) None
        [("query", PString query); ("limit", PNumber limit);
         ("offset", PNumber offset); ("fmt", PString "json")].

(** What the three search functions return: [{count, artists}],
    [{count, recordings}] and [{count, instruments}]. *)
Record artistsData := mkArtists { artists_count : Z; artists_artists : list item }.
Record recordingsData := mkRecordings { recordings_count : Z; recordings_recordings : list item }.
Record instrumentsData := mkInstruments { instruments_count : Z; instruments_instruments : list item }.

(** [{ count: data.count || 0, <field>: data.<field> || [] }] *)
Definition countAnd {A} (field : searchBody -> option (list item))
    (make : Z -> list item -> A) (data : payload) (t : Z) : run A :=
  mkRun t (match property body_count data, property field data with
           | Fulfilled c, Fulfilled l => Fulfilled (make (default 0 c) (default [] l))
           | Rejected e, _ => Rejected e
           | _, Rejected e => Rejected e
           end) [].

(** The common shape of the MusicBrainz functions: [await
    rateLimitMusicBrainz()], then the request, which leaves when the caller
    is admitted. The event loop returned is the one in which the caller has
    entered the limiter. *)
Definition viaRateLimit {A} (who : mbCall) (s : EventLoop)
    (call : Z -> run A) : EventLoop * run A :=
  let wait := match rateLimitDelay s with
              | Some ms => [(now s, EvTimeout ms)]
              | None => []
              end in
  (rateLimitMusicBrainz who s, during wait (call (admissionTime s))).

Definition searchMusicBrainzArtists (net : network) (query : string)
    (limit offset : Z) (s : EventLoop) : EventLoop * run artistsData :=
  viaRateLimit ArtistSearch s (fun t =>
    andThen (fetchWithRetry net (musicBrainzUrl "/artist" query limit offset)
                            musicBrainzHeaders 3 t)
            (countAnd body_artists mkArtists)).

Definition searchMusicBrainzRecordings (net : network) (query : string)
    (limit offset : Z) (s : EventLoop) : EventLoop * run recordingsData :=
  viaRateLimit RecordingSearch s (fun t =>
    andThen (fetchWithRetry net (musicBrainzUrl "/recording" query limit offset)
                            musicBrainzHeaders 3 t)
            (countAnd body_recordings mkRecordings)).

Definition searchMusicBrainzInstruments (net : network) (query : string)
    (limit offset : Z) (s : EventLoop) : EventLoop * run instrumentsData :=
  viaRateLimit InstrumentSearch s (fun t =>
    andThen (fetchWithRetry net (musicBrainzUrl "/instrument" query limit offset)
                            musicBrainzHeaders 3 t)
            (countAnd body_instruments mkInstruments)).

(** [includes.join('+')] *)
Fixpoint join (sep : string) (l : list string) : string :=
  match l with
  | [] => ""
  | [x] => x
  | x :: l' => x +:+ sep +:+ join sep l'
  end.

(** [includes] is [['recordings', 'releases']] when the caller gives none. *)
Definition getMusicBrainzArtistDetails (net : network) (artistId : string)
    (includes : list string) (s : EventLoop) : EventLoop * run payload :=
  viaRateLimit ArtistDetails s (fun t =>
    andThen (fetchWithRetry net
               (mkUrl (API_CONFIG.musicbrainz_base +:+ "/artist")
                      (Some (PString artistId))
                      [("inc", PString (join "+" includes));
                       ("fmt", PString "json")])
               musicBrainzHeaders 3 t)
            (fun data t' => mkRun t' (Fulfilled data) [])).

(** ** The aggregator *)

Record AggregatedResults := mkResults {
  artifacts : list item;
  recordings : list item;
  artists : list item;
  instruments : list item
}.

(** The [options] argument; a missing property is [None]. *)
Record SearchOptions := mkOptions {
  opt_includeArt : option bool;
  opt_includeMusic : option bool;
  opt_maxResults : option Z
}.

(** The block guarded by [if (includeArt)], started at [t] on [results]. *)
Definition artBranch (net : network) (query : string) (maxResults : Z)
    (results : AggregatedResults) (t : Z) : run AggregatedResults :=
  tryCatch
    (andThen (promiseAll2 (searchMetArtifacts net query true t)
                          (searchClevelandArtifacts net query 100 t))
       (fun '(metIds, clevelandData) t1 =>
          andThen (getMetObjects net (slice0 10 metIds) t1)
            (fun metObjects t2 =>
               mkRun t2
                 (Fulfilled
                    (mkResults (slice0 maxResults (clevelandData ++ metObjects))
                               (recordings results) (artists results)
                               (instruments results))) [])))
    (fun error t1 =>
       mkRun t1 (Fulfilled results) [(t1, EvConsoleError "Art search failed:" error)]).

(** The block guarded by [if (includeMusic)], started in [s] on [results]:
    the three searches enter the rate limiter one after the other, in the
    order of the array, before any of them is resumed. *)
Definition musicBranch (net : network) (query : string)
    (results : AggregatedResults) (s : EventLoop)
    : EventLoop * run AggregatedResults :=
  let '(s1, artistsRun) := searchMusicBrainzArtists net query 15 0 s in
  let '(s2, recordingsRun) := searchMusicBrainzRecordings net query 15 0 s1 in
  let '(s3, instrumentsRun) := searchMusicBrainzInstruments net query 10 0 s2 in
  (s3,
   tryCatch
     (andThen (promiseAll3 artistsRun recordingsRun instrumentsRun)
        (fun '(artistsData, recordingsData, instrumentsData) t1 =>
           mkRun t1
             (Fulfilled
                (mkResults (artifacts results)
                           (recordings_recordings recordingsData)
                           (artists_artists artistsData)
                           (instruments_instruments instrumentsData))) []))
     (fun error t1 =>
        mkRun t1 (Fulfilled results)
              [(t1, EvConsoleError "Music search failed:" error)])).

Definition searchAllSources (net : network) (query : string)
    (options : SearchOptions) (s : EventLoop)
    : EventLoop * run AggregatedResults :=
  let includeArt := default true (opt_includeArt options) in
  let includeMusic := default true (opt_includeMusic options) in
  let maxResults := default 50 (opt_maxResults options) in
  let results := mkResults [] [] [] [] in
  let art :=
    if includeArt then artBranch net query maxResults results (now s)
    else mkRun (now s) (Fulfilled results) [] in
  let s1 := advance (settled art) s in
  match result art with
  | Rejected e => (s1, art)
  | Fulfilled results1 =>
      if includeMusic then
        let '(s2, music) := musicBranch net query results1 s1 in
        (advance (settled music) s2, during (effects art) music)
      else (s1, art)
  end.

(** One of the two searches of the art branch is rejected. How a search
    settles does not depend on when it is made. *)
Definition artCallsFail (net : network) (query : string) (t : Z) : bool :=
  isRejected (result (searchMetArtifacts net query true t))
  || isRejected (result (searchClevelandArtifacts net query 100 t)).

(** One of the three searches of the music branch is rejected. *)
Definition musicCallsFail (net : network) (query : string) (s : EventLoop) : bool :=
  isRejected (result (snd (searchMusicBrainzArtists net query 15 0 s)))
  || isRejected (result (snd (searchMusicBrainzRecordings net query 15 0 s)))
  || isRejected (result (snd (searchMusicBrainzInstruments net query 10 0 s))).

Definition logged (msg : string) (es : list (Z * event)) : Prop :=
  exists t e, (t, EvConsoleError msg e) ∈ es.

(* ===================================================================== *)
(** * search-module.js                                                    *)
(* ===================================================================== *)

Definition DEBOUNCE_DELAY : Z := 500.

(** The [options] argument of [performSearch]; [container] and
    [statusElement] say whether the element was passed. *)
Record PerformOptions := mkPerform {
  po_category : option string;
  po_container : bool;
  po_statusElement : bool;
  po_minLength : option Z
}.

(** The texts written to the status element and the empty state. *)
Inductive message :=
| TypeAtLeast (minLength : Z)
| SearchingFor (query : string)
| NoResultsFor (query : string)
| Found (totalArtifacts totalRecordings totalArtists : nat) (query : string)
| SearchFailed
| UnableToComplete.

Inductive node :=
| LoadingSkeleton (count : Z)
| EmptyState (msg : message) (icon : string)
| ArtifactCard (artifact : item) (index : nat)
| RecordingCard (recording : item) (index : nat).

(** What [debounce] wraps, and the arguments of one invocation. *)
Inductive func :=
| PerformSearch
| Func (name : string).

Record arguments := mkArgs {
  arg_query : string;
  arg_options : PerformOptions
}.

(** What a timer runs: the arrow function [() => func.apply(this, args)]
    armed by a debounced function, or a callback of some other code. *)
Inductive callback :=
| Apply (f : func) (args : arguments)
| OtherCallback (name : string).

(** The module-level variables, the timer table of the window and the two
    elements the search writes to. [timerCount] is the number of ids
    [setTimeout] has handed out; [pending] maps the id of each timer that
    is neither fired nor cleared to its delay and callback. *)
Record Page := mkPage {
  debounceTimer : option nat;
  currentSearchQuery : string;
  searchResults : AggregatedResults;
  timerCount : nat;
  pending : gmap nat (Z * callback);
  container : list node;
  statusElement : option message
}.

Definition pageLoaded : Page :=
  mkPage None "" (mkResults [] [] [] []) 0 ∅ [] None.

Definition clearTimeout (id : option nat) (timers : gmap nat (Z * callback))
    : gmap nat (Z * callback) :=
  match id with
  | Some id => delete id timers
  | None => timers
  end.

(** A function returned by [debounce(func, delay)]. *)
Record debounced := debounce {
  wrapped : func;
  delay : Z
}.

(** The body of the returned function, called with [args]. *)
Definition callDebounced (d : debounced) (args : arguments) (p : Page) : Page :=
  let timers := clearTimeout (debounceTimer p) (pending p) in
  let id := S (timerCount p) in
  mkPage (Some id) (currentSearchQuery p) (searchResults p)
         id (<[id := (delay d, Apply (wrapped d) args)]> timers)
         (container p) (statusElement p).

(** A string holds the UTF-8 text of the JavaScript string it stands for.
    [codePoints] reads the characters back; a byte that starts no
    well-formed sequence counts as one character (U+FFFD). *)
Definition continues (b : N) : bool := ((128 <=? b) && (b <? 192))%N.

Fixpoint codePoints (s : string) : list N :=
  match s with
  | EmptyString => []
  | String a s1 =>
      let a := Ascii.N_of_ascii a in
      if (a <? 128)%N then a :: codePoints s1
      else
        match s1 with
        | String b s2 =>
            let b := Ascii.N_of_ascii b in
            if ((194 <=? a) && (a <? 224))%N && continues b
            then ((a - 192) * 64 + (b - 128))%N :: codePoints s2
            else
              match s2 with
              | String c s3 =>
                  let c := Ascii.N_of_ascii c in
                  if ((224 <=? a) && (a <? 240))%N && continues b && continues c
                  then ((a - 224) * 4096 + (b - 128) * 64 + (c - 128))%N
                         :: codePoints s3
                  else
                    match s3 with
                    | String d s4 =>
                        let d := Ascii.N_of_ascii d in
                        if ((240 <=? a) && (a <? 245))%N
                           && continues b && continues c && continues d
                        then ((a - 240) * 262144 + (b - 128) * 4096
                              + (c - 128) * 64 + (d - 128))%N :: codePoints s4
                        else 65533%N :: codePoints s1
                    | EmptyString => 65533%N :: codePoints s1
                    end
              | EmptyString => 65533%N :: codePoints s1
              end
        | EmptyString => [65533%N]
        end
  end.

(** The UTF-16 code units of the string, which [length], [trim] and [<]
    work on: one for a character up to U+FFFF, a surrogate pair above. *)
Definition codeUnits (s : string) : list N :=
  c ← codePoints s;
  if (c <? 65536)%N then [c]
  else [(55296 + (c - 65536) / 1024)%N; (56320 + (c - 65536) mod 1024)%N].

(** [a < b] on strings: the first code unit that differs decides, and a
    proper prefix comes first. *)
Fixpoint lessThan (a b : list N) : bool :=
  match a, b with
  | _, [] => false
  | [], _ :: _ => true
  | x :: a', y :: b' => (x <? y)%N || (x =? y)%N && lessThan a' b'
  end.

(** The characters [String.prototype.trim] removes: white space and line
    terminators. *)
Definition isWhiteSpace (c : N) : bool :=
  ((9 <=? c) && (c <=? 13) || (c =? 32) || (c =? 160) || (c =? 5760)
   || (8192 <=? c) && (c <=? 8202) || (c =? 8232) || (c =? 8233)
   || (c =? 8239) || (c =? 8287) || (c =? 12288) || (c =? 65279))%N.

Fixpoint trimStart (l : list N) : list N :=
  match l with
  | c :: l' => if isWhiteSpace c then trimStart l' else l
  | [] => []
  end.

Definition trim (l : list N) : list N := rev (trimStart (rev (trimStart l))).

Definition categoryOf (options : PerformOptions) : string :=
  default "all" (po_category options).

Definition minLengthOf (options : PerformOptions) : Z :=
  default 2 (po_minLength options).

Definition write {A} (present : bool) (new old : A) : A :=
  if present then new else old.

(** [performSearch] up to [await searchAllSources(query, searchOptions)]:
    [None] when the query is too short and the function returns, otherwise
    the options of the aggregator call it is now waiting for. *)
Definition performSearch_start (query : string) (options : PerformOptions)
    (p : Page) : Page * option SearchOptions :=
  let category := categoryOf options in
  let minLength := minLengthOf options in
  if Z.of_nat (length (trim (codeUnits query))) <? minLength then
    (mkPage (debounceTimer p) (currentSearchQuery p) (searchResults p)
            (timerCount p) (pending p)
            (write (po_container options) [] (container p))
            (write (po_statusElement options) (Some (TypeAtLeast minLength))
                   (statusElement p)),
     None)
  else
    (mkPage (debounceTimer p) query (searchResults p)
            (timerCount p) (pending p)
            (write (po_container options) [LoadingSkeleton 6] (container p))
            (write (po_statusElement options) (Some (SearchingFor query))
                   (statusElement p)),
     Some (mkOptions
             (Some (String.eqb category "all" || String.eqb category "artifacts"))
             (Some (String.eqb category "all" || String.eqb category "music"))
             (Some 50))).

Definition cards (card : item -> nat -> node) (from : nat) (l : list item)
    : list node :=
  imap (fun index x => card x (from + index)%nat) l.

Definition displaySearchResults (results : AggregatedResults)
    (options : PerformOptions) (p : Page) : Page :=
  if negb (po_container options) then p
  else
    let category := categoryOf options in
    let totalArtifacts := length (artifacts results) in
    let totalRecordings := length (recordings results) in
    let totalArtists := length (artists results) in
    let totalResults := (totalArtifacts + totalRecordings + totalArtists)%nat in
    let status :=
      write (po_statusElement options)
            (Some (if (totalResults =? 0)%nat
                   then NoResultsFor (currentSearchQuery p)
                   else Found totalArtifacts totalRecordings totalArtists
                              (currentSearchQuery p)))
            (statusElement p) in
    let content :=
      if (totalResults =? 0)%nat
      then [EmptyState (NoResultsFor (currentSearchQuery p)) "search"]
      else
        (if String.eqb category "all" || String.eqb category "artifacts"
         then cards ArtifactCard 0 (artifacts results) else [])
        ++
        (if String.eqb category "all" || String.eqb category "music"
         then cards RecordingCard totalArtifacts (recordings results) else []) in
    mkPage (debounceTimer p) (currentSearchQuery p) (searchResults p)
           (timerCount p) (pending p) content status.

(** [performSearch] from the moment [searchAllSources] settles with
    [settlement]: the rest of the [try] block, or the [catch] block. *)
Definition performSearch_finish (query : string) (options : PerformOptions)
    (settlement : outcome AggregatedResults) (p : Page) : Page :=
  match settlement with
  | Fulfilled results =>
      let p1 := mkPage (debounceTimer p) (currentSearchQuery p) results
                       (timerCount p) (pending p) (container p)
                       (statusElement p) in
      if negb (String.eqb (currentSearchQuery p1) query) then p1
      else displaySearchResults results options p1
  | Rejected _ =>
      mkPage (debounceTimer p) (currentSearchQuery p) (searchResults p)
             (timerCount p) (pending p)
             (write (po_container options)
                    [EmptyState UnableToComplete "warning"] (container p))
             (write (po_statusElement options) (Some SearchFailed)
                    (statusElement p))
  end.

Definition debouncedSearch : debounced := debounce PerformSearch DEBOUNCE_DELAY.

Definition getSearchResults (p : Page) : AggregatedResults := searchResults p.

Definition clearSearch (p : Page) : Page :=
  mkPage (debounceTimer p) "" (mkResults [] [] [] [])
         (timerCount p) (clearTimeout (debounceTimer p) (pending p))
         (container p) (statusElement p).

(** What can happen on the page, as far as the timer of [debounce] goes:
    a debounced function is called, a pending timer fires (and its callback
    runs), some other code arms a timer, [clearSearch] is called. *)
Inductive action :=
| Call (d : debounced) (args : arguments)
| Fires (id : nat)
| OtherTimer (ms : Z) (f : string)
| ClearSearch.

Definition step (a : action) (p : Page) : Page :=
  match a with
  | Call d args => callDebounced d args p
  | Fires id =>
      match pending p !! id with
      | Some (_, Apply PerformSearch args) =>
          fst (performSearch_start (arg_query args) (arg_options args)
                 (mkPage (debounceTimer p) (currentSearchQuery p)
                         (searchResults p) (timerCount p)
                         (delete id (pending p)) (container p)
                         (statusElement p)))
      | Some (_, _) =>
          mkPage (debounceTimer p) (currentSearchQuery p) (searchResults p)
                 (timerCount p) (delete id (pending p)) (container p)
                 (statusElement p)
      | None => p
      end
  | OtherTimer ms f =>
      let id := S (timerCount p) in
      mkPage (debounceTimer p) (currentSearchQuery p) (searchResults p)
             id (<[id := (ms, OtherCallback f)]> (pending p))
             (container p) (statusElement p)
  | ClearSearch => clearSearch p
  end.

Definition steps (l : list action) (p : Page) : Page :=
  foldl (fun p a => step a p) p l.

(** Two overlapping searches: [performSearch(queryA)] is called, then
    [performSearch(queryB)] while the aggregator call of the first is in
    flight; the aggregator call of the first then settles. The result is the
    page just before and just after that moment. *)
Definition overlappingSearches (net : network) (queryA queryB : string)
    (options : PerformOptions) (s : EventLoop) (p : Page) : Page * Page :=
  let '(pA, callA) := performSearch_start queryA options p in
  let '(pB, _) := performSearch_start queryB options pA in
  match callA with
  | Some searchOptions =>
      let settlementA := result (snd (searchAllSources net queryA searchOptions s)) in
      (pB, performSearch_finish queryA options settlementA pB)
  | None => (pB, pB)
  end.

(** Every pending invocation of a debounced function is the one
    [debounceTimer] names; timer ids are not handed out twice. *)
Definition oneTimer (p : Page) : Prop :=
  forall id ms f args,
    pending p !! id = Some (ms, Apply f args) -> debounceTimer p = Some id.

Definition freshIds (p : Page) : Prop :=
  forall id cb, pending p !! id = Some cb -> (id <= timerCount p)%nat.

(* ===================================================================== *)
(** * data-management.js                                                  *)
(* ===================================================================== *)

Module STORAGE_KEYS.
Definition FAVORITES : string := "luba_my_heritage".
End STORAGE_KEYS.

(** What is kept under a key of [localStorage]: the JSON text of a
    favorites object, or a text [JSON.parse] rejects (or the empty text). *)
Inductive document :=
| FavoritesJson (favorites : gmap string (list item))
| Unreadable (text : string).

(** [localStorage]; [setItem] throws when the quota is exceeded. *)
Record Storage := mkStorage {
  entries : gmap string document;
  quotaExceeded : bool
}.

Definition getFromStorage (key : string)
    (defaultValue : gmap string (list item)) (st : Storage)
    : gmap string (list item) :=
  match entries st !! key with
  | Some (FavoritesJson value) => value
  | Some (Unreadable _) => defaultValue
  | None => defaultValue
  end.

Definition saveToStorage (key : string) (value : gmap string (list item))
    (st : Storage) : Storage * bool :=
  if quotaExceeded st then (st, false)
  else (mkStorage (<[key := FavoritesJson value]> (entries st)) false, true).

Definition getFavorites (st : Storage) : gmap string (list item) :=
  getFromStorage STORAGE_KEYS.FAVORITES
    (<["artifacts" := []]> (<["recordings" := []]> (<["artists" := []]>
       (<["narratives" := []]> ∅)))) st.

(** [item.name || item.title || 'Untitled'] *)
Definition displayName (x : item) : string :=
  if truthy (item_name x) then default "" (item_name x)
  else if truthy (item_title x) then default "" (item_title x)
  else "Untitled".

(** [{ id: item.id, name: ..., dateAdded: ..., ...item }]: the properties
    [item] has of its own win over the three written first. *)
Definition favoriteEntry (x : item) (today : string) : item :=
  mkItem (item_id x)
         (Some (default (displayName x) (item_name x)))
         (item_title x)
         (item_primaryImage x)
         (Some (default today (item_dateAdded x))).

(** [favorites[type].some(fav => fav.id === item.id)] *)
Definition someSameId (x : item) (l : list item) : bool :=
  existsb (fun fav => bool_decide (item_id fav = item_id x)) l.

(** What a synchronous call comes to: a value, or an exception. *)
Inductive completion (A : Type) :=
| Returned (v : A)
| Thrown (e : error).
Arguments Returned {A} v.
Arguments Thrown {A} e.

(** The names every object inherits from [Object.prototype]: eleven
    functions and the accessor [__proto__]. *)
Definition objectPrototype : list string :=
  ["constructor"; "__defineGetter__"; "__defineSetter__"; "hasOwnProperty";
   "__lookupGetter__"; "__lookupSetter__"; "isPrototypeOf";
   "propertyIsEnumerable"; "toString"; "valueOf"; "__proto__";
   "toLocaleString"].

Definition inherited (name : string) : bool :=
  existsb (String.eqb name) objectPrototype.

(** [o[name]] on an object whose own properties are [o]: the own value,
    else what [Object.prototype] has under the name (truthy, and no array),
    else [undefined]. *)
Inductive member (A : Type) :=
| Own (v : A)
| Inherited
| Undefined.
Arguments Own {A} v.
Arguments Inherited {A}.
Arguments Undefined {A}.

Definition readMember {A} (o : gmap string A) (name : string) : member A :=
  match o !! name with
  | Some v => Own v
  | None => if inherited name then Inherited else Undefined
  end.

(** [o[name] = v]: an own property is set or created, except that
    [__proto__], where the object has no own property of that name, goes to
    the setter of [Object.prototype] and leaves the own properties alone. *)
Definition writeMember {A} (name : string) (v : A) (o : gmap string A)
    : gmap string A :=
  match o !! name with
  | None => if String.eqb name "__proto__" then o else <[name := v]> o
  | Some _ => <[name := v]> o
  end.

(** [today] is [new Date().toISOString()] at the time of the call. An
    exception leaves the storage as it was. *)
Definition addFavorite (type : string) (x : item) (today : string)
    (st : Storage) : Storage * completion bool :=
  let favorites := getFavorites st in
  let favorites :=
    match readMember favorites type with
    | Undefined => writeMember type [] favorites
    | Own _ | Inherited => favorites
    end in
  match readMember favorites type with
  | Own list =>
      let exists_ := someSameId x list in
      if negb exists_ then
        let favorites := <[type := list ++ [favoriteEntry x today]]> favorites in
        (fst (saveToStorage STORAGE_KEYS.FAVORITES favorites st), Returned true)
      else (st, Returned false)
  | Inherited | Undefined =>
      (st, Thrown (TypeError "favorites[type].some is not a function"))
  end.

(** The favorites of one type, as [isFavorite] and the views read them. *)
Definition favoritesOf (type : string) (st : Storage) : list item :=
  default [] (getFavorites st !! type).

(** A sequence of [addFavorite] calls, each with its type, item and date. *)
Definition addFavorites (calls : list (string * item * string)) (st : Storage)
    : Storage :=
  foldl (fun st call => fst (addFavorite call.1.1 call.1.2 call.2 st)) st calls.

(* ===================================================================== *)
(** * Further definitions: api-module.js                                  *)
(* ===================================================================== *)

(** The time from the start of attempt [i] to the start of attempt [i + k]
    of one [fetchWithRetry] call, when the attempts in between fail: the
    latency of each and the wait that follows it. *)
Fixpoint retryTime (net : network) (url : Url) (i k : nat) : Z :=
  match k with
  | O => 0
  | S k' => latency (net url i) + 400 * (Z.of_nat i + 1) + retryTime net url (S i) k'
  end.

(** The time a run spent waiting on its timers. *)
Definition totalWait (es : list (Z * event)) : Z :=
  foldr Z.add 0 (timeoutsOf es).

(** Consecutive calls are at least [gap] apart. *)
Fixpoint callsApart (gap : Z) (calls : list (Z * mbCall)) : bool :=
  match calls with
  | a :: (b :: _) as calls' => (fst a + gap <=? fst b) && callsApart gap calls'
  | _ => true
  end.

(** The host a request goes to. *)
Definition toMusicBrainz (u : Url) : bool :=
  String.prefix API_CONFIG.musicbrainz_base (url_base u).

Definition toMuseums (u : Url) : bool :=
  String.eqb (url_base u) API_CONFIG.met_search
  || String.eqb (url_base u) API_CONFIG.met_object
  || String.eqb (url_base u) API_CONFIG.cleveland_search.

(** Who is in the limiter or through it: the callers admitted and the
    callers parked. *)
Definition callers (s : EventLoop) : list mbCall :=
  (fst <$> admitted s) ++ (snd <$> timers s).

(** The state between two calls that are a second apart: the log is
    spaced and ends no later than the recorded time, and at most one caller
    is parked, due within a second and a second after the recorded time. *)
Definition settledLog (s : EventLoop) : Prop :=
  spaced MUSICBRAINZ_RATE_LIMIT (admitted s) = true /\
  Forall (fun x => snd x <= lastMusicBrainzRequest s) (admitted s) /\
  lastMusicBrainzRequest s <= now s.

Definition quiet (s : EventLoop) : Prop := settledLog s /\ timers s = [].

Definition oneParked (s : EventLoop) : Prop :=
  settledLog s /\
  (timers s = [] \/
   exists due who, timers s = [(due, who)] /\
     lastMusicBrainzRequest s + MUSICBRAINZ_RATE_LIMIT <= due /\
     now s <= due <= now s + MUSICBRAINZ_RATE_LIMIT).


(** ** Kiluba words and oral narratives (Mocky) *)

Definition mocky_kiluba : string := "https://run.mocky.io/v3/your-kiluba-endpoint".
Definition mocky_narratives : string :=
  "https://run.mocky.io/v3/your-narratives-endpoint".

Record kilubaWord := mkWord {
  word_kiluba : string;
  word_english : string;
  word_french : string
}.

Record narrative := mkStory {
  story_id : Z;
  story_title : string;
  story_summary : string;
  story_fullText : string;
  story_tags : list string
}.

(** What the two functions return: the payload of the endpoint as it
    came, or the data built into the module. *)
Inductive kilubaData :=
| KilubaPayload (data : payload)
| KilubaWords (words : list kilubaWord).

Inductive narrativesData :=
| NarrativesPayload (data : payload)
| NarrativeStories (stories : list narrative).

Definition getDefaultKilubaData : kilubaData :=
  KilubaWords
    [mkWord "Mwamudimu" "Greetings" "Salutations";
     mkWord "Mulopwe" "King" "Roi";
     mkWord "Lukasa" "Memory Board" "Planche de mémoire";
     mkWord "Mbudye" "Secret Society" "Société secrète";
     mkWord "Bamfumus" "Royal Nobles" "Nobles royaux";
     mkWord "Bulumbu" "Spirit" "Esprit";
     mkWord "Kasala" "Praise Poetry" "Poésie de louange";
     mkWord "Nkongolo" "Rainbow King" "Roi arc-en-ciel"].

Definition getDefaultNarratives : narrativesData :=
  NarrativeStories
    [mkStory 1 "The Legend of Nkongolo and Mbidi Kiluwe"
       "The foundational myth of the Luba Kingdom tells of Nkongolo, the Rainbow King, and his encounter with the hunter prince Mbidi Kiluwe."
       "In ancient times, Nkongolo ruled the land with tyranny. When Mbidi Kiluwe, the refined hunter from the east, arrived, he brought new customs and royal traditions. Nkongolo's sister bore Mbidi's son, Kalala Ilunga, who would eventually challenge Nkongolo's reign and establish the sacred kingship of the Luba."
       ["origin"; "kingship"; "mythology"];
     mkStory 2 "The Birth of the Lukasa"
       "How the Mbudye society created the memory board to preserve the kingdom's history."
       "The Bambudye, keepers of royal memory, developed the Lukasa - a beaded board that maps the spiritual and political geography of the Luba kingdom. Each bead, shell, and carving represents kings, migrations, and sacred sites."
       ["lukasa"; "mbudye"; "history"];
     mkStory 3 "The Power of Bilumbu (Twin Spirits)"
       "The spiritual significance of twins in Luba cosmology."
       "Twins were considered manifestations of Bilumbu - powerful spirits that connect the living world to the ancestral realm. Their birth was celebrated with special ceremonies and they were believed to bring fortune to the kingdom."
       ["spirituality"; "twins"; "cosmology"]].

(** [try { return await fetchWithRetry(url) } catch { console.warn(msg);
    return fallback }]: the run, and what was written with [console.warn]. *)
Definition orDefault {A} (net : network) (url : string) (msg : string)
    (fromPayload : payload -> A) (fallback : A) (t : Z)
    : run A * list (Z * string) :=
  let r := fetchWithRetry net (mkUrl url None []) noOptions 3 t in
  match result r with
  | Fulfilled data => (mkRun (settled r) (Fulfilled (fromPayload data)) (effects r), [])
  | Rejected _ =>
      (mkRun (settled r) (Fulfilled fallback) (effects r), [(settled r, msg)])
  end.

Definition getKilubaTranslations (net : network) (t : Z)
    : run kilubaData * list (Z * string) :=
  orDefault net mocky_kiluba "Kiluba translations not available, using defaults"
            KilubaPayload getDefaultKilubaData t.

Definition getOralNarratives (net : network) (t : Z)
    : run narrativesData * list (Z * string) :=
  orDefault net mocky_narratives "Oral narratives not available, using defaults"
            NarrativesPayload getDefaultNarratives t.

(** The URLs of the two art searches. *)
Definition metSearchUrl (query : string) (hasImages : bool) : Url :=
  mkUrl API_CONFIG.met_search None
        [("q", PString query); ("hasImages", PBoolean hasImages)].

Definition clevelandSearchUrl (query : string) (limit : Z) : Url :=
  mkUrl API_CONFIG.cleveland_search None
        [("q", PString query); ("has_image", PNumber 1); ("limit", PNumber limit)].

(* ===================================================================== *)
(** * Further definitions: search-module.js                               *)
(* ===================================================================== *)

(** A burst of keystrokes: [debouncedSearch] is called with each query. *)
Definition keystrokes (options : PerformOptions) (queries : list string)
    : list action :=
  (fun query => Call debouncedSearch (mkArgs query options)) <$> queries.

(** ** Filters and sorting *)

(** [item.culture]: an array of strings (Cleveland), a string (Met), or
    missing. *)
Inductive cultureField :=
| CultureArray (names : list string)
| CultureText (text : option string).

(** An artwork, with the properties the filters and the sort read. *)
Record artwork := mkArtwork {
  aw_title : option string;
  aw_medium : option string;
  aw_technique : option string;
  aw_objectName : option string;
  aw_classification : option string;
  aw_culture : cultureField;
  aw_country : option string;
  aw_region : option string;
  aw_subregion : option string;
  aw_objectDate : option string;
  aw_creation_date : option string;
  aw_artistDisplayName : option string;
  aw_creator : option string        (* creators?.[0]?.description *)
}.

(** [a || b]: the first of the two that is a non-empty string. *)
Definition orElse (a b : option string) : option string :=
  if truthy a then a else b.

(** [a || ''] *)
Definition orEmpty (a : option string) : string :=
  if truthy a then default "" a else "".

Section TextMatching.
(** [String.prototype.toLowerCase], which the runtime provides. *)
Variable toLowerCase : string -> string.

(** [text.includes(part)] *)
Definition includes (part text : string) : bool :=
  match String.index 0 part text with
  | Some _ => true
  | None => false
  end.

Definition cultureText (c : cultureField) : string :=
  match c with
  | CultureArray names => toLowerCase (join " " names)
  | CultureText text => toLowerCase (orEmpty text)
  end.

Definition matchesCategory (categoryLower : string) (x : artwork) : bool :=
  let title := toLowerCase (orEmpty (aw_title x)) in
  let medium := toLowerCase (orEmpty (orElse (aw_medium x) (aw_technique x))) in
  let objectType :=
    toLowerCase (orEmpty (orElse (aw_objectName x) (aw_classification x))) in
  let culture := cultureText (aw_culture x) in
  includes categoryLower
    (title +:+ " " +:+ medium +:+ " " +:+ objectType +:+ " " +:+ culture).

Definition filterByCategory (items : list artwork) (category : option string)
    : list artwork :=
  if negb (truthy category) || String.eqb (default "" category) "all" then items
  else filter (fun x => matchesCategory (toLowerCase (default "" category)) x = true)
              items.

Definition isDigit (c : Ascii.ascii) : bool :=
  let n := Ascii.nat_of_ascii c in (48 <=? n)%nat && (n <=? 57)%nat.

Definition digitValue (c : Ascii.ascii) : Z := Z.of_nat (Ascii.nat_of_ascii c) - 48.

(** [dateString.match(/(\d{4})/)] followed by [parseInt]: the number
    written by the first four digits in a row. *)
Fixpoint firstYear (s : string) : option Z :=
  match s with
  | String a rest =>
      match rest with
      | String b (String c (String d _)) =>
          if isDigit a && isDigit b && isDigit c && isDigit d
          then Some (1000 * digitValue a + 100 * digitValue b
                     + 10 * digitValue c + digitValue d)
          else firstYear rest
      | _ => None
      end
  | EmptyString => None
  end.

(** A year given as a filter counts when it is not [undefined], [null] or 0. *)
Definition given (year : option Z) : bool :=
  match year with
  | Some y => negb (y =? 0)
  | None => false
  end.

Definition inDateRange (startYear endYear : option Z) (x : artwork) : bool :=
  let itemDate := orEmpty (orElse (aw_objectDate x) (aw_creation_date x)) in
  match firstYear itemDate with
  | None => false
  | Some year =>
      if given startYear && (year <? default 0 startYear) then false
      else if given endYear && (default 0 endYear <? year) then false
      else true
  end.

Definition filterByDateRange (items : list artwork) (startYear endYear : option Z)
    : list artwork :=
  if negb (given startYear) && negb (given endYear) then items
  else filter (fun x => inDateRange startYear endYear x = true) items.

Definition matchesGeography (regionLower : string) (x : artwork) : bool :=
  let country := toLowerCase (orEmpty (aw_country x)) in
  let geoRegion := toLowerCase (orEmpty (orElse (aw_region x) (aw_subregion x))) in
  let culture := cultureText (aw_culture x) in
  includes regionLower (country +:+ " " +:+ geoRegion +:+ " " +:+ culture).

Definition filterByGeography (items : list artwork) (region : option string)
    : list artwork :=
  if negb (truthy region) || String.eqb (default "" region) "all" then items
  else filter (fun x => matchesGeography (toLowerCase (default "" region)) x = true)
              items.

(** The [filters] argument of [applyFilters]. *)
Record Filters := mkFilters {
  f_category : option string;
  f_startYear : option Z;
  f_endYear : option Z;
  f_geography : option string;
  f_customFilter : option (artwork -> bool)
}.

Definition applyFilters (items : list artwork) (filters : Filters) : list artwork :=
  let filtered := items in
  let filtered :=
    if truthy (f_category filters)
    then filterByCategory filtered (f_category filters) else filtered in
  let filtered :=
    if given (f_startYear filters) || given (f_endYear filters)
    then filterByDateRange filtered (f_startYear filters) (f_endYear filters)
    else filtered in
  let filtered :=
    if truthy (f_geography filters)
    then filterByGeography filtered (f_geography filters) else filtered in
  match f_customFilter filters with
  | Some keep => filter (fun x => keep x = true) filtered
  | None => filtered
  end.

(** [extractYear] *)
Definition extractYear (dateString : string) : Z :=
  default 0 (firstYear dateString).

(** What the comparator of [sortResults] compares: lower-cased strings or
    years. *)
Inductive sortKey :=
| KeyText (s : string)
| KeyYear (y : Z).

(** [valueA] for the [sortBy] given; [None] in the [default] case of the
    [switch], where the comparator returns 0. *)
Definition sortValue (sortBy : string) (x : artwork) : option sortKey :=
  if String.eqb sortBy "title" then
    Some (KeyText (toLowerCase (orEmpty (aw_title x))))
  else if String.eqb sortBy "date" then
    Some (KeyYear (extractYear (orEmpty (orElse (aw_objectDate x)
                                                (aw_creation_date x)))))
  else if String.eqb sortBy "artist" then
    Some (KeyText (toLowerCase (orEmpty (orElse (aw_artistDisplayName x)
                                                (aw_creator x)))))
  else None.

(** [valueA < valueB] *)
Definition keyLt (a b : sortKey) : bool :=
  match a, b with
  | KeyText s1, KeyText s2 => lessThan (codeUnits s1) (codeUnits s2)
  | KeyYear y1, KeyYear y2 => y1 <? y2
  | _, _ => false
  end.

(** The comparator: negative, zero or positive. *)
Definition compareBy (sortBy order : string) (a b : artwork) : Z :=
  match sortValue sortBy a, sortValue sortBy b with
  | Some valueA, Some valueB =>
      if keyLt valueA valueB then (if String.eqb order "asc" then -1 else 1)
      else if keyLt valueB valueA then (if String.eqb order "asc" then 1 else -1)
      else 0
  | _, _ => 0
  end.

(** [Array.prototype.sort] with a comparator: the stable sort. An element
    goes before the first element of the sorted rest that the comparator
    does not put before it. *)
Fixpoint insertSorted {A} (cmp : A -> A -> Z) (x : A) (l : list A) : list A :=
  match l with
  | [] => [x]
  | y :: l' => if cmp x y <=? 0 then x :: y :: l' else y :: insertSorted cmp x l'
  end.

Definition stableSort {A} (cmp : A -> A -> Z) (l : list A) : list A :=
  foldr (insertSorted cmp) [] l.

Definition sortResults (items : list artwork) (sortBy order : string)
    : list artwork :=
  stableSort (compareBy sortBy order) items.

(** An artwork passes every criterion of [filters] that is set. *)
Definition passes (filters : Filters) (x : artwork) : bool :=
  (if truthy (f_category filters)
      && negb (String.eqb (default "" (f_category filters)) "all")
   then matchesCategory (toLowerCase (default "" (f_category filters))) x
   else true)
  && (if given (f_startYear filters) || given (f_endYear filters)
      then inDateRange (f_startYear filters) (f_endYear filters) x else true)
  && (if truthy (f_geography filters)
         && negb (String.eqb (default "" (f_geography filters)) "all")
      then matchesGeography (toLowerCase (default "" (f_geography filters))) x
      else true)
  && match f_customFilter filters with Some keep => keep x | None => true end.
End TextMatching.

(** The date of an artwork as the date filter and the sort read it. *)
Definition dateOf (x : artwork) : string :=
  orEmpty (orElse (aw_objectDate x) (aw_creation_date x)).

(** Every element is followed by one that [le] allows after it. *)
Fixpoint inOrder {A} (le : A -> A -> bool) (l : list A) : bool :=
  match l with
  | a :: (b :: _) as l' => le a b && inOrder le l'
  | _ => true
  end.

(* ===================================================================== *)
(** * Further definitions: data-management.js                             *)
(* ===================================================================== *)

(** ** Favorites *)

Definition removeFavorite (type : string) (itemId : ident) (st : Storage)
    : Storage * completion bool :=
  let favorites := getFavorites st in
  match readMember favorites type with
  | Own list =>
      let favorites :=
        <[type := filter (fun x => item_id x <> itemId) list]> favorites in
      (fst (saveToStorage STORAGE_KEYS.FAVORITES favorites st), Returned true)
  | Inherited =>
      (st, Thrown (TypeError "favorites[type].filter is not a function"))
  | Undefined => (st, Returned false)
  end.

Definition isFavorite (type : string) (itemId : ident) (st : Storage)
    : completion bool :=
  match readMember (getFavorites st) type with
  | Own list => Returned (existsb (fun x => bool_decide (item_id x = itemId)) list)
  | Inherited => Thrown (TypeError "favorites[type].some is not a function")
  | Undefined => Returned false
  end.

(** [Object.values(o).reduce((total, arr) => total + arr.length, 0)] *)
Definition countLists {A} (o : gmap string (list A)) : nat :=
  map_fold (fun _ arr total => (total + length arr)%nat) 0%nat o.

Definition getFavoriteCount (st : Storage) : nat :=
  countLists (getFavorites st).

(** ** The other keys of localStorage, and the document element *)

(** What [localStorage.getItem] and [JSON.parse] give for a key: nothing,
    a value, or a text that does not parse (or is empty). *)
Inductive slot (A : Type) :=
| Missing
| Parsed (v : A)
| Unparsable (text : string).
Arguments Missing {A}.
Arguments Parsed {A} v.
Arguments Unparsable {A} text.

(** The values this module stores as preferences and theme. *)
Inductive prefValue :=
| PrefText (s : string)
| PrefFlag (b : bool).

#[global] Instance prefValue_eq_dec : EqDecision prefValue.
Proof. solve_decision. Defined.

(** [String(value)], as [setAttribute] applies it. *)
Definition toText (v : prefValue) : string :=
  match v with
  | PrefText s => s
  | PrefFlag true => "true"
  | PrefFlag false => "false"
  end.

Record historyEntry := mkEntry {
  entry_id : ident;
  entry_name : string;
  entry_viewedAt : string;
  entry_thumbnail : option string
}.

(** The item handed to [addToHistory]. *)
Record viewedItem := mkViewed {
  viewed_id : ident;
  viewed_name : option string;
  viewed_title : option string;
  viewed_thumbnail : option string;
  viewed_image : option string
}.

(** [`${year}-W${weekNumber}`], as the two numbers it prints. *)
Definition weekKey := (Z * Z)%type.

Record vote := mkVote {
  vote_itemId : string;
  vote_name : option string;
  vote_votedAt : string
}.

(** [votes] is the object keyed by item id, in the order [Object.keys]
    and [Object.values] list it. *)
Record voteData := mkVoteData {
  currentWeek : weekKey;
  votes : list (string * vote)
}.

(** [localStorage], key by key: [heritage] holds the favorites key and
    says whether [setItem] throws; the other four keys have their slot. *)
Record LocalStorage := mkLocal {
  heritage : Storage;
  preferencesItem : slot (gmap string prefValue);
  historyItem : slot (gmap string (list historyEntry));
  votesItem : slot voteData;
  themeItem : slot prefValue
}.

(** The storage, the object bound to [DEFAULT_PREFERENCES], and what the
    module writes to the page: the [data-theme] and [lang] attributes of
    the document element and the [languageChanged] events dispatched. *)
Record Site := mkSite {
  stored : LocalStorage;
  defaultPreferences : gmap string prefValue;
  dataTheme : option string;
  langAttribute : option string;
  languageChanged : list prefValue
}.

(** [getFromStorage] on a slot. *)
Definition readSlot {A} (s : slot A) (defaultValue : A) : A :=
  match s with
  | Parsed v => v
  | Missing | Unparsable _ => defaultValue
  end.

(** [saveToStorage] writes unless [setItem] throws. *)
Definition canSave (ls : LocalStorage) : bool :=
  negb (quotaExceeded (heritage ls)).

(** [DEFAULT_PREFERENCES] as the module is loaded. *)
Definition DEFAULT_PREFERENCES : gmap string prefValue :=
  <["language" := PrefText "english"]> (<["theme" := PrefText "light"]>
    (<["artworkView" := PrefText "grid"]> (<["autoplay" := PrefFlag false]> ∅))).

(** ** Interaction history *)

Definition getHistory (ls : LocalStorage) : gmap string (list historyEntry) :=
  readSlot (historyItem ls)
    (<["artifacts" := []]> (<["recordings" := []]> (<["searches" := []]> ∅))).

Definition saveHistory (history : gmap string (list historyEntry))
    (ls : LocalStorage) : LocalStorage :=
  if canSave ls
  then mkLocal (heritage ls) (preferencesItem ls) (Parsed history)
               (votesItem ls) (themeItem ls)
  else ls.

(** [item.name || item.title || 'Untitled'] and
    [item.thumbnail || item.image || null] *)
Definition viewedEntry (x : viewedItem) (viewedAt : string) : historyEntry :=
  mkEntry (viewed_id x)
          (if truthy (viewed_name x) then default "" (viewed_name x)
           else if truthy (viewed_title x) then default "" (viewed_title x)
           else "Untitled")
          viewedAt
          (if truthy (viewed_thumbnail x) then viewed_thumbnail x
           else if truthy (viewed_image x) then viewed_image x else None).

(** [viewedAt] is [new Date().toISOString()] at the time of the call;
    [maxItems] is 20 when the caller gives none. The history returned is
    the one built, saved or not; an exception leaves the storage as it
    was. *)
Definition addToHistory (type : string) (x : viewedItem) (maxItems : Z)
    (viewedAt : string) (ls : LocalStorage)
    : LocalStorage * completion (gmap string (list historyEntry)) :=
  let history := getHistory ls in
  let history :=
    match readMember history type with
    | Undefined => writeMember type [] history
    | Own _ | Inherited => history
    end in
  match readMember history type with
  | Own list =>
      let list := filter (fun h => entry_id h <> viewed_id x) list in
      let list := viewedEntry x viewedAt :: list in
      let list := slice0 maxItems list in
      let history := <[type := list]> history in
      (saveHistory history ls, Returned history)
  | Inherited | Undefined =>
      (ls, Thrown (TypeError "history[type].filter is not a function"))
  end.

Definition historyOf (type : string) (ls : LocalStorage) : list historyEntry :=
  default [] (getHistory ls !! type).

Definition clearHistory (type : option string) (ls : LocalStorage) : LocalStorage :=
  if truthy type
  then saveHistory (writeMember (default "" type) [] (getHistory ls)) ls
  else saveHistory (<["artifacts" := []]> (<["recordings" := []]>
                      (<["searches" := []]> ∅))) ls.

(** A sequence of [addToHistory] calls on one type with one [maxItems]. *)
Definition viewAll (type : string) (maxItems : Z)
    (views : list (viewedItem * string)) (ls : LocalStorage) : LocalStorage :=
  foldl (fun ls view => fst (addToHistory type view.1 maxItems view.2 ls)) ls views.

(** ** Community voting *)

(** The clock as [getCurrentWeekKey] reads it: the year, the milliseconds
    since the start of the year, and the day of the week of January 1st
    (0 for Sunday). *)
Record Today := mkToday {
  fullYear : Z;
  sinceStartOfYear : Z;
  startOfYearDay : Z
}.

Definition getCurrentWeekKey (now : Today) : weekKey :=
  let days := sinceStartOfYear now / (24 * 60 * 60 * 1000) in
  (* Math.ceil((days + startOfYear.getDay() + 1) / 7) *)
  let weekNumber := (days + startOfYearDay now + 1 + 6) / 7 in
  (fullYear now, weekNumber).

(** [week] is [getCurrentWeekKey()] at the time of the call. *)
Definition getVotes (week : weekKey) (ls : LocalStorage) : voteData :=
  readSlot (votesItem ls) (mkVoteData week []).

Definition saveVotes (v : voteData) (ls : LocalStorage) : LocalStorage :=
  if canSave ls
  then mkLocal (heritage ls) (preferencesItem ls) (historyItem ls)
               (Parsed v) (themeItem ls)
  else ls.

(** Whether the object has an own property of that name. *)
Definition hasOwn (name : string) (l : list (string * vote)) : bool :=
  existsb (fun kv => String.eqb (fst kv) name) l.

(** The number a key is when it is an array index: a decimal numeral
    without sign or leading zero, below 2^32 - 1. *)
Fixpoint numeral (s : string) (n : Z) : option Z :=
  match s with
  | EmptyString => Some n
  | String c s' => if isDigit c then numeral s' (10 * n + digitValue c) else None
  end.

Definition arrayIndex (name : string) : option Z :=
  match name with
  | EmptyString => None
  | String c rest =>
      if (Ascii.nat_of_ascii c =? 48)%nat then (if String.eqb rest "" then Some 0 else None)
      else
        match numeral name 0 with
        | Some n => if n <? 4294967295 then Some n else None
        | None => None
        end
  end.

(** A new key [name] is listed before [other]: array indices come first,
    in ascending order; the other keys follow in the order they were
    created. *)
Definition listedBefore (name other : string) : bool :=
  match arrayIndex name, arrayIndex other with
  | Some n, Some m => n <? m
  | Some _, None => true
  | None, _ => false
  end.

Fixpoint replaceProperty (name : string) (v : vote) (l : list (string * vote))
    : list (string * vote) :=
  match l with
  | [] => []
  | kv :: rest =>
      if String.eqb (fst kv) name then (name, v) :: rest
      else kv :: replaceProperty name v rest
  end.

Fixpoint createProperty (name : string) (v : vote) (l : list (string * vote))
    : list (string * vote) :=
  match l with
  | [] => [(name, v)]
  | kv :: rest =>
      if listedBefore name (fst kv) then (name, v) :: l
      else kv :: createProperty name v rest
  end.

(** [votes[itemId] = v], where [v] is an object: the value of an own key is
    replaced; otherwise [__proto__] goes to the setter of
    [Object.prototype], which makes [v] the prototype and creates no key;
    any other name becomes a new own key. *)
Definition setProperty (itemId : string) (v : vote) (l : list (string * vote))
    : list (string * vote) :=
  if hasOwn itemId l then replaceProperty itemId v l
  else if String.eqb itemId "__proto__" then l
  else createProperty itemId v l.

(** [voteData.votes.hasOwnProperty(itemId)]: the method is that of
    [Object.prototype] unless the votes have an own key of its name, which
    holds a vote and cannot be called. *)
Definition hasVoted (itemId : string) (week : weekKey) (ls : LocalStorage)
    : completion bool :=
  let voteData := getVotes week ls in
  if negb (bool_decide (currentWeek voteData = week)) then Returned false
  else if hasOwn "hasOwnProperty" (votes voteData)
  then Thrown (TypeError "voteData.votes.hasOwnProperty is not a function")
  else Returned (hasOwn itemId (votes voteData)).

Inductive castResult :=
| AlreadyVotedThisWeek                    (* { success: false, reason: ... } *)
| VoteCast (voteData : voteData).         (* { success: true, voteData } *)

(** [name] and [title] are those of [itemData], [votedAt] is
    [new Date().toISOString()] at the time of the call. *)
Definition castVote (itemId : string) (name title : option string)
    (votedAt : string) (week : weekKey) (ls : LocalStorage)
    : LocalStorage * castResult :=
  let voteData := getVotes week ls in
  let voteData :=
    if negb (bool_decide (currentWeek voteData = week))
    then mkVoteData week [] else voteData in
  let alreadyVoted := (0 <? length (votes voteData))%nat in
  if alreadyVoted then (ls, AlreadyVotedThisWeek)
  else
    let voteData :=
      mkVoteData (currentWeek voteData)
                 (setProperty itemId (mkVote itemId (orElse name title) votedAt)
                              (votes voteData)) in
    (saveVotes voteData ls, VoteCast voteData).

Definition getMyVote (week : weekKey) (ls : LocalStorage) : option vote :=
  let voteData := getVotes week ls in
  if negb (bool_decide (currentWeek voteData = week)) then None
  else snd <$> head (votes voteData).

Definition succeeded (r : castResult) : bool :=
  match r with VoteCast _ => true | AlreadyVotedThisWeek => false end.

(** ** Preferences, theme and language *)

(** With nothing readable under the key, [getFromStorage] hands out the
    object [DEFAULT_PREFERENCES] itself. *)
Definition getPreferences (site : Site) : gmap string prefValue :=
  readSlot (preferencesItem (stored site)) (defaultPreferences site).

Definition savePreferences (p : gmap string prefValue) (ls : LocalStorage)
    : LocalStorage :=
  if canSave ls
  then mkLocal (heritage ls) (Parsed p) (historyItem ls) (votesItem ls) (themeItem ls)
  else ls.

Definition saveTheme (theme : slot prefValue) (ls : LocalStorage) : LocalStorage :=
  if canSave ls
  then mkLocal (heritage ls) (preferencesItem ls) (historyItem ls) (votesItem ls)
               theme
  else ls.

(** [theme] is [None] for [undefined]: the attribute reads "undefined",
    and so does the text stored, which does not parse. *)
Definition applyTheme (theme : option prefValue) (site : Site) : Site :=
  mkSite (saveTheme (from_option Parsed (Unparsable "undefined") theme) (stored site))
         (defaultPreferences site)
         (Some (from_option toText "undefined" theme))
         (langAttribute site) (languageChanged site).

Definition getTheme (site : Site) : prefValue :=
  readSlot (themeItem (stored site)) (PrefText "light").

Definition applyLanguage (language : prefValue) (site : Site) : Site :=
  mkSite (stored site) (defaultPreferences site) (dataTheme site)
         (Some (if bool_decide (language = PrefText "french") then "fr" else "en"))
         (languageChanged site ++ [language]).

(** [preferences[key] = value] changes the object [getPreferences]
    returned: a copy parsed from the storage, or [DEFAULT_PREFERENCES].
    (For [__proto__] without an own property of the name, the setter of
    [Object.prototype] ignores a string or a boolean.) *)
Definition updatePreference (key : string) (value : prefValue) (site : Site)
    : Site * gmap string prefValue :=
  let preferences := writeMember key value (getPreferences site) in
  let defaults :=
    match preferencesItem (stored site) with
    | Parsed _ => defaultPreferences site
    | Missing | Unparsable _ => preferences
    end in
  let site := mkSite (savePreferences preferences (stored site)) defaults
                     (dataTheme site) (langAttribute site) (languageChanged site) in
  let site := if String.eqb key "theme" then applyTheme (Some value) site else site in
  let site := if String.eqb key "language" then applyLanguage value site else site in
  (site, preferences).

Definition resetPreferences (site : Site) : Site * gmap string prefValue :=
  let defaults := defaultPreferences site in
  let site := mkSite (savePreferences defaults (stored site)) defaults
                     (dataTheme site) (langAttribute site) (languageChanged site) in
  (applyTheme (defaults !! "theme") site, defaults).

Definition toggleTheme (site : Site) : Site * prefValue :=
  let current := getTheme site in
  let newTheme :=
    if bool_decide (current = PrefText "light")
    then PrefText "dark" else PrefText "light" in
  let site := applyTheme (Some newTheme) site in
  (fst (updatePreference "theme" newTheme site), newTheme).

(** [localStorage.removeItem] for each of the five keys. *)
Definition clearAllData (ls : LocalStorage) : LocalStorage :=
  mkLocal (mkStorage (delete STORAGE_KEYS.FAVORITES (entries (heritage ls)))
                     (quotaExceeded (heritage ls)))
          Missing Missing Missing Missing.

(** The page as the module is loaded, on a given storage. *)
Definition siteLoaded (ls : LocalStorage) : Site :=
  mkSite ls DEFAULT_PREFERENCES None None [].

(* ===================================================================== *)
(** * Scenarios                                                           *)
(* ===================================================================== *)

Module Scenario.
Definition artifact (n : Z) : item :=
  mkItem (IdNum n) None (Some "Lukasa") (Some "image.jpg") None.

Definition ok (latency : Z) (data : payload) : attempt :=
  mkAttempt latency (Response true 200 "OK" (Fulfilled data)).

Definition failedToFetch (latency : Z) (msg : string) : attempt :=
  mkAttempt latency (NetworkFailure (NetworkError msg)).

Definition someUrl : Url := mkUrl "https://example.org/data.json" None [].

(** Every attempt fails, each in its own way. *)
Definition alwaysDown : network := fun _ i =>
  match i with
  | 0%nat => failedToFetch 30 "first"
  | 1%nat => mkAttempt 20 (Response false 503 "Service Unavailable" (Fulfilled JNull))
  | _ => failedToFetch 30 "last"
  end.

(** Every attempt is answered with status 503. *)
Definition overloaded : network := fun _ _ =>
  mkAttempt 20 (Response false 503 "Service Unavailable" (Fulfilled JNull)).

(** Two failures, then a payload. *)
Definition thirdTimeLucky : network := fun _ i =>
  match i with
  | 0%nat => failedToFetch 30 "first"
  | 1%nat => mkAttempt 20 (Response false 503 "Service Unavailable" (Fulfilled JNull))
  | _ => ok 50 (JObject (artifact 7))
  end.

(** The Met search is down; Cleveland answers with two records. *)
Definition metDown : network := fun url _ =>
  if String.eqb (url_base url) API_CONFIG.cleveland_search
  then ok 50 (JSearch (mkSearchBody None (Some [artifact 1; artifact 2])
                                    None None None None))
  else failedToFetch 30 "Failed to fetch".

(** Cleveland answers with three records, the Met with twelve ids, each
    of which has an image. *)
Definition bothUp : network := fun url _ =>
  if String.eqb (url_base url) API_CONFIG.cleveland_search
  then ok 50 (JSearch (mkSearchBody None (Some (artifact <$> [1; 2; 3]))
                                    None None None None))
  else if String.eqb (url_base url) API_CONFIG.met_search
  then ok 40 (JSearch (mkSearchBody (Some (seqZ 101 12)) None
                                    None None None None))
  else match url_segment url with
       | Some (PNumber n) => ok 60 (JObject (artifact n))
       | _ => failedToFetch 30 "Failed to fetch"
       end.

(** MusicBrainz answers every search with one record of each kind. *)
Definition musicUp : network := fun _ _ =>
  ok 50 (JSearch (mkSearchBody None None (Some 1) (Some [artifact 1])
                               (Some [artifact 2]) (Some [artifact 3]))).

Definition artOnly (maxResults : Z) : SearchOptions :=
  mkOptions (Some true) (Some false) (Some maxResults).

Definition musicOnly : SearchOptions :=
  mkOptions (Some false) (Some true) None.

Definition searchBar : PerformOptions := mkPerform None true true None.

(** A second debounced function, made by the same [debounce]. *)
Definition debouncedResize : debounced := debounce (Func "onResize") 200.

Definition typed (query : string) : arguments :=
  mkArgs query searchBar.

Definition emptyStorage : Storage := mkStorage ∅ false.

(** A storage whose quota is used up: every [setItem] throws. *)
Definition fullStorage : Storage := mkStorage ∅ true.

Definition lukasa : item :=
  mkItem (IdNum 4711) None (Some "Lukasa") (Some "lukasa.jpg") None.

(** The same object as another source describes it. *)
Definition lukasaAgain : item :=
  mkItem (IdNum 4711) (Some "Memory board") None None None.

Definition stool : item :=
  mkItem (IdStr "a1b2") (Some "Stool") None None None.

(** Every source answers: Cleveland with three records, the Met with twelve
    ids whose objects have an image, MusicBrainz with one record of each
    kind. *)
Definition everythingUp : network := fun url i =>
  if String.prefix API_CONFIG.musicbrainz_base (url_base url)
  then musicUp url i else bothUp url i.

Definition undated : artwork :=
  mkArtwork (Some "Mask") None None None None (CultureText (Some "Luba"))
            None None None (Some "19th century") None None None.

Definition stoolOf1890 : artwork :=
  mkArtwork (Some "Caryatid Stool") (Some "Wood") None None None
            (CultureArray ["Africa"; "Luba"]) None None None
            None (Some "c. 1890-1900") None None.

(** A storage where the lukasa is a favorite. *)
Definition withLukasa : Storage :=
  (addFavorite "artifacts" lukasa "2024-05-01T10:00:00.000Z" emptyStorage).1.

(** A browser that has stored nothing yet. *)
Definition noData : LocalStorage :=
  mkLocal emptyStorage Missing Missing Missing Missing.

(** The lukasa as the details dialog hands it to the history. *)
Definition viewedLukasa : viewedItem :=
  mkViewed (IdNum 4711) None (Some "Lukasa") None (Some "lukasa.jpg").
(** A runtime's [toLowerCase] on ASCII text: the letters A to Z. *)
Definition lowerChar (c : Ascii.ascii) : Ascii.ascii :=
  let n := Ascii.nat_of_ascii c in
  if (65 <=? n)%nat && (n <=? 90)%nat then Ascii.ascii_of_nat (n + 32) else c.

Fixpoint asciiLowerCase (s : string) : string :=
  match s with
  | EmptyString => EmptyString
  | String c s' => String (lowerChar c) (asciiLowerCase s')
  end.
End Scenario.

(* ===================================================================== *)
(** * Properties of fetchWithRetry                                        *)
(* ===================================================================== *)

Section FetchWithRetry.
Variables (net : network) (url : Url) (options : RequestInit).

Lemma requestsOf_app es1 es2 :
  requestsOf (es1 ++ es2) = requestsOf es1 ++ requestsOf es2.
Proof. unfold requestsOf. apply omap_app. Qed.

Lemma timeoutsOf_app es1 es2 :
  timeoutsOf (es1 ++ es2) = timeoutsOf es1 ++ timeoutsOf es2.
Proof. unfold timeoutsOf. apply omap_app. Qed.

(** One turn of the loop, case by case. *)
Lemma fetchLoop_fulfilled retries n i t v :
  attemptOutcome (net url (Z.to_nat i)) = Fulfilled v ->
  fetchLoop net url options retries (S n) i t =
    mkRun (t + latency (net url (Z.to_nat i))) (Fulfilled v)
          [(t, EvFetch url (mkInit (init_headers options) (Some "no-store")))].
Proof. intros H. simpl. by rewrite H. Qed.

Lemma fetchLoop_last retries n i t e :
  attemptOutcome (net url (Z.to_nat i)) = Rejected e ->
  i = retries - 1 ->
  fetchLoop net url options retries (S n) i t =
    mkRun (t + latency (net url (Z.to_nat i))) (Rejected e)
          [(t, EvFetch url (mkInit (init_headers options) (Some "no-store")))].
Proof.
  intros H Hi. simpl. rewrite H.
  destruct (Z.eqb_spec i (retries - 1)); [done | lia].
Qed.

Lemma fetchLoop_retry retries n i t e :
  attemptOutcome (net url (Z.to_nat i)) = Rejected e ->
  i <> retries - 1 ->
  fetchLoop net url options retries (S n) i t =
    let t' := t + latency (net url (Z.to_nat i)) in
    during [(t, EvFetch url (mkInit (init_headers options) (Some "no-store")));
            (t', EvTimeout (400 * (i + 1)))]
           (fetchLoop net url options retries n (i + 1) (t' + 400 * (i + 1))).
Proof.
  intros H Hi. simpl. rewrite H.
  destruct (Z.eqb_spec i (retries - 1)); [lia | done].
Qed.

(** The loop makes at most as many requests as it has turns left. *)
Lemma fetchLoop_requests_le retries n i t :
  (length (requestsOf (effects (fetchLoop net url options retries n i t))) <= n)%nat.
Proof.
  revert i t. induction n as [|n IH]; intros i t; simpl; [lia|].
  destruct (attemptOutcome (net url (Z.to_nat i))) as [v|e]; simpl; [lia|].
  destruct (i =? retries - 1); simpl; [lia|].
  specialize (IH (i + 1) (t + latency (net url (Z.to_nat i)) + 400 * (i + 1))).
  lia.
Qed.

Lemma fetchLoop_requests_pos retries n i t :
  (1 <= length (requestsOf (effects (fetchLoop net url options retries (S n) i t))))%nat.
Proof.
  simpl.
  destruct (attemptOutcome (net url (Z.to_nat i))) as [v|e]; simpl; [lia|].
  destruct (i =? retries - 1); simpl; lia.
Qed.

(** The waits of the loop: [400 * (i + 1)] after the failed attempt [i],
    one between every two consecutive requests. *)
Lemma fetchLoop_timeouts retries n i t :
  i + Z.of_nat n = retries ->
  timeoutsOf (effects (fetchLoop net url options retries n i t)) =
    (fun k => 400 * (i + Z.of_nat k + 1)) <$>
      seq 0 (length (requestsOf (effects (fetchLoop net url options retries n i t))) - 1).
Proof.
  revert i t. induction n as [|n IH]; intros i t Hn; [done|].
  destruct (attemptOutcome (net url (Z.to_nat i))) as [v|e] eqn:Ha.
  { by rewrite (fetchLoop_fulfilled _ _ _ _ _ Ha). }
  destruct (decide (i = retries - 1)) as [Hi|Hi].
  { by rewrite (fetchLoop_last _ _ _ _ _ Ha Hi). }
  rewrite (fetchLoop_retry _ _ _ _ _ Ha Hi). cbv zeta.
  destruct n as [|n]; [lia|].
  set (t2 := t + latency (net url (Z.to_nat i)) + 400 * (i + 1)).
  pose proof (fetchLoop_requests_pos retries n (i + 1) t2) as Hpos.
  specialize (IH (i + 1) t2 ltac:(lia)).
  unfold during. cbn [effects].
  rewrite timeoutsOf_app, requestsOf_app, IH, length_app. clear IH.
  destruct (length (requestsOf (effects (fetchLoop _ _ _ _ _ _ _))))
    as [|m]; [lia|].
  change (400 * (i + 1) ::
          ((fun k => 400 * (i + 1 + Z.of_nat k + 1)) <$> seq 0 (S m - 1)) =
          (fun k => 400 * (i + Z.of_nat k + 1)) <$> seq 0 (1 + S m - 1)).
  replace (1 + S m - 1)%nat with (S (S m - 1)) by lia.
  cbn [seq fmap list_fmap]. f_equal; [f_equal; lia|].
  rewrite <- seq_shift, <- list_fmap_compose.
  apply list_fmap_ext. intros ? k ?. simpl. lia.
Qed.

(** When every attempt fails the last error is the one thrown, after
    exactly [retries] requests. *)
Lemma fetchLoop_exhausted retries n i t :
  0 <= i -> i + Z.of_nat (S n) = retries ->
  (forall j, (Z.to_nat i <= j < Z.to_nat retries)%nat ->
             isRejected (attemptOutcome (net url j)) = true) ->
  exists e,
    attemptOutcome (net url (Z.to_nat (retries - 1))) = Rejected e /\
    result (fetchLoop net url options retries (S n) i t) = Rejected e /\
    length (requestsOf (effects (fetchLoop net url options retries (S n) i t))) = S n.
Proof.
  revert i t. induction n as [|n IH]; intros i t Hi Hn Hall.
  - destruct (attemptOutcome (net url (Z.to_nat i))) as [v|e] eqn:Ha.
    { specialize (Hall (Z.to_nat i) ltac:(lia)). by rewrite Ha in Hall. }
    exists e. rewrite (fetchLoop_last retries _ _ _ _ Ha ltac:(lia)).
    replace (retries - 1) with i by lia. done.
  - destruct (attemptOutcome (net url (Z.to_nat i))) as [v|e] eqn:Ha.
    { specialize (Hall (Z.to_nat i) ltac:(lia)). by rewrite Ha in Hall. }
    rewrite (fetchLoop_retry retries _ _ _ _ Ha ltac:(lia)). cbv zeta.
    destruct (IH (i + 1) (t + latency (net url (Z.to_nat i)) + 400 * (i + 1)))
      as (e' & Hlast & Hres & Hlen); [lia | lia | |].
    { intros j Hj. apply Hall. lia. }
    exists e'. split; [done|]. split; [done|].
    unfold during. cbn [effects]. rewrite requestsOf_app, length_app, Hlen. done.
Qed.
End FetchWithRetry.

(** C4. When every one of the [retries] attempts (at least one; three by
    default) fails - the network fails, [response.ok] is false, or the body
    is no JSON - [fetchWithRetry] made exactly [retries] requests and its
    promise is rejected with the error of the last attempt itself: the
    error of [fetch], the [Error] made from the status of the response, or
    the error of [response.json()]. *)
Theorem fetchWithRetry_exhausted (net : network) (url : Url)
    (options : RequestInit) (retries t : Z) :
  1 <= retries ->
  (forall i, (i < Z.to_nat retries)%nat ->
     match answer (net url i) with
     | NetworkFailure _ => True
     | Response ok _ _ json => ok = false \/ isRejected json = true
     end) ->
  let r := fetchWithRetry net url options retries t in
  let last := answer (net url (Z.to_nat (retries - 1))) in
  (forall e, last = NetworkFailure e -> result r = Rejected e) /\
  (forall status statusText json,
     last = Response false status statusText json ->
     result r = Rejected (HttpError status statusText)) /\
  (forall status statusText e,
     last = Response true status statusText (Rejected e) ->
     result r = Rejected e) /\
  isRejected (result r) = true /\
  length (requestsOf (effects r)) = Z.to_nat retries.
Proof.
  intros Hretries Hall r last. subst r last. unfold fetchWithRetry.
  destruct (Z.to_nat retries) as [|n] eqn:Hn; [lia|].
  destruct (fetchLoop_exhausted net url options retries n 0 t)
    as (cause & Hlast & Hres & Hlen); [lia | lia | |].
  { intros j Hj. specialize (Hall j ltac:(lia)). unfold attemptOutcome.
    destruct (answer (net url j)) as [e|ok status statusText json]; [done|].
    destruct ok; [|done]. destruct Hall as [?|Hjson]; [done|].
    by destruct json. }
  rewrite Hres. unfold attemptOutcome in Hlast.
  replace (Z.to_nat (0 + Z.of_nat (S n) - 1)) with (Z.to_nat (retries - 1))
    in Hlast by lia.
  split; [|split; [|split; [|split]]].
  - intros e He. rewrite He in Hlast. done.
  - intros status statusText json He. rewrite He in Hlast. done.
  - intros status statusText e He. rewrite He in Hlast. done.
  - done.
  - rewrite Hlen. lia.
Qed.

Lemma fetchWithRetry_exhausted_witness :
  result (fetchWithRetry Scenario.alwaysDown Scenario.someUrl noOptions 3 0)
    = Rejected (NetworkError "last") /\
  result (fetchWithRetry Scenario.overloaded Scenario.someUrl noOptions 3 0)
    = Rejected (HttpError 503 "Service Unavailable").
Proof.
  split.
  - assert (1 <= 3) as H1 by lia.
    pose proof (fetchWithRetry_exhausted Scenario.alwaysDown Scenario.someUrl
                  noOptions 3 0 H1) as H.
    cbv zeta in H. destruct H as (H & _).
    + intros [|[|i]] _; cbn; auto.
    + exact (H _ eq_refl).
  - assert (1 <= 3) as H1 by lia.
    pose proof (fetchWithRetry_exhausted Scenario.overloaded Scenario.someUrl
                  noOptions 3 0 H1) as H.
    cbv zeta in H. destruct H as (_ & H & _).
    + intros i _; cbn; auto.
    + exact (H _ _ _ eq_refl).
Defined.

(** The claim as the spec words it fails where no attempt is allowed: all
    of the zero attempts fail, and the promise is fulfilled. And where the
    three attempts fail, what the promise is rejected with is the very
    error the last attempt threw, not an error of another kind around
    it. *)
Lemma fetchWithRetry_zero_attempts_fulfilled :
  (forall i, (i < Z.to_nat 0)%nat ->
     match answer (Scenario.alwaysDown Scenario.someUrl i) with
     | NetworkFailure _ => True
     | Response ok _ _ json => ok = false \/ isRejected json = true
     end) /\
  fetchWithRetry Scenario.alwaysDown Scenario.someUrl noOptions 0 0
    = mkRun 0 (Fulfilled JUndefined) [] /\
  answer (Scenario.alwaysDown Scenario.someUrl 2%nat)
    = NetworkFailure (NetworkError "last") /\
  result (fetchWithRetry Scenario.alwaysDown Scenario.someUrl noOptions 3 0)
    = Rejected (NetworkError "last").
Proof.
  split; [intros i Hi; simpl in Hi; lia|]. split; [reflexivity|].
  split; reflexivity.
Qed.

(** Without a single attempt ([retries <= 0]) the loop body never runs and
    the promise is fulfilled with [undefined]. *)
Lemma fetchWithRetry_no_attempt (net : network) (url : Url)
    (options : RequestInit) (retries t : Z) :
  retries <= 0 ->
  fetchWithRetry net url options retries t = mkRun t (Fulfilled JUndefined) [].
Proof.
  intros H. unfold fetchWithRetry. by replace (Z.to_nat retries) with 0%nat by lia.
Qed.

(** C5. [fetchWithRetry] makes at most [retries] requests; the wait after
    the failed attempt [i] (counted from 0) is [400 * (i + 1)] ms, one wait
    between every two consecutive requests; and when the first two attempts
    fail (the network fails or [response.ok] is false) and the third is
    answered with an ok response whose body is JSON, the promise is
    fulfilled with that payload, after waits of 400 ms and 800 ms. *)
Theorem fetchWithRetry_backoff (net : network) (url : Url)
    (options : RequestInit) (retries t : Z) :
  let r := fetchWithRetry net url options retries t in
  let sent := (t, EvFetch url (mkInit (init_headers options) (Some "no-store"))) in
  (length (requestsOf (effects r)) <= Z.to_nat retries)%nat /\
  timeoutsOf (effects r) =
    (fun i => 400 * (Z.of_nat i + 1)) <$> seq 0 (length (requestsOf (effects r)) - 1) /\
  ((match answer (net url 0%nat) with
    | NetworkFailure _ => True
    | Response ok _ _ _ => ok = false
    end) ->
   (match answer (net url 1%nat) with
    | NetworkFailure _ => True
    | Response ok _ _ _ => ok = false
    end) ->
   forall status statusText v,
     answer (net url 2%nat) = Response true status statusText (Fulfilled v) ->
     let t1 := t + latency (net url 0%nat) in
     let t2 := t1 + 400 + latency (net url 1%nat) in
     fetchWithRetry net url options 3 t =
       mkRun (t2 + 800 + latency (net url 2%nat)) (Fulfilled v)
             [(t, snd sent); (t1, EvTimeout 400);
              (t1 + 400, snd sent); (t2, EvTimeout 800);
              (t2 + 800, snd sent)]).
Proof.
  cbv zeta. split; [apply fetchLoop_requests_le|]. split.
  - unfold fetchWithRetry.
    destruct (Z_le_gt_dec retries 0) as [H|H].
    + by replace (Z.to_nat retries) with 0%nat by lia.
    + rewrite (fetchLoop_timeouts net url options retries) by lia.
      apply list_fmap_ext. intros ? k ?. lia.
  - intros F0 F1 status statusText v F2.
    assert (exists e0, attemptOutcome (net url 0%nat) = Rejected e0) as [e0 H0].
    { unfold attemptOutcome.
      destruct (answer (net url 0%nat)) as [e|ok ? ? ?]; [by eexists|].
      subst ok. by eexists. }
    assert (exists e1, attemptOutcome (net url 1%nat) = Rejected e1) as [e1 H1].
    { unfold attemptOutcome.
      destruct (answer (net url 1%nat)) as [e|ok ? ? ?]; [by eexists|].
      subst ok. by eexists. }
    assert (attemptOutcome (net url 2%nat) = Fulfilled v) as H2.
    { unfold attemptOutcome. by rewrite F2. }
    unfold fetchWithRetry.
    change (Z.to_nat 3) with 3%nat.
    rewrite (fetchLoop_retry net url options 3 _ 0 t e0 H0) by lia. cbv zeta.
    rewrite (fetchLoop_retry net url options 3 _ (0 + 1) _ e1 H1) by lia. cbv zeta.
    rewrite (fetchLoop_fulfilled net url options 3 _ (0 + 1 + 1) _ v H2).
    unfold during. simpl. repeat f_equal; lia.
Qed.

Lemma fetchWithRetry_backoff_witness :
  fetchWithRetry Scenario.thirdTimeLucky Scenario.someUrl noOptions 3 0 =
    mkRun 1300 (Fulfilled (JObject (Scenario.artifact 7)))
      [(0, EvFetch Scenario.someUrl (mkInit [] (Some "no-store")));
       (30, EvTimeout 400);
       (430, EvFetch Scenario.someUrl (mkInit [] (Some "no-store")));
       (450, EvTimeout 800);
       (1250, EvFetch Scenario.someUrl (mkInit [] (Some "no-store")))].
Proof.
  pose proof (fetchWithRetry_backoff Scenario.thirdTimeLucky Scenario.someUrl
                noOptions 3 0) as H.
  cbv zeta in H. destruct H as (_ & _ & H).
  exact (H I eq_refl 200 "OK" (JObject (Scenario.artifact 7)) eq_refl).
Defined.

Example third_time_lucky :
  fetchWithRetry Scenario.thirdTimeLucky Scenario.someUrl noOptions 3 0 =
    mkRun 1300 (Fulfilled (JObject (Scenario.artifact 7)))
      [(0, EvFetch Scenario.someUrl (mkInit [] (Some "no-store")));
       (30, EvTimeout 400);
       (430, EvFetch Scenario.someUrl (mkInit [] (Some "no-store")));
       (450, EvTimeout 800);
       (1250, EvFetch Scenario.someUrl (mkInit [] (Some "no-store")))].
Proof. reflexivity. Qed.

(* ===================================================================== *)
(** * Properties of the rate limiter                                      *)
(* ===================================================================== *)

Section RateLimiter.
Implicit Types (s : EventLoop) (q : list (Z * mbCall)).

Lemma ordered_cons x q :
  ordered (x :: q) = true ->
  ordered q = true /\ Forall (fun y => fst x <= fst y) q.
Proof.
  revert x. induction q as [|y q IH]; intros x H; [by split|].
  simpl in H. apply andb_true_iff in H as [Hxy Hq].
  apply Z.leb_le in Hxy. split; [done|].
  constructor; [done|].
  destruct (IH y Hq) as [_ Hall].
  eapply Forall_impl; [exact Hall|]. simpl. intros; lia.
Qed.

(** [setTimeout] puts a timer behind those due no later than it and
    before those due later. *)
Lemma setTimeout_split x q :
  ordered q = true ->
  exists q1 q2,
    setTimeout x q = q1 ++ x :: q2 /\ q = q1 ++ q2 /\
    Forall (fun y => fst y <= fst x) q1 /\
    Forall (fun y => fst x < fst y) q2.
Proof.
  induction q as [|y q IH]; intros Hq.
  - exists [], []. split; [done|]. split; [done|]. by split.
  - destruct (ordered_cons _ _ Hq) as [Hq' Hy]. simpl.
    destruct (Z.ltb_spec (fst x) (fst y)) as [Hlt|Hge].
    + exists [], (y :: q). split; [done|]. split; [done|].
      split; [constructor|]. constructor; [done|].
      eapply Forall_impl; [exact Hy|]. simpl. intros; lia.
    + destruct (IH Hq') as (q1 & q2 & Heq & Hq12 & H1 & H2).
      exists (y :: q1), q2. rewrite Heq. split; [done|].
      split; [by rewrite Hq12 at 1|]. split; [by constructor | done].
Qed.

Lemma fireUntil_idle n t s :
  match timers s with (due, _) :: _ => t < due | [] => True end ->
  fireUntil n t s = s.
Proof.
  destruct n as [|n]; [done|]. simpl.
  destruct (timers s) as [|[due who] q]; [done|]. intros H.
  destruct (Z.leb_spec due t); [lia | done].
Qed.

(** Time passing until [due] resumes the caller parked until [due] after
    every caller parked before it. *)
Lemma fireUntil_through due who q2 q1 : forall n s,
  timers s = q1 ++ (due, who) :: q2 ->
  Forall (fun y => fst y <= due) q1 ->
  Forall (fun y => due < fst y) q2 ->
  now s <= due -> (length q1 < n)%nat ->
  let s' := fireUntil n due s in
  now s' = due /\ lastMusicBrainzRequest s' = due /\ timers s' = q2 /\
  exists log, admitted s' = admitted s ++ log ++ [(who, due)].
Proof.
  induction q1 as [|[d w] q1 IH]; intros n s Hq H1 H2 Hnow Hn;
    (destruct n as [|n]; [simpl in Hn; lia|]); cbv zeta; simpl fireUntil;
    rewrite Hq; simpl.
  - rewrite Z.leb_refl. rewrite fireUntil_idle.
    + unfold fire. rewrite Hq. simpl. rewrite Z.max_r by lia.
      split; [done|]. split; [done|]. split; [done|]. by exists [].
    + unfold fire. rewrite Hq. simpl.
      destruct q2 as [|[d' w'] q2]; [done|]. by inversion H2.
  - inversion H1 as [|? ? Hd H1']; subst. simpl in Hd.
    destruct (Z.leb_spec d due); [|lia].
    destruct (IH n (fire s)) as (? & ? & ? & log & Hlog).
    + unfold fire. by rewrite Hq.
    + done.
    + done.
    + unfold fire. rewrite Hq. simpl. lia.
    + simpl in Hn. lia.
    + split; [done|]. split; [done|]. split; [done|].
      exists ((w, Z.max (now s) d) :: log). rewrite Hlog.
      unfold fire. rewrite Hq. simpl. by rewrite <- app_assoc.
Qed.

(** A caller is never admitted less than a second after the admission
    last recorded at the time of its call. *)
Lemma admissionTime_after_last s :
  lastMusicBrainzRequest s + MUSICBRAINZ_RATE_LIMIT <= admissionTime s.
Proof.
  unfold admissionTime, rateLimitDelay, MUSICBRAINZ_RATE_LIMIT.
  destruct (Z.ltb_spec (now s - lastMusicBrainzRequest s) 1000); lia.
Qed.

(** A caller that finds another one parked, or just admitted, is given
    the same delay as the next caller of the same instant. *)
Lemma rateLimit_next_two_admitted_together who who' s :
  let s1 := rateLimitMusicBrainz who s in
  let s2 := rateLimitMusicBrainz who' s1 in
  admissionTime s2 = admissionTime s1 /\ timers s2 <> [].
Proof.
  intros s1. assert (exists ms, rateLimitDelay s1 = Some ms) as [ms Hms].
  { unfold s1, rateLimitMusicBrainz, rateLimitDelay, MUSICBRAINZ_RATE_LIMIT.
    destruct (Z.ltb_spec (now s - lastMusicBrainzRequest s) 1000) as [H|H]; simpl.
    - destruct (Z.ltb_spec (now s - lastMusicBrainzRequest s) 1000); [eauto | lia].
    - destruct (Z.ltb_spec (now s - now s) 1000); [eauto | lia]. }
  clearbody s1. cbv zeta. unfold rateLimitMusicBrainz. rewrite Hms.
  split; [done|]. simpl.
  destruct (timers s1) as [|y q]; simpl; [done|].
  by destruct (_ <? _).
Qed.

Lemma head_fetchTimes_during {A} wait (r : run A) :
  fetchTimes wait = [] ->
  head (fetchTimes (effects (during wait r))) = head (fetchTimes (effects r)).
Proof.
  intros H. unfold during, fetchTimes in *. simpl. by rewrite omap_app, H.
Qed.

Lemma head_fetchTimes_fetchWithRetry {A} net url options t
    (k : payload -> Z -> run A) :
  head (fetchTimes (effects (andThen (fetchWithRetry net url options 3 t) k)))
    = Some t.
Proof.
  unfold andThen, fetchWithRetry. change (Z.to_nat 3) with 3%nat.
  simpl fetchLoop.
  destruct (attemptOutcome (net url (Z.to_nat 0))); [done|].
  simpl. destruct (attemptOutcome (net url (Z.to_nat (0 + 1)))); [done|].
  simpl. by destruct (attemptOutcome (net url (Z.to_nat (0 + 1 + 1)))).
Qed.

Lemma viaRateLimit_first_request {A} who s net url options
    (k : payload -> Z -> run A) :
  head (fetchTimes (effects (snd (viaRateLimit who s (fun t =>
          andThen (fetchWithRetry net url options 3 t) k)))))
    = Some (admissionTime s).
Proof.
  unfold viaRateLimit. cbn [snd].
  rewrite head_fetchTimes_during; [apply head_fetchTimes_fetchWithRetry|].
  by destruct (rateLimitDelay s).
Qed.
End RateLimiter.

(** C6. One invocation of the rate limiter, [elapsed] ms after the last
    recorded admission. If [elapsed] is 1000 or more there is no delay: the
    caller is admitted at once and the time of the call is recorded. If it
    is less, the caller is suspended on a timer of exactly [1000 - elapsed]
    ms, the recorded time stays as it was meanwhile, and when the timer
    fires the time of that moment is recorded and the caller admitted. In
    both cases the request of the caller leaves at the recorded time. *)
Theorem rateLimitMusicBrainz_admission (who : mbCall) (s : EventLoop) :
  ordered (timers s) = true ->
  let elapsed := now s - lastMusicBrainzRequest s in
  let entered := rateLimitMusicBrainz who s in
  (MUSICBRAINZ_RATE_LIMIT <= elapsed ->
     rateLimitDelay s = None /\
     admissionTime s = now s /\
     entered = mkLoop (now s) (now s) (timers s) (admitted s ++ [(who, now s)]))
  /\
  (elapsed < MUSICBRAINZ_RATE_LIMIT ->
     rateLimitDelay s = Some (MUSICBRAINZ_RATE_LIMIT - elapsed) /\
     admissionTime s = now s + (MUSICBRAINZ_RATE_LIMIT - elapsed) /\
     lastMusicBrainzRequest entered = lastMusicBrainzRequest s /\
     admitted entered = admitted s /\
     let resumed := advance (admissionTime s) entered in
     now resumed = admissionTime s /\
     lastMusicBrainzRequest resumed = admissionTime s /\
     exists log, admitted resumed = admitted s ++ log ++ [(who, admissionTime s)])
  /\
  (forall net query limit offset,
     head (fetchTimes (effects (snd
       (searchMusicBrainzArtists net query limit offset s)))) = Some (admissionTime s) /\
     head (fetchTimes (effects (snd
       (searchMusicBrainzRecordings net query limit offset s)))) = Some (admissionTime s) /\
     head (fetchTimes (effects (snd
       (searchMusicBrainzInstruments net query limit offset s)))) = Some (admissionTime s))
  /\
  (forall net artistId includes,
     head (fetchTimes (effects (snd
       (getMusicBrainzArtistDetails net artistId includes s)))) = Some (admissionTime s)).
Proof.
  intros Hq elapsed entered. subst elapsed entered.
  unfold MUSICBRAINZ_RATE_LIMIT.
  split; [|split; [|split]].
  - intros H. unfold admissionTime, rateLimitMusicBrainz, rateLimitDelay,
      MUSICBRAINZ_RATE_LIMIT.
    destruct (Z.ltb_spec (now s - lastMusicBrainzRequest s) 1000); [lia | done].
  - intros H.
    assert (rateLimitDelay s = Some (1000 - (now s - lastMusicBrainzRequest s)))
      as Hdelay.
    { unfold rateLimitDelay, MUSICBRAINZ_RATE_LIMIT.
      destruct (Z.ltb_spec (now s - lastMusicBrainzRequest s) 1000); [done | lia]. }
    unfold admissionTime, rateLimitMusicBrainz. rewrite Hdelay.
    split; [done|]. split; [done|]. split; [done|]. split; [done|].
    set (due := now s + (1000 - (now s - lastMusicBrainzRequest s))).
    destruct (setTimeout_split (due, who) (timers s) Hq)
      as (q1 & q2 & Hset & Hold & H1 & H2).
    unfold advance. cbn [timers].
    destruct (fireUntil_through due who q2 q1
                (length (setTimeout (due, who) (timers s)))
                (mkLoop (now s) (lastMusicBrainzRequest s)
                        (setTimeout (due, who) (timers s)) (admitted s)))
      as (Hnow & Hlast & _ & log & Hlog);
      [done | done | done | simpl; lia | rewrite Hset, length_app; simpl; lia |].
    cbn [now lastMusicBrainzRequest admitted]. rewrite Hnow, Hlast.
    split; [lia|]. split; [done|]. by exists log.
  - intros net query limit offset.
    unfold searchMusicBrainzArtists, searchMusicBrainzRecordings,
      searchMusicBrainzInstruments.
    by rewrite !viaRateLimit_first_request.
  - intros net artistId includes. unfold getMusicBrainzArtistDetails.
    apply viaRateLimit_first_request.
Qed.

Lemma rateLimitMusicBrainz_admission_witness :
  rateLimitDelay (mkLoop 5300 5000 [(5400, ArtistSearch)] []) = Some 700 /\
  lastMusicBrainzRequest
    (advance 6000 (rateLimitMusicBrainz RecordingSearch
                     (mkLoop 5300 5000 [(5400, ArtistSearch)] []))) = 6000.
Proof.
  destruct (rateLimitMusicBrainz_admission RecordingSearch
              (mkLoop 5300 5000 [(5400, ArtistSearch)] []) eq_refl)
    as (_ & Hsuspended & _).
  destruct (Hsuspended ltac:(reflexivity)) as (Hdelay & _ & _ & _ & _ & Hlast & _).
  split; [exact Hdelay | exact Hlast].
Defined.

(** C3. Three calls entering the limiter at the same instant, as the music
    branch of the aggregator issues them, are not admitted a second apart:
    the second and the third are admitted at the same instant. *)
Theorem rateLimit_concurrent_calls_admitted_together :
  let concurrent := [(5000, ArtistSearch); (5000, RecordingSearch);
                     (5000, InstrumentSearch)] in
  admissions concurrent (startOfPage 0)
    = [(ArtistSearch, 5000); (RecordingSearch, 6000); (InstrumentSearch, 6000)] /\
  spaced MUSICBRAINZ_RATE_LIMIT (admissions concurrent (startOfPage 0)) = false /\
  admitted (fst (searchAllSources Scenario.musicUp "luba" Scenario.musicOnly
                                  (startOfPage 100000)))
    = [(ArtistSearch, 100000); (RecordingSearch, 101000);
       (InstrumentSearch, 101000)] /\
  fetchTimes (effects (snd (searchAllSources Scenario.musicUp "luba"
                              Scenario.musicOnly (startOfPage 100000))))
    = [100000; 101000; 101000].
Proof. by vm_compute. Qed.

(** Whatever the state of the page, the recording search and the
    instrument search of one aggregator call send their first request at
    the same instant. *)
Lemma musicBranch_requests_together (net : network) (query : string)
    (limit limit' offset offset' : Z) (s : EventLoop) :
  let s1 := rateLimitMusicBrainz ArtistSearch s in
  let s2 := rateLimitMusicBrainz RecordingSearch s1 in
  head (fetchTimes (effects (snd
    (searchMusicBrainzRecordings net query limit offset s1)))) =
  head (fetchTimes (effects (snd
    (searchMusicBrainzInstruments net query limit' offset' s2)))).
Proof.
  cbv zeta. unfold searchMusicBrainzRecordings, searchMusicBrainzInstruments.
  rewrite !viaRateLimit_first_request. f_equal. symmetry.
  apply (rateLimit_next_two_admitted_together ArtistSearch RecordingSearch s).
Qed.

(* ===================================================================== *)
(** * Properties of the adapters and of the aggregator                    *)
(* ===================================================================== *)

Section Promises.
Context {A B : Type}.

Lemma result_andThen (r : run A) (k : A -> Z -> run B) :
  result (andThen r k) =
    match result r with
    | Fulfilled v => result (k v (settled r))
    | Rejected e => Rejected e
    end.
Proof. unfold andThen. by destruct (result r). Qed.

Lemma effects_andThen (r : run A) (k : A -> Z -> run B) :
  effects (andThen r k) =
    effects r ++ match result r with
                 | Fulfilled v => effects (k v (settled r))
                 | Rejected e => []
                 end.
Proof. unfold andThen. destruct (result r); simpl; by rewrite ?app_nil_r. Qed.

Lemma result_promiseAll2 (r1 : run A) (r2 : run B) :
  match result (promiseAll2 r1 r2) with
  | Fulfilled (a, b) => result r1 = Fulfilled a /\ result r2 = Fulfilled b
  | Rejected e => result r1 = Rejected e \/ result r2 = Rejected e
  end.
Proof.
  unfold promiseAll2.
  destruct (result r1), (result r2); simpl; auto.
  destruct (_ <? _); simpl; auto.
Qed.

Lemma promiseAll2_fulfilled (r1 : run A) (r2 : run B) a b :
  result r1 = Fulfilled a -> result r2 = Fulfilled b ->
  promiseAll2 r1 r2 =
    mkRun (Z.max (settled r1) (settled r2)) (Fulfilled (a, b))
          (effects r1 ++ effects r2).
Proof. intros H1 H2. unfold promiseAll2. by rewrite H1, H2. Qed.

Lemma promiseAll2_rejected (r1 : run A) (r2 : run B) :
  isRejected (result r1) || isRejected (result r2) = true ->
  exists e, result (promiseAll2 r1 r2) = Rejected e.
Proof.
  unfold promiseAll2.
  destruct (result r1), (result r2); simpl; try done; eauto.
  destruct (_ <? _); simpl; eauto.
Qed.

Lemma effects_promiseAll2 (r1 : run A) (r2 : run B) :
  effects (promiseAll2 r1 r2) = effects r1 ++ effects r2.
Proof.
  unfold promiseAll2.
  destruct (result r1), (result r2); simpl; try done.
  by destruct (_ <? _).
Qed.
End Promises.

Section Adapters.
Variable net : network.

(** How a call settles does not depend on when it is made. *)
Lemma fetchLoop_result_any_time url options retries n i t t' :
  result (fetchLoop net url options retries n i t) =
  result (fetchLoop net url options retries n i t').
Proof.
  revert i t t'. induction n as [|n IH]; intros i t t'; simpl; [done|].
  destruct (attemptOutcome _); [done|].
  destruct (_ =? _); [done|]. simpl. apply IH.
Qed.

Lemma searchMetArtifacts_any_time query hasImages t t' :
  result (searchMetArtifacts net query hasImages t) =
  result (searchMetArtifacts net query hasImages t').
Proof.
  unfold searchMetArtifacts, fetchWithRetry. rewrite !result_andThen.
  rewrite (fetchLoop_result_any_time _ _ _ _ _ t t').
  by destruct (result _).
Qed.

Lemma searchClevelandArtifacts_any_time query limit t t' :
  result (searchClevelandArtifacts net query limit t) =
  result (searchClevelandArtifacts net query limit t').
Proof.
  unfold searchClevelandArtifacts, fetchWithRetry. rewrite !result_andThen.
  rewrite (fetchLoop_result_any_time _ _ _ _ _ t t').
  by destruct (result _).
Qed.

Lemma viaRateLimit_any_state {A} who who' s s' url options
    (k : payload -> Z -> run A) :
  (forall v t t', result (k v t) = result (k v t')) ->
  result (snd (viaRateLimit who s (fun t =>
    andThen (fetchWithRetry net url options 3 t) k))) =
  result (snd (viaRateLimit who' s' (fun t =>
    andThen (fetchWithRetry net url options 3 t) k))).
Proof.
  intros Hk. unfold viaRateLimit, during, fetchWithRetry. cbn [snd result].
  rewrite !result_andThen.
  rewrite (fetchLoop_result_any_time _ _ _ _ _
             (admissionTime s) (admissionTime s')).
  destruct (result _); [apply Hk | done].
Qed.

Lemma searchMusicBrainzArtists_any_state query limit offset s s' :
  result (snd (searchMusicBrainzArtists net query limit offset s)) =
  result (snd (searchMusicBrainzArtists net query limit offset s')).
Proof. by apply viaRateLimit_any_state. Qed.

Lemma searchMusicBrainzRecordings_any_state query limit offset s s' :
  result (snd (searchMusicBrainzRecordings net query limit offset s)) =
  result (snd (searchMusicBrainzRecordings net query limit offset s')).
Proof. by apply viaRateLimit_any_state. Qed.

Lemma searchMusicBrainzInstruments_any_state query limit offset s s' :
  result (snd (searchMusicBrainzInstruments net query limit offset s)) =
  result (snd (searchMusicBrainzInstruments net query limit offset s')).
Proof. by apply viaRateLimit_any_state. Qed.

(** Every request of a [fetchWithRetry] call is for its URL, and there is
    at least one when attempts are allowed. *)
Lemma fetchLoop_requests url options retries n i t :
  requestsOf (effects (fetchLoop net url options retries n i t)) =
    replicate (length (requestsOf (effects
      (fetchLoop net url options retries n i t)))) url.
Proof.
  revert i t. induction n as [|n IH]; intros i t; simpl; [done|].
  destruct (attemptOutcome _); [done|].
  destruct (_ =? _); [done|]. simpl. f_equal. apply IH.
Qed.

Lemma fetchWithRetry_requests url options t :
  exists n, requestsOf (effects (fetchWithRetry net url options 3 t)) =
              replicate (S n) url.
Proof.
  unfold fetchWithRetry. rewrite fetchLoop_requests.
  change (Z.to_nat 3) with 3%nat.
  pose proof (fetchLoop_requests_pos net url options 3 2 0 t) as H.
  destruct (length _) as [|n]; [lia | by exists n].
Qed.

(** [getMetObjects] is never rejected, and asks for the objects of its
    argument and for nothing else. *)
Lemma getMetObjects_fulfilled objectIds t :
  exists metObjects, result (getMetObjects net objectIds t) = Fulfilled metObjects.
Proof. unfold getMetObjects. rewrite result_andThen. simpl. eauto. Qed.

Lemma getMetObjects_requests objectIds t u :
  u ∈ requestsOf (effects (getMetObjects net objectIds t)) <->
  exists objectId, objectId ∈ objectIds /\
    u = mkUrl API_CONFIG.met_object (Some (PNumber objectId)) [].
Proof.
  unfold getMetObjects. rewrite effects_andThen. simpl. rewrite app_nil_r.
  induction objectIds as [|x ids IH]; simpl.
  - split; [by intros ?%elem_of_nil | by intros (? & ?%elem_of_nil & _)].
  - rewrite requestsOf_app, elem_of_app, IH. unfold getMetObject.
    destruct (fetchWithRetry_requests
                (mkUrl API_CONFIG.met_object (Some (PNumber x)) []) noOptions t)
      as [n ->].
    split.
    + intros [Hu|(y & Hy & ->)].
      * apply elem_of_replicate in Hu as [-> _]. exists x. split; [left|done].
      * exists y. split; [by right | done].
    + intros (y & [->|Hy]%elem_of_cons & ->).
      * left. apply elem_of_replicate. split; [done | lia].
      * right. eauto.
Qed.
End Adapters.

Section Aggregator.
Variables (net : network) (query : string).

Lemma artCallsFail_any_time t t' :
  artCallsFail net query t = artCallsFail net query t'.
Proof.
  unfold artCallsFail.
  by rewrite (searchMetArtifacts_any_time net query true t t'),
             (searchClevelandArtifacts_any_time net query 100 t t').
Qed.

Lemma musicCallsFail_any_state s s' :
  musicCallsFail net query s = musicCallsFail net query s'.
Proof.
  unfold musicCallsFail.
  by rewrite (searchMusicBrainzArtists_any_state net query 15 0 s s'),
             (searchMusicBrainzRecordings_any_state net query 15 0 s s'),
             (searchMusicBrainzInstruments_any_state net query 10 0 s s').
Qed.

(** The art branch when both searches are fulfilled. *)
Lemma artBranch_fulfilled maxResults results t metIds clevelandData :
  result (searchMetArtifacts net query true t) = Fulfilled metIds ->
  result (searchClevelandArtifacts net query 100 t) = Fulfilled clevelandData ->
  exists t1 metObjects,
    result (getMetObjects net (slice0 10 metIds) t1) = Fulfilled metObjects /\
    result (artBranch net query maxResults results t) =
      Fulfilled (mkResults (slice0 maxResults (clevelandData ++ metObjects))
                           (recordings results) (artists results)
                           (instruments results)) /\
    effects (artBranch net query maxResults results t) =
      effects (searchMetArtifacts net query true t) ++
      effects (searchClevelandArtifacts net query 100 t) ++
      effects (getMetObjects net (slice0 10 metIds) t1).
Proof.
  intros Hmet Hcleveland. unfold artBranch.
  rewrite (promiseAll2_fulfilled _ _ _ _ Hmet Hcleveland).
  set (t1 := Z.max _ _).
  destruct (getMetObjects_fulfilled net (slice0 10 metIds) t1)
    as [metObjects Hobjects].
  exists t1, metObjects. split; [done|].
  set (inner := andThen _ _).
  assert (result inner =
            Fulfilled (mkResults (slice0 maxResults (clevelandData ++ metObjects))
                                 (recordings results) (artists results)
                                 (instruments results)) /\
          effects inner =
            effects (searchMetArtifacts net query true t) ++
            effects (searchClevelandArtifacts net query 100 t) ++
            effects (getMetObjects net (slice0 10 metIds) t1)) as [Hres Heff].
  { unfold inner. rewrite result_andThen, effects_andThen.
    cbn [result settled effects].
    rewrite result_andThen, effects_andThen, Hobjects. cbn [result effects].
    by rewrite app_nil_r, <- app_assoc. }
  unfold tryCatch. by rewrite Hres.
Qed.

(** The art branch when one of the searches is rejected: the error is
    logged and [results] is left as it was. *)
Lemma artBranch_rejected maxResults results t :
  artCallsFail net query t = true ->
  result (artBranch net query maxResults results t) = Fulfilled results /\
  logged "Art search failed:" (effects (artBranch net query maxResults results t)).
Proof.
  intros Hfail. unfold artBranch.
  destruct (promiseAll2_rejected _ _ Hfail) as [e He].
  unfold tryCatch. rewrite !result_andThen, He. unfold during. cbn [result effects].
  split; [done|]. eexists _, e. apply elem_of_app. right. by left.
Qed.

Lemma artBranch_settles maxResults results t :
  exists r, result (artBranch net query maxResults results t) = Fulfilled r.
Proof.
  destruct (artCallsFail net query t) eqn:Hfail.
  - exists results. by apply artBranch_rejected.
  - unfold artCallsFail, isRejected in Hfail.
    destruct (result (searchMetArtifacts net query true t)) as [ids|] eqn:H1;
      [|done].
    destruct (result (searchClevelandArtifacts net query 100 t)) as [cl|] eqn:H2;
      [|done].
    destruct (artBranch_fulfilled maxResults results t ids cl H1 H2)
      as (? & ? & _ & ? & _). eauto.
Qed.

(** The music branch, likewise. *)
Lemma musicBranch_results results s :
  let done := snd (musicBranch net query results s) in
  match result (snd (searchMusicBrainzArtists net query 15 0 s)),
        result (snd (searchMusicBrainzRecordings net query 15 0 s)),
        result (snd (searchMusicBrainzInstruments net query 10 0 s)) with
  | Fulfilled artistsData, Fulfilled recordingsData, Fulfilled instrumentsData =>
      result done =
        Fulfilled (mkResults (artifacts results)
                             (recordings_recordings recordingsData)
                             (artists_artists artistsData)
                             (instruments_instruments instrumentsData))
  | _, _, _ =>
      result done = Fulfilled results /\
      logged "Music search failed:" (effects done)
  end.
Proof.
  cbv zeta. unfold musicBranch.
  destruct (searchMusicBrainzArtists net query 15 0 s) as [s1 ra] eqn:Ha.
  destruct (searchMusicBrainzRecordings net query 15 0 s1) as [s2 rr] eqn:Hr.
  destruct (searchMusicBrainzInstruments net query 10 0 s2) as [s3 ri] eqn:Hi.
  rewrite (searchMusicBrainzRecordings_any_state net query 15 0 s s1), Hr.
  rewrite (searchMusicBrainzInstruments_any_state net query 10 0 s s2), Hi.
  cbn [snd].
  assert (forall (es : list (Z * event)) t e,
            logged "Music search failed:"
              (es ++ [(t, EvConsoleError "Music search failed:" e)])) as Hlog.
  { intros es t e. exists t, e. apply elem_of_app. right. by left. }
  destruct (result ra) eqn:Ea, (result rr) eqn:Er, (result ri) eqn:Ei;
    unfold promiseAll3, promiseAll2; rewrite ?Ea, ?Er;
    repeat (try destruct (_ <? _); cbn [result settled effects];
            rewrite ?Ea, ?Er, ?Ei);
    unfold tryCatch, andThen, during; cbn [result settled effects];
    try done; (split; [done | apply Hlog]).
Qed.

Lemma musicBranch_settles results s :
  exists r, result (snd (musicBranch net query results s)) = Fulfilled r.
Proof.
  pose proof (musicBranch_results results s) as H. cbv zeta in H.
  destruct (result (snd (searchMusicBrainzArtists net query 15 0 s))),
           (result (snd (searchMusicBrainzRecordings net query 15 0 s))),
           (result (snd (searchMusicBrainzInstruments net query 10 0 s)));
    first [by eauto | by destruct H as [H' _]; eauto].
Qed.

Lemma musicBranch_rejected results s :
  musicCallsFail net query s = true ->
  result (snd (musicBranch net query results s)) = Fulfilled results /\
  logged "Music search failed:" (effects (snd (musicBranch net query results s))).
Proof.
  intros Hfail. pose proof (musicBranch_results results s) as H. cbv zeta in H.
  unfold musicCallsFail, isRejected in Hfail.
  destruct (result (snd (searchMusicBrainzArtists net query 15 0 s))),
           (result (snd (searchMusicBrainzRecordings net query 15 0 s))),
           (result (snd (searchMusicBrainzInstruments net query 10 0 s)));
    done.
Qed.

Lemma musicBranch_keeps_artifacts results s r :
  result (snd (musicBranch net query results s)) = Fulfilled r ->
  artifacts r = artifacts results.
Proof.
  intros Hr. pose proof (musicBranch_results results s) as H. cbv zeta in H.
  rewrite Hr in H.
  destruct (result (snd (searchMusicBrainzArtists net query 15 0 s))),
           (result (snd (searchMusicBrainzRecordings net query 15 0 s))),
           (result (snd (searchMusicBrainzInstruments net query 10 0 s)));
    first [by inversion H | by destruct H as [H' _]; inversion H'].
Qed.
End Aggregator.

Section SearchAllSources.
Variables (net : network) (query : string).

Lemma artBranch_keeps_music maxResults results t r :
  result (artBranch net query maxResults results t) = Fulfilled r ->
  recordings r = recordings results /\ artists r = artists results /\
  instruments r = instruments results.
Proof.
  intros Hr. destruct (artCallsFail net query t) eqn:Hfail.
  - destruct (artBranch_rejected net query maxResults results t Hfail) as [H _].
    rewrite H in Hr. by inversion Hr.
  - unfold artCallsFail, isRejected in Hfail.
    destruct (result (searchMetArtifacts net query true t)) as [ids|] eqn:H1;
      [|done].
    destruct (result (searchClevelandArtifacts net query 100 t)) as [cl|] eqn:H2;
      [|done].
    destruct (artBranch_fulfilled net query maxResults results t ids cl H1 H2)
      as (? & ? & _ & H & _).
    rewrite H in Hr. by inversion Hr.
Qed.

(** The aggregator is the art branch, if asked for, followed by the music
    branch, if asked for, started when the art branch is over. *)
Lemma searchAllSources_run options s :
  let results := mkResults [] [] [] [] in
  let art :=
    if default true (opt_includeArt options)
    then artBranch net query (default 50 (opt_maxResults options)) results (now s)
    else mkRun (now s) (Fulfilled results) [] in
  exists results1,
    result art = Fulfilled results1 /\
    snd (searchAllSources net query options s) =
      if default true (opt_includeMusic options)
      then during (effects art)
             (snd (musicBranch net query results1 (advance (settled art) s)))
      else art.
Proof.
  intros results art.
  assert (exists results1, result art = Fulfilled results1) as [results1 Hart].
  { unfold art. destruct (default true (opt_includeArt options)); [|by eexists].
    apply artBranch_settles. }
  exists results1. split; [done|].
  unfold searchAllSources. fold results. fold art. rewrite Hart.
  destruct (default true (opt_includeMusic options)); [|done].
  by destruct (musicBranch net query results1 (advance (settled art) s)).
Qed.
End SearchAllSources.

(** C8. [searchAllSources] never throws: its promise is always fulfilled
    with the record of the four sequences. A branch that is not asked for,
    or one of whose searches is rejected, leaves its sequences empty, and
    the failure of a branch is written to the console. *)
Theorem searchAllSources_never_throws (net : network) (query : string)
    (options : SearchOptions) (s : EventLoop) :
  let includeArt := default true (opt_includeArt options) in
  let includeMusic := default true (opt_includeMusic options) in
  let done := snd (searchAllSources net query options s) in
  exists r : AggregatedResults,
    result done = Fulfilled r /\
    (includeArt = false \/ artCallsFail net query (now s) = true ->
       artifacts r = []) /\
    (includeMusic = false \/ musicCallsFail net query s = true ->
       recordings r = [] /\ artists r = [] /\ instruments r = []) /\
    (includeArt = true -> artCallsFail net query (now s) = true ->
       logged "Art search failed:" (effects done)) /\
    (includeMusic = true -> musicCallsFail net query s = true ->
       logged "Music search failed:" (effects done)).
Proof.
  intros includeArt includeMusic done.
  destruct (searchAllSources_run net query options s) as (r1 & Hart & Hrun).
  fold includeArt includeMusic done in Hart, Hrun.
  set (art := if includeArt then _ else _) in Hart, Hrun.
  assert (recordings r1 = [] /\ artists r1 = [] /\ instruments r1 = []) as Hmusic1.
  { unfold art in Hart. destruct includeArt.
    - by apply artBranch_keeps_music in Hart.
    - by inversion Hart. }
  assert (includeArt = false \/ artCallsFail net query (now s) = true ->
          artifacts r1 = []) as Hart1.
  { unfold art in Hart. intros [Hno|Hfail].
    - rewrite Hno in Hart. by inversion Hart.
    - destruct includeArt; [|by inversion Hart].
      destruct (artBranch_rejected net query (default 50 (opt_maxResults options))
                  (mkResults [] [] [] []) (now s) Hfail) as [H _].
      rewrite H in Hart. by inversion Hart. }
  assert (includeArt = true -> artCallsFail net query (now s) = true ->
          logged "Art search failed:" (effects art)) as Hlog1.
  { unfold art. intros -> Hfail. by apply artBranch_rejected. }
  destruct includeMusic eqn:Hmusic.
  - set (s1 := advance (settled art) s) in Hrun.
    destruct (musicBranch_settles net query r1 s1) as [r Hr].
    exists r. rewrite Hrun. unfold during at 1. cbn [result]. split; [done|].
    split; [|split; [|split]].
    + intros H. rewrite (musicBranch_keeps_artifacts net query r1 s1 r Hr). auto.
    + intros [|Hfail]; [done|].
      rewrite (musicCallsFail_any_state net query s s1) in Hfail.
      destruct (musicBranch_rejected net query r1 s1 Hfail) as [H _].
      rewrite H in Hr. inversion Hr; subst. done.
    + intros Hyes Hfail. destruct (Hlog1 Hyes Hfail) as (t & e & Hin).
      exists t, e. unfold during. cbn [effects]. apply elem_of_app. by left.
    + intros _ Hfail.
      rewrite (musicCallsFail_any_state net query s s1) in Hfail.
      destruct (musicBranch_rejected net query r1 s1 Hfail) as [_ (t & e & Hin)].
      exists t, e. unfold during. cbn [effects]. apply elem_of_app. by right.
  - exists r1. rewrite Hrun. split; [done|]. split; [done|]. split; [done|].
    split; [done|]. done.
Qed.

(** C1. With the Met search down and the Cleveland search answering with
    two records, the aggregator throws nothing, but the two records are
    lost: [artifacts] is empty. *)
Theorem searchAllSources_met_down_loses_cleveland :
  result (searchClevelandArtifacts Scenario.metDown "luba" 100 0)
    = Fulfilled [Scenario.artifact 1; Scenario.artifact 2] /\
  result (searchMetArtifacts Scenario.metDown "luba" true 0)
    = Rejected (NetworkError "Failed to fetch") /\
  result (snd (searchAllSources Scenario.metDown "luba" (Scenario.artOnly 50)
                                (startOfPage 0)))
    = Fulfilled (mkResults [] [] [] []).
Proof. by vm_compute. Qed.

(** Whatever Cleveland answers, a rejected Met search leaves [artifacts]
    empty. *)
Lemma searchAllSources_met_rejected (net : network) (query : string)
    (options : SearchOptions) (s : EventLoop) (e : error) :
  default true (opt_includeArt options) = true ->
  result (searchMetArtifacts net query true (now s)) = Rejected e ->
  exists r, result (snd (searchAllSources net query options s)) = Fulfilled r /\
            artifacts r = [].
Proof.
  intros Hart Hmet.
  destruct (searchAllSources_run net query options s) as (r1 & Hr1 & Hrun).
  rewrite Hart in Hr1, Hrun.
  assert (artCallsFail net query (now s) = true) as Hfail.
  { unfold artCallsFail. by rewrite Hmet. }
  destruct (artBranch_rejected net query (default 50 (opt_maxResults options))
              (mkResults [] [] [] []) (now s) Hfail) as [H _].
  rewrite H in Hr1. inversion Hr1; subst r1. rewrite Hrun.
  destruct (default true (opt_includeMusic options)); [|by eexists].
  destruct (musicBranch_settles net query (mkResults [] [] [] [])
              (advance (settled (artBranch net query
                 (default 50 (opt_maxResults options)) (mkResults [] [] [] [])
                 (now s))) s)) as [r Hr].
  exists r. unfold during. cbn [result]. split; [done|].
  by rewrite (musicBranch_keeps_artifacts _ _ _ _ _ Hr).
Qed.

Section Requests.
Variables (net : network) (query : string).

Lemma search_requests {A} url (field : searchBody -> option (list A)) t u :
  u ∈ requestsOf (effects (andThen (fetchWithRetry net url noOptions 3 t)
                                   (arrayOr field))) ->
  u = url.
Proof.
  rewrite effects_andThen, requestsOf_app.
  destruct (fetchWithRetry_requests net url noOptions t) as [n ->].
  replace (requestsOf _) with (@nil Url) by (by destruct (result _)).
  rewrite app_nil_r. by intros [-> _]%elem_of_replicate.
Qed.

Lemma searchMetArtifacts_requests hasImages t u :
  u ∈ requestsOf (effects (searchMetArtifacts net query hasImages t)) ->
  url_base u = API_CONFIG.met_search.
Proof. by intros ->%search_requests. Qed.

Lemma searchClevelandArtifacts_requests limit t u :
  u ∈ requestsOf (effects (searchClevelandArtifacts net query limit t)) ->
  url_base u = API_CONFIG.cleveland_search.
Proof. by intros ->%search_requests. Qed.
End Requests.

(** C7. [searchAllSources(query, {includeArt: true, includeMusic: false,
    maxResults: 5})] when Cleveland answers with three records and the Met
    with a list of ids: [artifacts] is the three Cleveland records followed
    by the first two Met objects that were fetched and have an image, at
    most five in all; the objects asked for are those of the first ten ids
    and no other; the other three sequences are empty. *)
Theorem searchAllSources_art_only (net : network) (query : string)
    (s : EventLoop) (cleveland : list item) (metIds : list Z) :
  length cleveland = 3%nat ->
  result (searchClevelandArtifacts net query 100 (now s)) = Fulfilled cleveland ->
  result (searchMetArtifacts net query true (now s)) = Fulfilled metIds ->
  let done :=
    snd (searchAllSources net query
           (mkOptions (Some true) (Some false) (Some 5)) s) in
  exists (r : AggregatedResults) (t1 : Z) (metObjects : list item),
    result done = Fulfilled r /\
    result (getMetObjects net (take 10 metIds) t1) = Fulfilled metObjects /\
    artifacts r = cleveland ++ take 2 metObjects /\
    (length (artifacts r) <= 5)%nat /\
    recordings r = [] /\ artists r = [] /\ instruments r = [] /\
    forall u, url_base u = API_CONFIG.met_object ->
      (u ∈ requestsOf (effects done) <->
       exists objectId, objectId ∈ take 10 metIds /\
         u = mkUrl API_CONFIG.met_object (Some (PNumber objectId)) []).
Proof.
  intros Hlen Hcleveland Hmet done.
  destruct (searchAllSources_run net query
              (mkOptions (Some true) (Some false) (Some 5)) s)
    as (r & Hr & Hrun).
  cbn [default from_option id opt_includeArt opt_includeMusic opt_maxResults]
    in Hr, Hrun.
  destruct (artBranch_fulfilled net query 5 (mkResults [] [] [] []) (now s)
              metIds cleveland Hmet Hcleveland)
    as (t1 & metObjects & Hobjects & Hres & Heff).
  change (slice0 10 metIds) with (take 10 metIds) in Hobjects, Heff.
  change (slice0 5 (cleveland ++ metObjects))
    with (take 5 (cleveland ++ metObjects)) in Hres.
  rewrite Hres in Hr. inversion Hr; subst r. clear Hr.
  exists (mkResults (take 5 (cleveland ++ metObjects)) [] [] []), t1, metObjects.
  unfold done. rewrite Hrun, Hres. cbn [artifacts recordings artists instruments].
  split; [done|]. split; [done|]. split.
  { rewrite take_app, Hlen, take_ge by lia. done. }
  split; [rewrite length_take; lia|].
  split; [done|]. split; [done|]. split; [done|].
  intros u Hu. rewrite Heff, !requestsOf_app, !elem_of_app.
  rewrite getMetObjects_requests. split; [|by auto].
  intros [H|[H|H]]; [| |done].
  - apply searchMetArtifacts_requests in H. by rewrite Hu in H.
  - apply searchClevelandArtifacts_requests in H. by rewrite Hu in H.
Qed.

Lemma searchAllSources_art_only_witness :
  exists (r : AggregatedResults) (t1 : Z) (metObjects : list item),
    result (snd (searchAllSources Scenario.bothUp "luba"
                   (mkOptions (Some true) (Some false) (Some 5))
                   (startOfPage 0))) = Fulfilled r /\
    result (getMetObjects Scenario.bothUp (take 10 (seqZ 101 12)) t1)
      = Fulfilled metObjects /\
    artifacts r = (Scenario.artifact <$> [1; 2; 3]) ++ take 2 metObjects /\
    (length (artifacts r) <= 5)%nat /\
    recordings r = [] /\ artists r = [] /\ instruments r = [] /\
    forall u, url_base u = API_CONFIG.met_object ->
      (u ∈ requestsOf (effects (snd (searchAllSources Scenario.bothUp "luba"
                   (mkOptions (Some true) (Some false) (Some 5))
                   (startOfPage 0)))) <->
       exists objectId, objectId ∈ take 10 (seqZ 101 12) /\
         u = mkUrl API_CONFIG.met_object (Some (PNumber objectId)) []).
Proof.
  apply (searchAllSources_art_only Scenario.bothUp "luba" (startOfPage 0)
           (Scenario.artifact <$> [1; 2; 3]) (seqZ 101 12)).
  - reflexivity.
  - vm_compute. reflexivity.
  - vm_compute. reflexivity.
Defined.

Example art_only_five_artifacts :
  result (snd (searchAllSources Scenario.bothUp "luba"
                 (mkOptions (Some true) (Some false) (Some 5)) (startOfPage 0)))
    = Fulfilled (mkResults (Scenario.artifact <$> [1; 2; 3; 101; 102]) [] [] []).
Proof. by vm_compute. Qed.

(* ===================================================================== *)
(** * Properties of the search controller                                 *)
(* ===================================================================== *)

(** A result that arrives when another query has become the current one is
    not displayed, but it is stored. *)
Lemma performSearch_finish_stale (query : string) (options : PerformOptions)
    (results : AggregatedResults) (p : Page) :
  currentSearchQuery p <> query ->
  performSearch_finish query options (Fulfilled results) p =
    mkPage (debounceTimer p) (currentSearchQuery p) results
           (timerCount p) (pending p) (container p) (statusElement p).
Proof.
  intros H. unfold performSearch_finish. cbn [currentSearchQuery].
  by apply String.eqb_neq in H as ->.
Qed.

(** C2. Query "luba" is searched, then query "lubas" while the first
    aggregator call is in flight. When the first call settles, "lubas" is
    the current query: the late result is not displayed, yet it replaces the
    stored results, and [getSearchResults] returns it. *)
Theorem performSearch_stale_result_stored :
  let '(before, after) :=
    overlappingSearches Scenario.bothUp "luba" "lubas" Scenario.searchBar
                        (startOfPage 0) pageLoaded in
  currentSearchQuery before = "lubas" /\
  getSearchResults before = mkResults [] [] [] [] /\
  currentSearchQuery after = "lubas" /\
  container before = [LoadingSkeleton 6] /\
  container after = container before /\
  statusElement after = statusElement before /\
  getSearchResults after =
    mkResults (Scenario.artifact <$> ([1; 2; 3] ++ seqZ 101 10)) [] [] [].
Proof. by vm_compute. Qed.

Section Debounce.
Lemma clearTimeout_lookup (t : option nat) (timers : gmap nat (Z * callback))
    id cb :
  clearTimeout t timers !! id = Some cb -> timers !! id = Some cb /\ t <> Some id.
Proof.
  destruct t as [id'|]; simpl; [|done].
  intros [? ?]%lookup_delete_Some. split; [done | congruence].
Qed.

Lemma performSearch_start_timers query options p :
  debounceTimer (performSearch_start query options p).1 = debounceTimer p /\
  pending (performSearch_start query options p).1 = pending p /\
  timerCount (performSearch_start query options p).1 = timerCount p.
Proof. unfold performSearch_start. by destruct (_ <? _). Qed.

Lemma step_oneTimer a p : oneTimer p -> oneTimer (step a p).
Proof.
  intros Hp id ms f args. destruct a as [d args'|id'|ms' name|]; simpl.
  - intros [[-> _]|[Hne Hin]]%lookup_insert_Some; [done|].
    apply clearTimeout_lookup in Hin as [Hin Hclear].
    by apply Hp in Hin.
  - destruct (pending p !! id') as [[ms' [[|name] args'|name]]|] eqn:Hid';
      [destruct (performSearch_start_timers (arg_query args') (arg_options args')
         (mkPage (debounceTimer p) (currentSearchQuery p) (searchResults p)
                 (timerCount p) (delete id' (pending p)) (container p)
                 (statusElement p))) as (-> & -> & _)| | |];
      cbn [pending debounceTimer];
      try (intros [? ?]%lookup_delete_Some; by eapply Hp).
    apply Hp.
  - intros [[_ ?]|[_ Hin]]%lookup_insert_Some; [done|]. by eapply Hp.
  - intros Hin. apply clearTimeout_lookup in Hin as [Hin Hclear].
    by apply Hp in Hin.
Qed.

Lemma step_freshIds a p : freshIds p -> freshIds (step a p).
Proof.
  intros Hp id cb. destruct a as [d args'|id'|ms' name|]; simpl.
  - intros [[<- _]|[_ Hin]]%lookup_insert_Some; [done|].
    apply clearTimeout_lookup in Hin as [Hin _]. apply Hp in Hin. lia.
  - destruct (pending p !! id') as [[ms' [[|name] args'|name]]|] eqn:Hid';
      [destruct (performSearch_start_timers (arg_query args') (arg_options args')
         (mkPage (debounceTimer p) (currentSearchQuery p) (searchResults p)
                 (timerCount p) (delete id' (pending p)) (container p)
                 (statusElement p))) as (_ & -> & ->)| | |];
      cbn [pending timerCount];
      try (intros [? ?]%lookup_delete_Some; by eapply Hp).
    apply Hp.
  - intros [[<- _]|[_ Hin]]%lookup_insert_Some; [done|].
    apply Hp in Hin. lia.
  - intros Hin. apply clearTimeout_lookup in Hin as [Hin _]. by eapply Hp.
Qed.

Lemma steps_invariant l p :
  oneTimer p /\ freshIds p -> oneTimer (steps l p) /\ freshIds (steps l p).
Proof.
  revert p. induction l as [|a l IH]; intros p [H1 H2]; [done|].
  simpl. apply IH. split; [by apply step_oneTimer | by apply step_freshIds].
Qed.

Lemma pageLoaded_invariant : oneTimer pageLoaded /\ freshIds pageLoaded.
Proof.
  split.
  - intros id ms f args H. simpl in H. by rewrite lookup_empty in H.
  - intros id cb H. simpl in H. by rewrite lookup_empty in H.
Qed.
End Debounce.

(** C9. All the functions returned by [debounce] share the one timer
    variable of the module. In every state the page can reach, a pending
    invocation of a debounced function is the only one pending; calling any
    debounced function [g] then cancels it, and the invocation of [g] becomes
    the only one pending. *)
Theorem debounce_shares_one_timer (l : list action) (g : debounced)
    (args : arguments) (id : nat) (ms : Z) (f : func) (argsf : arguments) :
  let p := steps l pageLoaded in
  pending p !! id = Some (ms, Apply f argsf) ->
  (forall id' ms' f' args',
     pending p !! id' = Some (ms', Apply f' args') -> id' = id) /\
  let p' := callDebounced g args p in
  pending p' !! id = None /\
  exists idg,
    debounceTimer p' = Some idg /\
    pending p' !! idg = Some (delay g, Apply (wrapped g) args) /\
    (forall id' ms' f' args',
       pending p' !! id' = Some (ms', Apply f' args') -> id' = idg).
Proof.
  intros p Hid.
  destruct (steps_invariant l pageLoaded pageLoaded_invariant) as [Hone Hfresh].
  fold p in Hone, Hfresh.
  pose proof (Hone _ _ _ _ Hid) as Htimer.
  split.
  { intros id' ms' f' args' Hid'. apply Hone in Hid'. congruence. }
  cbv zeta. unfold callDebounced. cbn [pending debounceTimer]. rewrite Htimer.
  cbn [clearTimeout].
  pose proof (Hfresh _ _ Hid) as Hle.
  split.
  { rewrite lookup_insert_ne by lia. apply lookup_delete_eq. }
  exists (S (timerCount p)). split; [done|]. split; [apply lookup_insert_eq|].
  intros id' ms' f' args' [[-> _]|[_ Hin]]%lookup_insert_Some; [done|].
  apply lookup_delete_Some in Hin as [Hne Hin]. apply Hone in Hin. congruence.
Qed.

Lemma debounce_shares_one_timer_witness :
  let p := steps [Call Scenario.debouncedResize (Scenario.typed "")] pageLoaded in
  let p' := callDebounced debouncedSearch (Scenario.typed "luba") p in
  pending p !! 1%nat = Some (200, Apply (Func "onResize") (Scenario.typed "")) /\
  pending p' !! 1%nat = None.
Proof.
  cbv zeta. split; [reflexivity|].
  apply (debounce_shares_one_timer
           [Call Scenario.debouncedResize (Scenario.typed "")]
           debouncedSearch (Scenario.typed "luba") 1%nat 200
           (Func "onResize") (Scenario.typed "")).
  reflexivity.
Defined.

(* ===================================================================== *)
(** * Properties of the favorites                                         *)
(* ===================================================================== *)

Section Favorites.
Implicit Types (st : Storage) (x y : item) (type : string).

Lemma inherited_proto type :
  inherited type = false -> String.eqb type "__proto__" = false.
Proof.
  unfold inherited, objectPrototype. cbn [existsb]. intros H.
  repeat (apply orb_false_iff in H as [? H]). done.
Qed.

Lemma readMember_Own {A} (o : gmap string A) type v :
  readMember o type = Own v <-> o !! type = Some v.
Proof.
  unfold readMember. destruct (o !! type) as [w|].
  - split; by intros [= ->].
  - by destruct (inherited type).
Qed.

Lemma readMember_inherited {A} (o : gmap string A) type :
  readMember o type = Inherited <-> o !! type = None /\ inherited type = true.
Proof.
  unfold readMember. destruct (o !! type) as [w|].
  - split; [done | by intros [? _]].
  - destruct (inherited type); split; try done; by intros [_ ?].
Qed.

Lemma readMember_undefined {A} (o : gmap string A) type :
  readMember o type = Undefined <-> o !! type = None /\ inherited type = false.
Proof.
  unfold readMember. destruct (o !! type) as [w|].
  - split; [done | by intros [? _]].
  - destruct (inherited type); split; try done; by intros [_ ?].
Qed.

(** What [addFavorite] does, by what [favorites[type]] is. *)
Lemma addFavorite_cases type x today st :
  addFavorite type x today st =
    match readMember (getFavorites st) type with
    | Inherited =>
        (st, Thrown (TypeError "favorites[type].some is not a function"))
    | Own _ | Undefined =>
        if someSameId x (favoritesOf type st) then (st, Returned false)
        else
          ((saveToStorage STORAGE_KEYS.FAVORITES
              (<[type := favoritesOf type st ++ [favoriteEntry x today]]>
                 (getFavorites st)) st).1,
           Returned true)
    end.
Proof.
  unfold addFavorite, favoritesOf, readMember. cbv zeta.
  destruct (getFavorites st !! type) as [l|] eqn:Hl.
  - rewrite ?Hl. cbn [default from_option id]. by destruct (someSameId x l).
  - destruct (inherited type) eqn:Hinh.
    + by rewrite ?Hl, ?Hinh.
    + unfold writeMember. rewrite ?Hl, (inherited_proto _ Hinh).
      rewrite lookup_insert_eq. cbn. by rewrite insert_insert_eq.
Qed.

Lemma addFavorite_present type x today st :
  someSameId x (favoritesOf type st) = true ->
  addFavorite type x today st = (st, Returned false).
Proof.
  intros H. rewrite addFavorite_cases, H.
  unfold favoritesOf in H. unfold readMember.
  by destruct (getFavorites st !! type).
Qed.

Lemma addFavorite_inherited type x today st :
  readMember (getFavorites st) type = Inherited ->
  addFavorite type x today st
    = (st, Thrown (TypeError "favorites[type].some is not a function")).
Proof. intros H. by rewrite addFavorite_cases, H. Qed.

Lemma getFavorites_saved favorites st :
  quotaExceeded st = false ->
  getFavorites (saveToStorage STORAGE_KEYS.FAVORITES favorites st).1 = favorites.
Proof.
  intros H. unfold saveToStorage, getFavorites, getFromStorage. rewrite H.
  cbn [fst entries]. by rewrite lookup_insert_eq.
Qed.

Lemma addFavorite_absent type x today st :
  quotaExceeded st = false ->
  readMember (getFavorites st) type <> Inherited ->
  someSameId x (favoritesOf type st) = false ->
  (addFavorite type x today st).2 = Returned true /\
  quotaExceeded (addFavorite type x today st).1 = false /\
  getFavorites (addFavorite type x today st).1 =
    <[type := favoritesOf type st ++ [favoriteEntry x today]]> (getFavorites st) /\
  favoritesOf type (addFavorite type x today st).1 =
    favoritesOf type st ++ [favoriteEntry x today] /\
  forall type', type' <> type ->
    favoritesOf type' (addFavorite type x today st).1 = favoritesOf type' st.
Proof.
  intros Hquota Hread H. rewrite addFavorite_cases, H.
  assert (forall A (a b : A),
            match readMember (getFavorites st) type with
            | Inherited => a
            | Own _ | Undefined => b
            end = b) as Hmatch.
  { intros A a b. by destruct (readMember (getFavorites st) type). }
  rewrite Hmatch. cbn [fst snd].
  split; [done|]. split.
  { unfold saveToStorage. by rewrite Hquota. }
  split; [by apply getFavorites_saved|].
  split.
  { unfold favoritesOf at 1. rewrite getFavorites_saved by done.
    by rewrite lookup_insert_eq. }
  intros type' Hne. unfold favoritesOf at 1.
  by rewrite getFavorites_saved, lookup_insert_ne by done.
Qed.

Lemma someSameId_app x l1 l2 :
  someSameId x (l1 ++ l2) = someSameId x l1 || someSameId x l2.
Proof. apply existsb_app. Qed.

Lemma someSameId_same_id x x' l :
  item_id x' = item_id x -> someSameId x' l = someSameId x l.
Proof. intros H. unfold someSameId. by rewrite H. Qed.

Lemma someSameId_entry x today : someSameId x [favoriteEntry x today] = true.
Proof. unfold someSameId. simpl. by rewrite bool_decide_eq_true_2. Qed.

(** A favorite stays one when others are added. *)
Lemma addFavorite_keeps type x type' y today st :
  someSameId x (favoritesOf type st) = true ->
  someSameId x (favoritesOf type (addFavorite type' y today st).1) = true.
Proof.
  intros H.
  destruct (readMember (getFavorites st) type') as [l| |] eqn:Hm;
    [| by rewrite addFavorite_inherited |].
  all: destruct (someSameId y (favoritesOf type' st)) eqn:Hy;
    [by rewrite addFavorite_present|].
  all: destruct (quotaExceeded st) eqn:Hquota;
    [rewrite addFavorite_cases, Hm, Hy; unfold saveToStorage;
     by rewrite Hquota|].
  all: destruct (addFavorite_absent type' y today st Hquota ltac:(by rewrite Hm) Hy)
    as (_ & _ & _ & Hsame & Hother).
  all: destruct (decide (type = type')) as [->|Hne];
    [by rewrite Hsame, someSameId_app, H | by rewrite Hother].
Qed.

Lemma addFavorites_keeps type x calls st :
  someSameId x (favoritesOf type st) = true ->
  someSameId x (favoritesOf type (addFavorites calls st)) = true.
Proof.
  revert st. induction calls as [|[[type' y] today] calls IH]; intros st H;
    [done|].
  apply IH. by apply addFavorite_keeps.
Qed.
End Favorites.

(** C10. [addFavorite] is idempotent per item id where [favorites[type]]
    is a list or missing and the storage takes the write: for an item whose
    id is not among the favorites of the type, the call returns [true] and
    appends one entry; after that, and after any further additions, a call
    with an item of the same id returns [false] and leaves the storage as
    it is. *)
Theorem addFavorite_idempotent (type : string) (x x' : item)
    (today today' : string) (others : list (string * item * string))
    (st : Storage) :
  quotaExceeded st = false ->
  readMember (getFavorites st) type <> Inherited ->
  someSameId x (favoritesOf type st) = false ->
  item_id x' = item_id x ->
  let first := addFavorite type x today st in
  let later := addFavorites others first.1 in
  let again := addFavorite type x' today' later in
  first.2 = Returned true /\
  favoritesOf type first.1 = favoritesOf type st ++ [favoriteEntry x today] /\
  again.2 = Returned false /\
  again.1 = later.
Proof.
  intros Hquota Hread Hnew Hid first later again.
  destruct (addFavorite_absent type x today st Hquota Hread Hnew)
    as (Htrue & _ & _ & Hlist & _).
  fold first in Htrue, Hlist.
  split; [done|]. split; [done|].
  assert (someSameId x' (favoritesOf type later) = true) as Hpresent.
  { rewrite (someSameId_same_id x x') by done.
    apply addFavorites_keeps.
    by rewrite Hlist, someSameId_app, someSameId_entry, orb_true_r. }
  unfold again. by rewrite addFavorite_present.
Qed.

Lemma addFavorite_idempotent_witness :
  (addFavorite "artifacts" Scenario.lukasa "2026-01-05" Scenario.emptyStorage).2
    = Returned true /\
  favoritesOf "artifacts"
    (addFavorite "artifacts" Scenario.lukasa "2026-01-05" Scenario.emptyStorage).1
    = [] ++ [favoriteEntry Scenario.lukasa "2026-01-05"] /\
  (addFavorite "artifacts" Scenario.lukasaAgain "2026-02-01"
     (addFavorites [("artifacts", Scenario.stool, "2026-01-20")]
        (addFavorite "artifacts" Scenario.lukasa "2026-01-05"
                     Scenario.emptyStorage).1)).2 = Returned false /\
  (addFavorite "artifacts" Scenario.lukasaAgain "2026-02-01"
     (addFavorites [("artifacts", Scenario.stool, "2026-01-20")]
        (addFavorite "artifacts" Scenario.lukasa "2026-01-05"
                     Scenario.emptyStorage).1)).1
    = addFavorites [("artifacts", Scenario.stool, "2026-01-20")]
        (addFavorite "artifacts" Scenario.lukasa "2026-01-05"
                     Scenario.emptyStorage).1.
Proof.
  apply (addFavorite_idempotent "artifacts" Scenario.lukasa Scenario.lukasaAgain
           "2026-01-05" "2026-02-01"
           [("artifacts", Scenario.stool, "2026-01-20")] Scenario.emptyStorage).
  - reflexivity.
  - discriminate.
  - reflexivity.
  - reflexivity.
Defined.

(** The claim as the spec words it fails on a storage that refuses the
    write: the first call returns [true] and stores nothing, and the call
    with an item of the same id returns [true] again. It also fails under
    a type that names a member of [Object.prototype]: the first call throws
    instead of returning [true]. *)
Lemma addFavorite_not_idempotent :
  addFavorite "artifacts" Scenario.lukasa "2026-01-05" Scenario.fullStorage
    = (Scenario.fullStorage, Returned true) /\
  addFavorite "artifacts" Scenario.lukasaAgain "2026-02-01"
    (addFavorite "artifacts" Scenario.lukasa "2026-01-05" Scenario.fullStorage).1
    = (Scenario.fullStorage, Returned true) /\
  addFavorite "constructor" Scenario.lukasa "2026-01-05" Scenario.emptyStorage
    = (Scenario.emptyStorage,
       Thrown (TypeError "favorites[type].some is not a function")).
Proof. split; [|split]; reflexivity. Qed.

(** A storage that refuses the write is left as it was, and the call still
    returns [true]. *)
Lemma addFavorite_quota_exceeded (type : string) (x : item) (today : string)
    (st : Storage) :
  quotaExceeded st = true ->
  readMember (getFavorites st) type <> Inherited ->
  someSameId x (favoritesOf type st) = false ->
  addFavorite type x today st = (st, Returned true).
Proof.
  intros Hquota Hread H. rewrite addFavorite_cases, H.
  unfold saveToStorage. rewrite Hquota. cbn [fst].
  by destruct (readMember (getFavorites st) type).
Qed.

(* ===================================================================== *)
(** * More on fetchWithRetry                                              *)
(* ===================================================================== *)

Lemma fetchLoop_first_success (net : network) (url : Url)
    (options : RequestInit) (retries : Z) (v : payload) (k : nat) :
  forall (n : nat) (i : nat) (t : Z),
  Z.of_nat i + Z.of_nat n = retries ->
  (k < n)%nat ->
  (forall j, (j < k)%nat -> isRejected (attemptOutcome (net url (i + j)%nat)) = true) ->
  attemptOutcome (net url (i + k)%nat) = Fulfilled v ->
  let r := fetchLoop net url options retries n (Z.of_nat i) t in
  result r = Fulfilled v /\
  settled r = t + retryTime net url i k + latency (net url (i + k)%nat) /\
  length (requestsOf (effects r)) = S k.
Proof.
  induction k as [|k IH]; intros n i t Hn Hk Hfail Hok;
    (destruct n as [|n]; [lia|]); cbv zeta.
  - rewrite Nat.add_0_r in Hok.
    rewrite (fetchLoop_fulfilled net url options retries n (Z.of_nat i) t v)
      by (by rewrite Nat2Z.id).
    rewrite Nat2Z.id, Nat.add_0_r. simpl. split; [done|]. split; [lia | done].
  - destruct (attemptOutcome (net url i)) as [w|e] eqn:Ha.
    { specialize (Hfail 0%nat ltac:(lia)). rewrite Nat.add_0_r, Ha in Hfail. done. }
    rewrite (fetchLoop_retry net url options retries n (Z.of_nat i) t e)
      by (rewrite ?Nat2Z.id; first [done | lia]).
    cbv zeta. rewrite Nat2Z.id.
    replace (Z.of_nat i + 1) with (Z.of_nat (S i)) by lia.
    destruct (IH n (S i) (t + latency (net url i) + 400 * Z.of_nat (S i)))
      as (Hres & Hset & Hlen).
    + lia.
    + lia.
    + intros j Hj. replace (S i + j)%nat with (i + S j)%nat by lia.
      apply Hfail. lia.
    + by replace (S i + k)%nat with (i + S k)%nat by lia.
    + unfold during. cbn [result settled effects].
      rewrite requestsOf_app, length_app, Hlen, Hres, Hset.
      replace (S i + k)%nat with (i + S k)%nat by lia.
      split; [done|]. split; [simpl retryTime; lia | done].
Qed.

(** X1. The first attempt that succeeds decides the call: when attempts
    [0 .. k-1] fail and attempt [k] (within the allowance) succeeds, the
    promise is fulfilled with its payload after [k + 1] requests, at the
    time the latencies and the waits [400, 800, ...] add up to. *)
Theorem fetchWithRetry_first_success (net : network) (url : Url)
    (options : RequestInit) (retries t : Z) (k : nat) (v : payload) :
  (k < Z.to_nat retries)%nat ->
  (forall j, (j < k)%nat -> isRejected (attemptOutcome (net url j)) = true) ->
  attemptOutcome (net url k) = Fulfilled v ->
  let r := fetchWithRetry net url options retries t in
  result r = Fulfilled v /\
  settled r = t + retryTime net url 0 k + latency (net url k) /\
  length (requestsOf (effects r)) = S k.
Proof.
  intros Hk Hfail Hok.
  apply (fetchLoop_first_success net url options retries v k
           (Z.to_nat retries) 0%nat t); [lia | done | done | done].
Qed.

Lemma fetchWithRetry_first_success_witness :
  result (fetchWithRetry Scenario.thirdTimeLucky Scenario.someUrl noOptions 3 0)
    = Fulfilled (JObject (Scenario.artifact 7)) /\
  settled (fetchWithRetry Scenario.thirdTimeLucky Scenario.someUrl noOptions 3 0)
    = 0 + retryTime Scenario.thirdTimeLucky Scenario.someUrl 0 2
      + latency (Scenario.thirdTimeLucky Scenario.someUrl 2%nat) /\
  length (requestsOf (effects
    (fetchWithRetry Scenario.thirdTimeLucky Scenario.someUrl noOptions 3 0))) = 3%nat.
Proof.
  apply (fetchWithRetry_first_success Scenario.thirdTimeLucky Scenario.someUrl
           noOptions 3 0 2 (JObject (Scenario.artifact 7))).
  - simpl. lia.
  - intros [|[|j]] Hj; [reflexivity | reflexivity | lia].
  - reflexivity.
Defined.

Lemma totalWait_linear (m : nat) :
  foldr Z.add 0 ((fun i => 400 * (Z.of_nat i + 1)) <$> seq 0 m)
    = 200 * Z.of_nat m * (Z.of_nat m + 1).
Proof.
  induction m as [|m IH]; [done|].
  rewrite seq_S, fmap_app, foldr_app. simpl.
  transitivity (400 * (Z.of_nat m + 1)
                + foldr Z.add 0 ((fun i => 400 * (Z.of_nat i + 1)) <$> seq 0 m)).
  - generalize (400 * (Z.of_nat m + 1)).
    generalize ((fun i => 400 * (Z.of_nat i + 1)) <$> seq 0 m).
    intros l z. induction l as [|x l IHl]; simpl; lia.
  - rewrite IH. nia.
Qed.

(** X2. The waits of one call add up to [200 * n * (n - 1)] ms for its [n]
    requests, so to no more than [200 * retries * (retries - 1)]: at most
    1200 ms with the default of three attempts. *)
Theorem fetchWithRetry_total_wait (net : network) (url : Url)
    (options : RequestInit) (retries t : Z) :
  let r := fetchWithRetry net url options retries t in
  let n := Z.of_nat (length (requestsOf (effects r))) in
  totalWait (effects r) = 200 * n * (n - 1) /\
  0 <= totalWait (effects r) <= 200 * retries * (retries - 1).
Proof.
  intros r n. subst r n. unfold totalWait, fetchWithRetry.
  pose proof (fetchLoop_requests_le net url options retries (Z.to_nat retries) 0 t)
    as Hle.
  destruct (Z_le_gt_dec retries 0) as [H|H].
  { replace (Z.to_nat retries) with 0%nat by lia. simpl. nia. }
  rewrite (fetchLoop_timeouts net url options retries) by lia.
  rewrite <- (list_fmap_ext (fun i => 400 * (Z.of_nat i + 1))
                (fun k => 400 * (0 + Z.of_nat k + 1))) by (intros; lia).
  rewrite totalWait_linear.
  destruct (Z.to_nat retries) as [|m] eqn:Hm; [lia|].
  pose proof (fetchLoop_requests_pos net url options retries m 0 t) as Hpos.
  split; [|split]; nia.
Qed.

(* ===================================================================== *)
(** * More on the rate limiter                                            *)
(* ===================================================================== *)

Section EventLoopInvariants.
Implicit Types (s : EventLoop) (q : list (Z * mbCall)).

Lemma setTimeout_Permutation x q : setTimeout x q ≡ₚ x :: q.
Proof.
  induction q as [|y q IH]; simpl; [done|].
  destruct (_ <? _); [done|]. rewrite IH. apply Permutation_swap.
Qed.

Lemma callers_rateLimitMusicBrainz who s :
  callers (rateLimitMusicBrainz who s) ≡ₚ who :: callers s.
Proof.
  unfold rateLimitMusicBrainz, callers.
  destruct (rateLimitDelay s) as [ms|]; simpl.
  - rewrite setTimeout_Permutation. simpl.
    by rewrite <- Permutation_middle.
  - rewrite fmap_app. simpl. rewrite <- app_assoc. simpl.
    by rewrite <- Permutation_middle.
Qed.

Lemma callers_fire s : callers (fire s) ≡ₚ callers s.
Proof.
  unfold fire, callers. destruct (timers s) as [|[due who] q] eqn:Hq.
  { by rewrite Hq. }
  simpl. rewrite fmap_app. simpl. by rewrite <- app_assoc.
Qed.

Lemma callers_fireUntil n t s : callers (fireUntil n t s) ≡ₚ callers s.
Proof.
  revert s. induction n as [|n IH]; intros s; [done|]. simpl.
  destruct (timers s) as [|[due who] q] eqn:Hq; [done|].
  destruct (due <=? t); [|done]. by rewrite IH, callers_fire.
Qed.

Lemma callers_arrivals calls s :
  callers (arrivals calls s) ≡ₚ callers s ++ (snd <$> calls).
Proof.
  revert s. induction calls as [|[t who] calls IH]; intros s; simpl.
  - by rewrite app_nil_r.
  - rewrite IH, callers_rateLimitMusicBrainz.
    change (callers (advance t s))
      with (callers (fireUntil (length (timers s)) t s)).
    rewrite callers_fireUntil. by rewrite <- Permutation_middle.
Qed.

Lemma drain_all n s :
  (length (timers s) <= n)%nat ->
  timers (drain n s) = [] /\ callers (drain n s) ≡ₚ callers s.
Proof.
  revert s. induction n as [|n IH]; intros s Hn.
  - simpl. split; [|done]. destruct (timers s); [done | simpl in Hn; lia].
  - simpl. destruct (IH (fire s)) as [H1 H2].
    + unfold fire. destruct (timers s) as [|[due who] q] eqn:Hq.
      * rewrite Hq. simpl. lia.
      * simpl in *. lia.
    + split; [done|]. by rewrite H2, callers_fire.
Qed.
End EventLoopInvariants.

(** X4. No caller is lost and none is admitted twice: once every timer
    has fired, the callers admitted are those that were already admitted or
    parked and those that arrived, each as often as it called. *)
Theorem rateLimit_everyone_admitted_once (calls : list (Z * mbCall))
    (s : EventLoop) :
  fst <$> admissions calls s ≡ₚ callers s ++ (snd <$> calls).
Proof.
  unfold admissions.
  destruct (drain_all (length (timers (arrivals calls s)))
              (arrivals calls s) ltac:(lia)) as [Hempty Hcallers].
  rewrite callers_arrivals in Hcallers. unfold callers in Hcallers at 1.
  rewrite Hempty in Hcallers. simpl in Hcallers.
  by rewrite app_nil_r in Hcallers.
Qed.

Section SequentialCalls.
Implicit Types (s : EventLoop).

Lemma spaced_snoc gap log who a :
  spaced gap log = true ->
  Forall (fun x => snd x + gap <= a) log ->
  spaced gap (log ++ [(who, a)]) = true.
Proof.
  induction log as [|x log IH]; intros Hs Hall; [done|].
  inversion Hall as [|? ? Hx Hall']; subst.
  destruct log as [|y log].
  - simpl. apply andb_true_iff. split; [by apply Z.leb_le | done].
  - simpl in Hs. apply andb_true_iff in Hs as [Hxy Hs].
    change (((snd x + gap <=? snd y) && spaced gap ((y :: log) ++ [(who, a)])) = true).
    apply andb_true_iff. split; [done | by apply IH].
Qed.

Lemma settledLog_snoc s who a t :
  settledLog s ->
  lastMusicBrainzRequest s + MUSICBRAINZ_RATE_LIMIT <= a -> a <= t ->
  settledLog (mkLoop t a [] (admitted s ++ [(who, a)])).
Proof.
  unfold settledLog, MUSICBRAINZ_RATE_LIMIT. simpl.
  intros (Hsp & Hall & Hlast) Ha Ht. split; [|split; [|done]].
  - apply spaced_snoc; [done|].
    eapply Forall_impl; [exact Hall|]. simpl. intros. lia.
  - apply Forall_app. split; [|by repeat constructor].
    eapply Forall_impl; [exact Hall|]. simpl. intros. lia.
Qed.

Lemma advance_quiet t s :
  oneParked s ->
  (timers s = [] /\ now s <= t) \/ now s + MUSICBRAINZ_RATE_LIMIT <= t ->
  quiet (advance t s) /\ now (advance t s) = t.
Proof.
  unfold oneParked, quiet, MUSICBRAINZ_RATE_LIMIT.
  intros [Hlog [Hq|(due & who & Hq & Hdue & Hnow)]] Ht.
  - assert (now s <= t) as Hle by (destruct Ht as [[_ ?]|?]; lia).
    unfold advance. rewrite Hq. simpl. rewrite Hq.
    split; [|lia]. split; [|done].
    destruct Hlog as (Hsp & Hall & Hlast). unfold settledLog. simpl.
    split; [done|]. split; [done | lia].
  - destruct Ht as [[Hq' _]|Ht]; [congruence|].
    unfold advance. rewrite Hq. simpl. rewrite Hq.
    destruct (Z.leb_spec due t); [|lia].
    unfold fire. rewrite Hq. simpl.
    rewrite (Z.max_r (now s) due), (Z.max_r due t) by lia.
    split; [|done]. split; [|done].
    apply settledLog_snoc; [done | done | lia].
Qed.

Lemma rateLimitMusicBrainz_oneParked who s :
  quiet s ->
  oneParked (rateLimitMusicBrainz who s) /\
  now (rateLimitMusicBrainz who s) = now s.
Proof.
  unfold quiet, oneParked. intros [Hlog Hq].
  unfold rateLimitMusicBrainz, rateLimitDelay, rateLimitGrant,
    MUSICBRAINZ_RATE_LIMIT.
  destruct (Z.ltb_spec (now s - lastMusicBrainzRequest s) 1000) as [H|H];
    cbn [now timers lastMusicBrainzRequest admitted].
  - split; [|done]. split; [done|]. right. rewrite Hq. simpl.
    destruct Hlog as (_ & _ & Hlast).
    eexists _, who. split; [done|]. lia.
  - split; [|done]. split; [|left; done]. rewrite Hq.
    apply settledLog_snoc; [done | unfold MUSICBRAINZ_RATE_LIMIT; lia | lia].
Qed.

Lemma arrivals_oneParked calls : forall s,
  oneParked s ->
  match calls with
  | (t, _) :: _ =>
      (timers s = [] /\ now s <= t) \/ now s + MUSICBRAINZ_RATE_LIMIT <= t
  | [] => True
  end ->
  callsApart MUSICBRAINZ_RATE_LIMIT calls = true ->
  oneParked (arrivals calls s).
Proof.
  induction calls as [|[t who] calls IH]; intros s Hs Hfirst Hapart; [done|].
  simpl. destruct (advance_quiet t s Hs Hfirst) as [Hquiet Hnow].
  destruct (rateLimitMusicBrainz_oneParked who _ Hquiet) as [Hone Hnow'].
  apply IH; [done| |].
  - destruct calls as [|[t' who'] calls]; [done|].
    simpl in Hapart. apply andb_true_iff in Hapart as [Ht _].
    apply Z.leb_le in Ht. right. rewrite Hnow', Hnow. done.
  - destruct calls as [|? calls]; [done|].
    simpl in Hapart. by apply andb_true_iff in Hapart as [_ ?].
Qed.

Lemma drain_oneParked s :
  oneParked s ->
  spaced MUSICBRAINZ_RATE_LIMIT (admitted (drain (length (timers s)) s)) = true.
Proof.
  unfold oneParked, settledLog.
  intros [(Hsp & Hall & Hlast) [Hq|(due & who & Hq & Hdue & Hnow)]].
  - by rewrite Hq.
  - rewrite Hq. simpl. unfold fire. rewrite Hq. simpl.
    apply spaced_snoc; [done|].
    eapply Forall_impl; [exact Hall|]. simpl. intros. lia.
Qed.

End SequentialCalls.

(** X5. Calls that arrive at least a second apart are admitted at least a
    second apart: from a page with nobody in the limiter, consecutive
    admissions are 1000 ms apart or more, including the first call when it
    comes less than a second after the recorded time. *)
Theorem rateLimit_sequential_calls_spaced (calls : list (Z * mbCall))
    (s : EventLoop) :
  timers s = [] -> admitted s = [] ->
  lastMusicBrainzRequest s <= now s ->
  match calls with (t, _) :: _ => now s <= t | [] => True end ->
  callsApart MUSICBRAINZ_RATE_LIMIT calls = true ->
  spaced MUSICBRAINZ_RATE_LIMIT (admissions calls s) = true.
Proof.
  intros Hq Hlog Hlast Hfirst Hapart. unfold admissions.
  apply drain_oneParked, arrivals_oneParked; [| |done].
  - split; [|by left]. unfold settledLog. rewrite Hlog. by repeat split.
  - destruct calls as [|[t who] calls]; [done | by left].
Qed.

Lemma rateLimit_sequential_calls_spaced_witness :
  spaced MUSICBRAINZ_RATE_LIMIT
    (admissions [(5000, ArtistSearch); (6000, RecordingSearch);
                 (7200, InstrumentSearch)]
                (mkLoop 4900 4800 [] [])) = true.
Proof.
  apply (rateLimit_sequential_calls_spaced
           [(5000, ArtistSearch); (6000, RecordingSearch); (7200, InstrumentSearch)]
           (mkLoop 4900 4800 [] [])).
  - reflexivity.
  - reflexivity.
  - simpl. lia.
  - simpl. lia.
  - reflexivity.
Defined.

(* ===================================================================== *)
(** * More on the adapters                                                *)
(* ===================================================================== *)

Lemma omap_length_le {A B} (f : A -> option B) (l : list A) :
  (length (omap f l) <= length l)%nat.
Proof.
  induction l as [|x l IH]; [done|].
  change (omap f (x :: l))
    with (match f x with Some y => y :: omap f l | None => omap f l end).
  destruct (f x); cbn [length]; lia.
Qed.

(** The objects kept, id by id. *)
Lemma imageful_by_id (net : network) (objectIds : list Z) (t : Z) :
  omap hasPrimaryImage
       (omap fulfilledValue
             (result <$> ((fun id => getMetObject net id t) <$> objectIds)))
  = omap (fun objectId =>
            match result (getMetObject net objectId t) with
            | Fulfilled (JObject o) =>
                if truthy (item_primaryImage o) then Some o else None
            | _ => None
            end) objectIds.
Proof.
  induction objectIds as [|objectId objectIds IH]; [done|].
  rewrite !fmap_cons.
  change (omap ?f (?x :: ?l))
    with (match f x with Some y => y :: omap f l | None => omap f l end).
  cbv beta.
  destruct (result (getMetObject net objectId t)) as [v|e]; cbn [fulfilledValue].
  - change (omap ?f (?x :: ?l))
      with (match f x with Some y => y :: omap f l | None => omap f l end).
    destruct v as [| |b|o]; cbn [hasPrimaryImage]; try exact IH.
    destruct (truthy (item_primaryImage o)); [by rewrite IH | exact IH].
  - exact IH.
Qed.

(** X6. [getMetObjects] is never rejected and gives exactly the objects
    that were fetched and have an image, in the order of their ids: an id
    contributes the payload of its object request when that is fulfilled
    with an object whose [primaryImage] is a non-empty text, and nothing
    otherwise (a failed request, a [null] body, an object without image).
    So every object returned has an image and comes from one of the ids,
    every such object of an id is returned, and there are no more of them
    than ids. *)
Theorem getMetObjects_only_images (net : network) (objectIds : list Z) (t : Z) :
  let kept objectId :=
    match result (getMetObject net objectId t) with
    | Fulfilled (JObject o) =>
        if truthy (item_primaryImage o) then Some o else None
    | _ => None
    end in
  result (getMetObjects net objectIds t) = Fulfilled (omap kept objectIds) /\
  Forall (fun o => truthy (item_primaryImage o) = true) (omap kept objectIds) /\
  (length (omap kept objectIds) <= length objectIds)%nat /\
  (forall o, o ∈ omap kept objectIds <->
     exists objectId, objectId ∈ objectIds /\
       result (getMetObject net objectId t) = Fulfilled (JObject o) /\
       truthy (item_primaryImage o) = true).
Proof.
  intros kept. split; [|split; [|split]].
  - unfold getMetObjects. rewrite result_andThen. cbn [result promiseAllSettled].
    by rewrite imageful_by_id.
  - apply Forall_forall. intros o Ho.
    apply list_elem_of_omap in Ho as (objectId & _ & Hk). unfold kept in Hk.
    destruct (result (getMetObject net objectId t)) as [[| |b|o']|e]; try done.
    destruct (truthy (item_primaryImage o')) eqn:Himg; [|done].
    by injection Hk as <-.
  - apply omap_length_le.
  - intros o. rewrite list_elem_of_omap. split.
    + intros (objectId & Hin & Hk). exists objectId. split; [done|].
      unfold kept in Hk.
      destruct (result (getMetObject net objectId t)) as [[| |b|o']|e]; try done.
      destruct (truthy (item_primaryImage o')) eqn:Himg; [|done].
      by injection Hk as <-.
    + intros (objectId & Hin & Hres & Himg). exists objectId. split; [done|].
      unfold kept. by rewrite Hres, Himg.
Qed.

Section SearchOutcome.
Variable net : network.

Lemma search_fulfilled {A} url (field : searchBody -> option (list A))
    (t : Z) (k : nat) (b : searchBody) :
  (k < 3)%nat ->
  (forall j, (j < k)%nat -> isRejected (attemptOutcome (net url j)) = true) ->
  attemptOutcome (net url k) = Fulfilled (JSearch b) ->
  result (andThen (fetchWithRetry net url noOptions 3 t) (arrayOr field))
    = Fulfilled (default [] (field b)).
Proof.
  intros Hk Hfail Hok. rewrite result_andThen. unfold fetchWithRetry.
  destruct (fetchLoop_first_success net url noOptions 3 (JSearch b) k
              (Z.to_nat 3) 0%nat t) as (Hres & _ & _); [lia | lia | done | done |].
  change (Z.of_nat 0) with 0 in Hres. by rewrite Hres.
Qed.

Lemma search_rejected {A} url (field : searchBody -> option (list A)) (t : Z) :
  (forall j, (j < 3)%nat -> isRejected (attemptOutcome (net url j)) = true) ->
  exists e,
    attemptOutcome (net url 2%nat) = Rejected e /\
    result (andThen (fetchWithRetry net url noOptions 3 t) (arrayOr field))
      = Rejected e.
Proof.
  intros Hfail. rewrite result_andThen. unfold fetchWithRetry.
  destruct (fetchLoop_exhausted net url noOptions 3 2 0 t) as (e & He & Hres & _);
    [lia | lia | |].
  { intros j Hj. apply Hfail. lia. }
  exists e. split; [done|]. change (Z.to_nat 3) with 3%nat. by rewrite Hres.
Qed.
End SearchOutcome.

(** X7. An answer without the list is an empty result, not an error, and
    a failure is passed on as it is. When one of the three attempts of a
    Met or Cleveland search is answered, the search gives the [objectIDs]
    (the [data]) of the body, or the empty list when the body has none;
    when the three attempts fail, the search is rejected with the error of
    the third. *)
Theorem art_searches_empty_or_failed (net : network) (query : string)
    (hasImages : bool) (limit t : Z) :
  let met := metSearchUrl query hasImages in
  let cleveland := clevelandSearchUrl query limit in
  (forall k b,
     (k < 3)%nat ->
     (forall j, (j < k)%nat -> isRejected (attemptOutcome (net met j)) = true) ->
     attemptOutcome (net met k) = Fulfilled (JSearch b) ->
     result (searchMetArtifacts net query hasImages t)
       = Fulfilled (default [] (body_objectIDs b))) /\
  (forall k b,
     (k < 3)%nat ->
     (forall j, (j < k)%nat -> isRejected (attemptOutcome (net cleveland j)) = true) ->
     attemptOutcome (net cleveland k) = Fulfilled (JSearch b) ->
     result (searchClevelandArtifacts net query limit t)
       = Fulfilled (default [] (body_data b))) /\
  ((forall j, (j < 3)%nat -> isRejected (attemptOutcome (net met j)) = true) ->
   exists e, attemptOutcome (net met 2%nat) = Rejected e /\
             result (searchMetArtifacts net query hasImages t) = Rejected e) /\
  ((forall j, (j < 3)%nat -> isRejected (attemptOutcome (net cleveland j)) = true) ->
   exists e, attemptOutcome (net cleveland 2%nat) = Rejected e /\
             result (searchClevelandArtifacts net query limit t) = Rejected e).
Proof.
  cbv zeta. split; [|split; [|split]].
  - intros k b. apply search_fulfilled.
  - intros k b. apply search_fulfilled.
  - apply search_rejected.
  - apply search_rejected.
Qed.

(** X8. [getKilubaTranslations] and [getOralNarratives] never throw: when
    the endpoint answers they give its payload and warn of nothing; when
    the three attempts fail they write their warning once, at the time the
    last attempt failed, and give the data built into the module: the eight
    words from Mwamudimu to Nkongolo with their translations, respectively
    the three stories numbered 1 to 3. *)
Theorem mocky_falls_back_to_defaults (net : network) (t : Z) :
  let kiluba := getKilubaTranslations net t in
  let stories := getOralNarratives net t in
  let fetched url := fetchWithRetry net (mkUrl url None []) noOptions 3 t in
  (match result (fetched mocky_kiluba) with
   | Fulfilled data =>
       result kiluba.1 = Fulfilled (KilubaPayload data) /\ kiluba.2 = []
   | Rejected _ =>
       result kiluba.1 = Fulfilled getDefaultKilubaData /\
       kiluba.2 = [(settled (fetched mocky_kiluba),
                    "Kiluba translations not available, using defaults")]
   end) /\
  (match result (fetched mocky_narratives) with
   | Fulfilled data =>
       result stories.1 = Fulfilled (NarrativesPayload data) /\ stories.2 = []
   | Rejected _ =>
       result stories.1 = Fulfilled getDefaultNarratives /\
       stories.2 = [(settled (fetched mocky_narratives),
                     "Oral narratives not available, using defaults")]
   end) /\
  (exists words,
     getDefaultKilubaData = KilubaWords words /\
     (fun w => (word_kiluba w, word_english w, word_french w)) <$> words =
       [("Mwamudimu", "Greetings", "Salutations");
        ("Mulopwe", "King", "Roi");
        ("Lukasa", "Memory Board", "Planche de mémoire");
        ("Mbudye", "Secret Society", "Société secrète");
        ("Bamfumus", "Royal Nobles", "Nobles royaux");
        ("Bulumbu", "Spirit", "Esprit");
        ("Kasala", "Praise Poetry", "Poésie de louange");
        ("Nkongolo", "Rainbow King", "Roi arc-en-ciel")]) /\
  (exists l,
     getDefaultNarratives = NarrativeStories l /\
     (fun n => (story_id n, story_title n, story_tags n)) <$> l =
       [(1, "The Legend of Nkongolo and Mbidi Kiluwe",
         ["origin"; "kingship"; "mythology"]);
        (2, "The Birth of the Lukasa", ["lukasa"; "mbudye"; "history"]);
        (3, "The Power of Bilumbu (Twin Spirits)",
         ["spirituality"; "twins"; "cosmology"])]) /\
  settled kiluba.1 = settled (fetched mocky_kiluba) /\
  settled stories.1 = settled (fetched mocky_narratives) /\
  effects kiluba.1 = effects (fetched mocky_kiluba) /\
  effects stories.1 = effects (fetched mocky_narratives) /\
  (length (requestsOf (effects kiluba.1)) <= 3)%nat /\
  (length (requestsOf (effects stories.1)) <= 3)%nat.
Proof.
  cbv zeta. unfold getKilubaTranslations, getOralNarratives, orDefault.
  pose proof (fetchLoop_requests_le net (mkUrl mocky_kiluba None []) noOptions
                3 (Z.to_nat 3) 0 t) as Hk.
  fold (fetchWithRetry net (mkUrl mocky_kiluba None []) noOptions 3 t) in Hk.
  pose proof (fetchLoop_requests_le net (mkUrl mocky_narratives None []) noOptions
                3 (Z.to_nat 3) 0 t) as Hn.
  fold (fetchWithRetry net (mkUrl mocky_narratives None []) noOptions 3 t) in Hn.
  destruct (result (fetchWithRetry net (mkUrl mocky_kiluba None []) noOptions 3 t));
    destruct (result (fetchWithRetry net (mkUrl mocky_narratives None [])
                                     noOptions 3 t));
    cbn [fst snd result settled effects];
    (split; [done|]); (split; [done|]);
    (split; [by eexists|]); (split; [by eexists|]); done.
Qed.

(* ===================================================================== *)
(** * More on the aggregator                                              *)
(* ===================================================================== *)

Section AggregatorRequests.
Variables (net : network) (query : string).

Lemma fetchWithRetry_requests_le url options t :
  exists n, (S n <= 3)%nat /\
    requestsOf (effects (fetchWithRetry net url options 3 t)) = replicate (S n) url.
Proof.
  unfold fetchWithRetry. rewrite fetchLoop_requests.
  pose proof (fetchLoop_requests_le net url options 3 (Z.to_nat 3) 0 t) as Hle.
  change (Z.to_nat 3) with 3%nat in *.
  pose proof (fetchLoop_requests_pos net url options 3 2 0 t) as Hpos.
  destruct (length _) as [|n]; [lia|]. by exists n.
Qed.

Lemma adapter_requests {A} url options t (k : payload -> Z -> run A) :
  (forall v t', effects (k v t') = []) ->
  exists n, (S n <= 3)%nat /\
    requestsOf (effects (andThen (fetchWithRetry net url options 3 t) k))
      = replicate (S n) url.
Proof.
  intros Hk. destruct (fetchWithRetry_requests_le url options t) as (n & Hn & Hreq).
  exists n. split; [done|].
  rewrite effects_andThen, requestsOf_app, Hreq.
  destruct (result _); [rewrite Hk|]; simpl; by rewrite app_nil_r.
Qed.

Lemma viaRateLimit_requests {A} who s url options (k : payload -> Z -> run A) :
  (forall v t', effects (k v t') = []) ->
  exists n, (S n <= 3)%nat /\
    requestsOf (effects (snd (viaRateLimit who s (fun t =>
      andThen (fetchWithRetry net url options 3 t) k)))) = replicate (S n) url.
Proof.
  intros Hk.
  destruct (adapter_requests url options (admissionTime s) k Hk) as (n & Hn & Hreq).
  exists n. split; [done|].
  unfold viaRateLimit, during. cbn [snd effects].
  rewrite requestsOf_app, Hreq. by destruct (rateLimitDelay s).
Qed.

Lemma getMetObjects_requests_le objectIds t :
  (length (requestsOf (effects (getMetObjects net objectIds t)))
   <= 3 * length objectIds)%nat.
Proof.
  unfold getMetObjects. rewrite effects_andThen. cbn [result effects promiseAllSettled].
  rewrite app_nil_r.
  induction objectIds as [|x ids IH]; [simpl; lia|].
  rewrite !fmap_cons. cbn [concat length].
  rewrite requestsOf_app, length_app. unfold getMetObject at 1.
  destruct (fetchWithRetry_requests_le
              (mkUrl API_CONFIG.met_object (Some (PNumber x)) []) noOptions t)
    as (n & Hn & ->).
  rewrite length_replicate. lia.
Qed.

Lemma artBranch_rejected_effects maxResults results t :
  artCallsFail net query t = true ->
  exists t1 e,
    effects (artBranch net query maxResults results t) =
      effects (searchMetArtifacts net query true t) ++
      effects (searchClevelandArtifacts net query 100 t) ++
      [(t1, EvConsoleError "Art search failed:" e)].
Proof.
  intros Hfail. unfold artBranch.
  destruct (promiseAll2_rejected _ _ Hfail) as [e He].
  set (both := promiseAll2 _ _) in *.
  eexists _, e.
  unfold tryCatch. rewrite result_andThen, He. unfold during. cbn [effects].
  rewrite effects_andThen, He, app_nil_r. unfold both.
  rewrite effects_promiseAll2, <- app_assoc. reflexivity.
Qed.

(** The requests of the art branch: the two searches and the objects of
    at most ten ids. *)
Lemma artBranch_requests maxResults results t :
  exists objectIds t1,
    (length objectIds <= 10)%nat /\
    requestsOf (effects (artBranch net query maxResults results t)) =
      requestsOf (effects (searchMetArtifacts net query true t)) ++
      requestsOf (effects (searchClevelandArtifacts net query 100 t)) ++
      requestsOf (effects (getMetObjects net objectIds t1)).
Proof.
  destruct (artCallsFail net query t) eqn:Hfail.
  - destruct (artBranch_rejected_effects maxResults results t Hfail)
      as (t1 & e & ->).
    exists [], t1. split; [simpl; lia|]. by rewrite !requestsOf_app.
  - unfold artCallsFail, isRejected in Hfail.
    destruct (result (searchMetArtifacts net query true t)) as [ids|] eqn:H1;
      [|done].
    destruct (result (searchClevelandArtifacts net query 100 t)) as [cl|] eqn:H2;
      [|done].
    destruct (artBranch_fulfilled net query maxResults results t ids cl H1 H2)
      as (t1 & ? & _ & _ & ->).
    exists (slice0 10 ids), t1. split.
    + change (slice0 10 ids) with (take 10 ids). rewrite length_take. lia.
    + by rewrite !requestsOf_app.
Qed.

Lemma promiseAll3_effects {A B C} (r1 : run A) (r2 : run B) (r3 : run C) :
  effects (promiseAll3 r1 r2 r3) = effects r1 ++ effects r2 ++ effects r3.
Proof.
  unfold promiseAll3. by rewrite !effects_promiseAll2, <- app_assoc.
Qed.

(** A [try] whose continuation and handler send nothing sends what the
    awaited promise sent. *)
Lemma tryCatch_requests {A B} (r : run A) (k : A -> Z -> run B)
    (h : error -> Z -> run B) :
  (forall v t, requestsOf (effects (k v t)) = []) ->
  (forall e t, requestsOf (effects (h e t)) = []) ->
  requestsOf (effects (tryCatch (andThen r k) h)) = requestsOf (effects r).
Proof.
  intros Hk Hh. unfold tryCatch, andThen.
  destruct (result r) as [v|e]; unfold during; cbn [result effects].
  - destruct (result (k v (settled r))); cbn [effects];
      rewrite !requestsOf_app, ?Hk, ?Hh, ?app_nil_r; done.
  - by rewrite requestsOf_app, Hh, app_nil_r.
Qed.

(** The requests of the music branch: one to three to each of the three
    MusicBrainz searches. *)
Lemma musicBranch_requests results s :
  exists n1 n2 n3,
    (S n1 <= 3)%nat /\ (S n2 <= 3)%nat /\ (S n3 <= 3)%nat /\
    requestsOf (effects (snd (musicBranch net query results s))) =
      replicate (S n1) (musicBrainzUrl "/artist" query 15 0) ++
      replicate (S n2) (musicBrainzUrl "/recording" query 15 0) ++
      replicate (S n3) (musicBrainzUrl "/instrument" query 10 0).
Proof.
  unfold musicBranch, searchMusicBrainzArtists, searchMusicBrainzRecordings,
    searchMusicBrainzInstruments.
  set (s1 := rateLimitMusicBrainz ArtistSearch s).
  set (s2 := rateLimitMusicBrainz RecordingSearch s1).
  destruct (viaRateLimit_requests ArtistSearch s
              (musicBrainzUrl "/artist" query 15 0) musicBrainzHeaders
              (countAnd body_artists mkArtists)) as (n1 & H1 & R1); [done|].
  destruct (viaRateLimit_requests RecordingSearch s1
              (musicBrainzUrl "/recording" query 15 0) musicBrainzHeaders
              (countAnd body_recordings mkRecordings)) as (n2 & H2 & R2); [done|].
  destruct (viaRateLimit_requests InstrumentSearch s2
              (musicBrainzUrl "/instrument" query 10 0) musicBrainzHeaders
              (countAnd body_instruments mkInstruments)) as (n3 & H3 & R3); [done|].
  exists n1, n2, n3. split; [done|]. split; [done|]. split; [done|].
  unfold viaRateLimit at 1 2 3. cbn [fst snd]. fold s1. fold s2.
  rewrite tryCatch_requests.
  - rewrite promiseAll3_effects, !requestsOf_app.
    unfold viaRateLimit in R1, R2, R3. cbn [snd] in R1, R2, R3.
    by rewrite R1, R2, R3.
  - by intros [[a r] i] t.
  - done.
Qed.
End AggregatorRequests.

Section AggregatorOutcome.
Variables (net : network) (query : string).

Lemma searchAllSources_requests options s :
  exists (art : run AggregatedResults) results1,
    art = (if default true (opt_includeArt options)
           then artBranch net query (default 50 (opt_maxResults options))
                          (mkResults [] [] [] []) (now s)
           else mkRun (now s) (Fulfilled (mkResults [] [] [] [])) []) /\
    requestsOf (effects (snd (searchAllSources net query options s))) =
      requestsOf (effects art) ++
      (if default true (opt_includeMusic options)
       then requestsOf (effects (snd (musicBranch net query results1
                                        (advance (settled art) s))))
       else []).
Proof.
  destruct (searchAllSources_run net query options s) as (r1 & _ & Hrun).
  cbv zeta in Hrun. eexists _, r1. split; [reflexivity|]. rewrite Hrun.
  destruct (default true (opt_includeMusic options)).
  - unfold during. cbn [effects]. by rewrite requestsOf_app.
  - by rewrite app_nil_r.
Qed.

Lemma artBranch_requests_le maxResults results t :
  (length (requestsOf (effects (artBranch net query maxResults results t))) <= 36)%nat.
Proof.
  destruct (artBranch_requests net query maxResults results t)
    as (ids & t1 & Hids & ->).
  pose proof (getMetObjects_requests_le net ids t1) as Hobjects.
  unfold searchMetArtifacts, searchClevelandArtifacts.
  destruct (adapter_requests net
              (mkUrl API_CONFIG.met_search None
                 [("q", PString query); ("hasImages", PBoolean true)])
              noOptions t (arrayOr body_objectIDs)) as (n1 & H1 & ->); [done|].
  destruct (adapter_requests net
              (mkUrl API_CONFIG.cleveland_search None
                 [("q", PString query); ("has_image", PNumber 1);
                  ("limit", PNumber 100)])
              noOptions t (arrayOr body_data)) as (n2 & H2 & ->); [done|].
  rewrite !length_app, !length_replicate. lia.
Qed.

Lemma artBranch_requests_hosts maxResults results t :
  Forall (fun u => toMuseums u = true)
         (requestsOf (effects (artBranch net query maxResults results t))).
Proof.
  destruct (artBranch_requests net query maxResults results t)
    as (ids & t1 & _ & ->).
  apply Forall_app. split; [|apply Forall_app; split].
  - apply Forall_forall. intros u Hu.
    apply searchMetArtifacts_requests in Hu. unfold toMuseums. by rewrite Hu.
  - apply Forall_forall. intros u Hu.
    apply searchClevelandArtifacts_requests in Hu. unfold toMuseums. by rewrite Hu.
  - apply Forall_forall. intros u Hu.
    apply getMetObjects_requests in Hu as (id & _ & ->). done.
Qed.
End AggregatorOutcome.

(** X9. When the five searches are fulfilled, the result holds all that
    was found: the Cleveland records followed by the Met objects with an
    image, cut to [maxResults], and the three MusicBrainz lists as they
    came, which [maxResults] does not cut. *)
Theorem searchAllSources_all_up (net : network) (query : string)
    (maxResults : option Z) (s : EventLoop)
    (metIds : list Z) (cleveland : list item)
    (a : artistsData) (r : recordingsData) (i : instrumentsData) :
  result (searchMetArtifacts net query true (now s)) = Fulfilled metIds ->
  result (searchClevelandArtifacts net query 100 (now s)) = Fulfilled cleveland ->
  result (snd (searchMusicBrainzArtists net query 15 0 s)) = Fulfilled a ->
  result (snd (searchMusicBrainzRecordings net query 15 0 s)) = Fulfilled r ->
  result (snd (searchMusicBrainzInstruments net query 10 0 s)) = Fulfilled i ->
  exists t1 metObjects,
    result (getMetObjects net (slice0 10 metIds) t1) = Fulfilled metObjects /\
    result (snd (searchAllSources net query (mkOptions None None maxResults) s)) =
      Fulfilled (mkResults (slice0 (default 50 maxResults) (cleveland ++ metObjects))
                           (recordings_recordings r) (artists_artists a)
                           (instruments_instruments i)).
Proof.
  intros Hmet Hcl Ha Hr Hi.
  destruct (searchAllSources_run net query (mkOptions None None maxResults) s)
    as (r1 & Hr1 & Hrun).
  cbn [default from_option id opt_includeArt opt_includeMusic opt_maxResults]
    in Hr1, Hrun.
  destruct (artBranch_fulfilled net query (default 50 maxResults)
              (mkResults [] [] [] []) (now s) metIds cleveland Hmet Hcl)
    as (t1 & metObjects & Hobjects & Hres & _).
  exists t1, metObjects. split; [done|].
  rewrite Hres in Hr1. inversion Hr1; subst r1. rewrite Hrun.
  unfold during. cbn [result].
  set (s1 := advance _ s).
  pose proof (musicBranch_results net query
                (mkResults (slice0 (default 50 maxResults) (cleveland ++ metObjects))
                           [] [] []) s1) as Hmusic.
  cbv zeta in Hmusic.
  rewrite (searchMusicBrainzArtists_any_state net query 15 0 s1 s), Ha in Hmusic.
  rewrite (searchMusicBrainzRecordings_any_state net query 15 0 s1 s), Hr in Hmusic.
  rewrite (searchMusicBrainzInstruments_any_state net query 10 0 s1 s), Hi in Hmusic.
  exact Hmusic.
Qed.

Lemma searchAllSources_all_up_witness :
  exists t1 metObjects,
    result (getMetObjects Scenario.everythingUp (slice0 10 (seqZ 101 12)) t1)
      = Fulfilled metObjects /\
    result (snd (searchAllSources Scenario.everythingUp "luba"
                   (mkOptions None None (Some 4)) (startOfPage 0))) =
      Fulfilled (mkResults (slice0 (default 50 (Some 4))
                              ((Scenario.artifact <$> [1; 2; 3]) ++ metObjects))
                           [Scenario.artifact 2] [Scenario.artifact 1]
                           [Scenario.artifact 3]).
Proof.
  apply (searchAllSources_all_up Scenario.everythingUp "luba" (Some 4)
           (startOfPage 0) (seqZ 101 12) (Scenario.artifact <$> [1; 2; 3])
           (mkArtists 1 [Scenario.artifact 1])
           (mkRecordings 1 [Scenario.artifact 2])
           (mkInstruments 1 [Scenario.artifact 3]));
    vm_compute; reflexivity.
Defined.

(** X10. [artifacts] never holds more than [maxResults] records (50 when
    the option is missing), for [maxResults] zero or more. *)
Theorem searchAllSources_at_most_maxResults (net : network) (query : string)
    (options : SearchOptions) (s : EventLoop) (r : AggregatedResults) :
  0 <= default 50 (opt_maxResults options) ->
  result (snd (searchAllSources net query options s)) = Fulfilled r ->
  Z.of_nat (length (artifacts r)) <= default 50 (opt_maxResults options).
Proof.
  intros Hmax Hr.
  destruct (searchAllSources_run net query options s) as (r1 & Hr1 & Hrun).
  cbv zeta in Hr1, Hrun.
  assert (Z.of_nat (length (artifacts r1)) <= default 50 (opt_maxResults options))
    as Hart.
  { destruct (default true (opt_includeArt options)); [|inversion Hr1; simpl; lia].
    destruct (artCallsFail net query (now s)) eqn:Hfail.
    - destruct (artBranch_rejected net query (default 50 (opt_maxResults options))
                  (mkResults [] [] [] []) (now s) Hfail) as [H _].
      rewrite H in Hr1. inversion Hr1. simpl. lia.
    - unfold artCallsFail, isRejected in Hfail.
      destruct (result (searchMetArtifacts net query true (now s)))
        as [ids|] eqn:H1; [|done].
      destruct (result (searchClevelandArtifacts net query 100 (now s)))
        as [cl|] eqn:H2; [|done].
      destruct (artBranch_fulfilled net query (default 50 (opt_maxResults options))
                  (mkResults [] [] [] []) (now s) ids cl H1 H2)
        as (t1 & objs & _ & H & _).
      rewrite H in Hr1. inversion Hr1. simpl. unfold slice0.
      destruct (Z.ltb_spec (default 50 (opt_maxResults options)) 0); [lia|].
      rewrite length_take. lia. }
  rewrite Hrun in Hr.
  destruct (default true (opt_includeMusic options)).
  - unfold during in Hr. cbn [result] in Hr.
    by rewrite (musicBranch_keeps_artifacts _ _ _ _ _ Hr).
  - assert (r1 = r) as <- by congruence. done.
Qed.

Lemma searchAllSources_at_most_maxResults_witness :
  Z.of_nat (length (artifacts (mkResults (Scenario.artifact <$> [1; 2; 3; 101]) [] [] [])))
    <= default 50 (opt_maxResults (Scenario.artOnly 4)).
Proof.
  apply (searchAllSources_at_most_maxResults Scenario.bothUp "luba"
           (Scenario.artOnly 4) (startOfPage 0)).
  - simpl. lia.
  - vm_compute. reflexivity.
Defined.

(** X11. One call of [searchAllSources] sends at most 45 requests: three
    attempts at each of the two art searches, at the objects of ten ids
    and at each of the three MusicBrainz searches. *)
Theorem searchAllSources_request_budget (net : network) (query : string)
    (options : SearchOptions) (s : EventLoop) :
  (length (requestsOf (effects (snd (searchAllSources net query options s)))) <= 45)%nat.
Proof.
  destruct (searchAllSources_requests net query options s)
    as (art & r1 & Hart & ->).
  rewrite length_app.
  assert (length (requestsOf (effects art)) <= 36)%nat as H1.
  { rewrite Hart. destruct (default true (opt_includeArt options)); [|simpl; lia].
    apply artBranch_requests_le. }
  destruct (default true (opt_includeMusic options)); [|simpl; lia].
  destruct (musicBranch_requests net query r1 (advance (settled art) s))
    as (n1 & n2 & n3 & ? & ? & ? & ->).
  rewrite !length_app, !length_replicate. lia.
Qed.

(** X12. Requests go only to the sources asked for: without
    [includeMusic] none goes to MusicBrainz and nobody enters its rate
    limiter, and without [includeArt] none goes to the museums. *)
Theorem searchAllSources_only_sources_asked (net : network) (query : string)
    (options : SearchOptions) (s : EventLoop) :
  let done := searchAllSources net query options s in
  (default true (opt_includeMusic options) = false ->
     Forall (fun u => toMuseums u = true /\ toMusicBrainz u = false)
            (requestsOf (effects done.2)) /\
     done.1 = advance (settled done.2) s) /\
  (default true (opt_includeArt options) = false ->
     Forall (fun u => toMusicBrainz u = true /\ toMuseums u = false)
            (requestsOf (effects done.2))).
Proof.
  cbv zeta. split.
  - intros Hmusic. split.
    + destruct (searchAllSources_requests net query options s)
        as (art & r1 & Hart & ->).
      rewrite Hmusic, app_nil_r, Hart.
      destruct (default true (opt_includeArt options)); [|constructor].
      eapply Forall_impl; [apply artBranch_requests_hosts|].
      intros u Hu. split; [done|]. unfold toMuseums in Hu. unfold toMusicBrainz.
      repeat (apply orb_true_iff in Hu as [Hu|Hu]);
        apply String.eqb_eq in Hu; by rewrite Hu.
    + unfold searchAllSources. rewrite Hmusic.
      by destruct (result _).
  - intros Hart.
    destruct (searchAllSources_requests net query options s)
      as (art & r1 & Hart' & ->).
    rewrite Hart in Hart'. rewrite Hart'. cbn [effects requestsOf omap app].
    change (requestsOf []) with (@nil Url). cbn [app].
    destruct (default true (opt_includeMusic options)); [|constructor].
    destruct (musicBranch_requests net query r1
                (advance (settled (mkRun (now s)
                   (Fulfilled (mkResults [] [] [] [])) [])) s))
      as (n1 & n2 & n3 & _ & _ & _ & ->).
    repeat (apply Forall_app; split);
      first [by constructor
            | apply Forall_forall; by intros u [-> _]%elem_of_replicate].
Qed.

(* ===================================================================== *)
(** * More on the search controller                                       *)
(* ===================================================================== *)

Section Keystrokes.
Variable options : PerformOptions.

Lemma steps_app l1 l2 p : steps (l1 ++ l2) p = steps l2 (steps l1 p).
Proof. apply foldl_app. Qed.

(** After a burst of keystrokes from page load, the timer of the last one
    is the only timer there is. *)
Lemma keystrokes_pending queries last :
  let p := steps (keystrokes options (queries ++ [last])) pageLoaded in
  pending p = {[ S (length queries) :=
                   (DEBOUNCE_DELAY, Apply PerformSearch (mkArgs last options)) ]} /\
  debounceTimer p = Some (S (length queries)) /\
  timerCount p = S (length queries) /\
  currentSearchQuery p = "" /\
  searchResults p = mkResults [] [] [] [].
Proof.
  revert last. induction queries as [|q queries IH] using rev_ind; intros last.
  { cbv zeta. simpl. rewrite insert_empty. done. }
  cbv zeta. unfold keystrokes. rewrite fmap_app, steps_app.
  destruct (IH q) as (Hp & Hd & Hc & Hq & Hr). unfold keystrokes in *.
  set (p1 := steps _ pageLoaded) in *.
  cbn [fmap list_fmap steps foldl step]. unfold callDebounced.
  cbn [pending debounceTimer timerCount currentSearchQuery searchResults].
  rewrite Hd, Hp, Hc, Hq, Hr, length_app. cbn [clearTimeout length].
  rewrite delete_singleton_eq, insert_empty.
  replace (length queries + 1)%nat with (S (length queries)) by lia. done.
Qed.

Lemma step_Fires_last last id id' p :
  pending p = {[ id := (DEBOUNCE_DELAY, Apply PerformSearch (mkArgs last options)) ]} ->
  step (Fires id') p =
    if decide (id' = id)
    then (performSearch_start last options
            (mkPage (debounceTimer p) (currentSearchQuery p) (searchResults p)
                    (timerCount p) ∅ (container p) (statusElement p))).1
    else p.
Proof.
  intros Hp. unfold step. rewrite Hp.
  destruct (decide (id' = id)) as [->|Hne].
  - by rewrite lookup_singleton_eq, delete_singleton_eq.
  - by rewrite lookup_singleton_ne.
Qed.

Lemma step_Fires_none id' p : pending p = ∅ -> step (Fires id') p = p.
Proof. intros Hp. unfold step. by rewrite Hp, lookup_empty. Qed.

Lemma fires_only_last last id (fires : list nat) : forall p,
  (currentSearchQuery p = "" \/ currentSearchQuery p = last) ->
  (pending p = {[ id := (DEBOUNCE_DELAY, Apply PerformSearch (mkArgs last options)) ]}
   \/ pending p = ∅) ->
  let p' := steps (Fires <$> fires) p in
  currentSearchQuery p' = "" \/ currentSearchQuery p' = last.
Proof.
  induction fires as [|id' fires IH]; intros p Hq Hp; [done|].
  cbv zeta.
  change (steps (Fires <$> id' :: fires) p)
    with (steps (Fires <$> fires) (step (Fires id') p)).
  destruct Hp as [Hp|Hp].
  - rewrite (step_Fires_last last id id' p Hp).
    destruct (decide (id' = id)) as [->|Hne]; [|apply IH; auto].
    apply IH.
    + unfold performSearch_start. destruct (_ <? _); simpl; auto.
    + right.
      by destruct (performSearch_start_timers last options
                     (mkPage (debounceTimer p) (currentSearchQuery p)
                        (searchResults p) (timerCount p) ∅
                        (container p) (statusElement p))) as (_ & -> & _).
  - rewrite (step_Fires_none id' p Hp). apply IH; auto.
Qed.
End Keystrokes.

(** X13. Of a burst of keystrokes, only the last reaches [performSearch]:
    when [debouncedSearch] is called for each query of a burst before any
    timer fires, one timer is left, that of the last query, and whichever
    timers fire afterwards, the current query is the last one typed or
    still none - never one of the queries typed before. *)
Theorem keystrokes_only_last_query (options : PerformOptions)
    (queries : list string) (last : string) (fires : list nat) :
  let typed := steps (keystrokes options (queries ++ [last])) pageLoaded in
  let p := steps (keystrokes options (queries ++ [last]) ++ (Fires <$> fires))
                 pageLoaded in
  pending typed = {[ S (length queries) :=
                       (DEBOUNCE_DELAY, Apply PerformSearch (mkArgs last options)) ]} /\
  (currentSearchQuery p = "" \/ currentSearchQuery p = last).
Proof.
  cbv zeta.
  destruct (keystrokes_pending options queries last) as (Hp & _ & _ & Hq & _).
  split; [done|]. rewrite steps_app.
  eapply (fires_only_last options last); [by left | left; exact Hp].
Qed.

(** X14. [clearSearch] cancels the pending debounced call and empties the
    stored results; the result of a search still in flight is then not
    displayed when it arrives, but it is stored again. *)
Theorem clearSearch_cancels_pending (l : list action) (query : string)
    (options : PerformOptions) (late : AggregatedResults) :
  let p := clearSearch (steps l pageLoaded) in
  (forall id ms f args, pending p !! id <> Some (ms, Apply f args)) /\
  getSearchResults p = mkResults [] [] [] [] /\
  (query <> "" ->
     let p' := performSearch_finish query options (Fulfilled late) p in
     container p' = container p /\ statusElement p' = statusElement p /\
     getSearchResults p' = late).
Proof.
  cbv zeta.
  destruct (steps_invariant l pageLoaded pageLoaded_invariant) as [Hone _].
  split; [|split; [done|]].
  - intros id ms f args Hin. unfold clearSearch in Hin. cbn [pending] in Hin.
    apply clearTimeout_lookup in Hin as [Hin Hne].
    apply Hone in Hin. done.
  - intros Hq. rewrite performSearch_finish_stale; [done|].
    simpl. congruence.
Qed.

Lemma clearSearch_cancels_pending_witness :
  let p := clearSearch (steps [Call debouncedSearch (Scenario.typed "luba")]
                              pageLoaded) in
  (forall id ms f args, pending p !! id <> Some (ms, Apply f args)) /\
  getSearchResults p = mkResults [] [] [] [].
Proof.
  pose proof (clearSearch_cancels_pending
                [Call debouncedSearch (Scenario.typed "luba")] "luba"
                Scenario.searchBar (mkResults [] [] [] [])) as H.
  cbv zeta in H. destruct H as (H1 & H2 & _). cbv zeta. split; [exact H1 | exact H2].
Defined.

(** X15. A query that is too short - trimmed of white space it has fewer
    than [minLength] UTF-16 code units - starts no search and does not
    become the current query: it clears the container and leaves the stored
    results, and the result of the search still in flight for the previous
    query is displayed over it when it arrives. *)
Theorem performSearch_short_query_keeps_current (short : string)
    (options : PerformOptions) (p : Page) (late : AggregatedResults) :
  Z.of_nat (length (trim (codeUnits short))) < minLengthOf options ->
  let started := performSearch_start short options p in
  started.2 = None /\
  currentSearchQuery started.1 = currentSearchQuery p /\
  searchResults started.1 = searchResults p /\
  pending started.1 = pending p /\
  (po_container options = true -> container started.1 = []) /\
  (po_statusElement options = true ->
     statusElement started.1 = Some (TypeAtLeast (minLengthOf options))) /\
  performSearch_finish (currentSearchQuery p) options (Fulfilled late) started.1
    = displaySearchResults late options
        (mkPage (debounceTimer p) (currentSearchQuery p) late (timerCount p)
                (pending p) (container started.1) (statusElement started.1)).
Proof.
  intros Hshort. cbv zeta. unfold performSearch_start.
  destruct (Z.ltb_spec (Z.of_nat (length (trim (codeUnits short)))) (minLengthOf options));
    [|lia].
  cbn [fst snd currentSearchQuery searchResults pending container statusElement].
  split; [done|]. split; [done|]. split; [done|]. split; [done|].
  split; [by intros ->|]. split; [by intros ->|].
  unfold performSearch_finish. cbn [currentSearchQuery debounceTimer timerCount
    pending container statusElement].
  by rewrite String.eqb_refl.
Qed.

Lemma performSearch_short_query_keeps_current_witness :
  (performSearch_start " é " Scenario.searchBar
     (performSearch_start "luba" Scenario.searchBar pageLoaded).1).2 = None /\
  currentSearchQuery
    (performSearch_start " é " Scenario.searchBar
       (performSearch_start "luba" Scenario.searchBar pageLoaded).1).1 = "luba".
Proof.
  destruct (performSearch_short_query_keeps_current " é " Scenario.searchBar
              (performSearch_start "luba" Scenario.searchBar pageLoaded).1
              (mkResults [] [] [] []) ltac:(reflexivity))
    as (H1 & H2 & _).
  split; [exact H1 | exact H2].
Defined.

Lemma cards_imap card from (l : list item) :
  cards card from l = imap (fun index x => card x (from + index)%nat) l.
Proof. reflexivity. Qed.

(** X16. What ends up in the container when there is something to show:
    for the category "all" the card of each artifact, in the order of the
    artifacts and numbered from 0, followed by the card of each recording,
    in their order and numbered on from the number of artifacts; for
    "artifacts" the first part alone, and for "music" the second alone,
    still numbered from the number of artifacts. Artists are counted in the
    status line but get no card. With nothing to show the container holds
    the empty state, and without a container nothing at all is written. *)
Theorem displaySearchResults_cards (results : AggregatedResults)
    (category : option string) (statusWanted : bool) (p : Page) :
  let shown :=
    displaySearchResults results (mkPerform category true statusWanted None) p in
  let a := artifacts results in
  let r := recordings results in
  let total := (length a + length r + length (artists results))%nat in
  let wanted kind :=
    String.eqb (default "all" category) "all"
    || String.eqb (default "all" category) kind in
  ((0 < total)%nat ->
     container shown =
       (if wanted "artifacts"
        then imap (fun index x => ArtifactCard x index) a else [])
       ++ (if wanted "music"
           then imap (fun index x => RecordingCard x (length a + index)) r
           else []) /\
     (statusWanted = true ->
        statusElement shown =
          Some (Found (length a) (length r) (length (artists results))
                      (currentSearchQuery p)))) /\
  ((0 < total)%nat -> wanted "artifacts" = true -> wanted "music" = true ->
     length (container shown) = (length a + length r)%nat /\
     (forall i x, a !! i = Some x ->
        container shown !! i = Some (ArtifactCard x i)) /\
     (forall j x, r !! j = Some x ->
        container shown !! (length a + j)%nat
          = Some (RecordingCard x (length a + j)))) /\
  (total = 0%nat ->
     container shown = [EmptyState (NoResultsFor (currentSearchQuery p)) "search"]) /\
  displaySearchResults results (mkPerform category false statusWanted None) p = p.
Proof.
  cbv zeta.
  assert ((0 < length (artifacts results) + length (recordings results)
               + length (artists results))%nat ->
          container (displaySearchResults results
                       (mkPerform category true statusWanted None) p) =
            (if String.eqb (default "all" category) "all"
                || String.eqb (default "all" category) "artifacts"
             then imap (fun index x => ArtifactCard x index) (artifacts results)
             else [])
            ++ (if String.eqb (default "all" category) "all"
                   || String.eqb (default "all" category) "music"
                then imap (fun index x =>
                             RecordingCard x (length (artifacts results) + index))
                          (recordings results)
                else [])) as Hcontainer.
  { intros Hn. unfold displaySearchResults.
    cbn [po_container po_statusElement negb categoryOf po_category].
    cbv zeta.
    destruct (Nat.eqb_spec (length (artifacts results) + length (recordings results)
                            + length (artists results)) 0) as [H|H]; [lia|].
    cbn [container]. by rewrite !cards_imap. }
  split; [|split; [|split; [|done]]].
  - intros Hn. split; [by apply Hcontainer|].
    intros ->. unfold displaySearchResults.
    cbn [po_container po_statusElement negb categoryOf po_category].
    cbv zeta.
    destruct (Nat.eqb_spec (length (artifacts results) + length (recordings results)
                            + length (artists results)) 0) as [H|H]; [lia|].
    done.
  - intros Hn Ha Hm. rewrite (Hcontainer Hn), Ha, Hm.
    split; [by rewrite length_app, !length_imap|]. split.
    + intros i x Hx. rewrite lookup_app_l.
      * by rewrite list_lookup_imap, Hx.
      * rewrite length_imap. by eapply lookup_lt_Some.
    + intros j x Hx. rewrite lookup_app_r; rewrite length_imap; [|lia].
      replace (length (artifacts results) + j - length (artifacts results))%nat
        with j by lia.
      by rewrite list_lookup_imap, Hx.
  - intros Hn. unfold displaySearchResults.
    cbn [po_container po_statusElement negb categoryOf po_category].
    cbv zeta.
    destruct (Nat.eqb_spec (length (artifacts results) + length (recordings results)
                            + length (artists results)) 0) as [H|H]; [done | lia].
Qed.

(* ===================================================================== *)
(** * Filters and sorting                                                 *)
(* ===================================================================== *)

Section Filtering.
Variable toLowerCase : string -> string.
Implicit Types (items : list artwork) (filters : Filters).

Lemma filter_true (f : artwork -> bool) items :
  (forall x, f x = true) -> filter (fun x => f x = true) items = items.
Proof.
  intros H. induction items as [|x l IH]; [done|].
  rewrite filter_cons_True by done. by rewrite IH.
Qed.

Lemma filter_and (f g : artwork -> bool) items :
  filter (fun x => g x = true) (filter (fun x => f x = true) items)
    = filter (fun x => (f x && g x) = true) items.
Proof.
  rewrite list_filter_filter. apply list_filter_iff.
  intros x. rewrite andb_true_iff. tauto.
Qed.

Lemma filter_if (c : bool) (f : artwork -> bool) items :
  (if c then filter (fun x => f x = true) items else items)
    = filter (fun x => (if c then f x else true) = true) items.
Proof. destruct c; [done|]. by rewrite filter_true. Qed.

Lemma filterByCategory_filter items category :
  filterByCategory toLowerCase items category =
    filter (fun x => (if truthy category && negb (String.eqb (default "" category) "all")
                      then matchesCategory toLowerCase (toLowerCase (default "" category)) x
                      else true) = true) items.
Proof.
  unfold filterByCategory. rewrite <- filter_if.
  by destruct (truthy category), (String.eqb (default "" category) "all").
Qed.

Lemma filterByGeography_filter items region :
  filterByGeography toLowerCase items region =
    filter (fun x => (if truthy region && negb (String.eqb (default "" region) "all")
                      then matchesGeography toLowerCase (toLowerCase (default "" region)) x
                      else true) = true) items.
Proof.
  unfold filterByGeography. rewrite <- filter_if.
  by destruct (truthy region), (String.eqb (default "" region) "all").
Qed.

Lemma filterByDateRange_filter items startYear endYear :
  filterByDateRange items startYear endYear =
    filter (fun x => (if given startYear || given endYear
                      then inDateRange startYear endYear x else true) = true) items.
Proof.
  unfold filterByDateRange. rewrite <- filter_if.
  by destruct (given startYear), (given endYear).
Qed.

Lemma applyFilters_filter items filters :
  applyFilters toLowerCase items filters = filter (fun x => passes toLowerCase filters x = true) items.
Proof.
  unfold applyFilters, passes. cbv zeta.
  rewrite filterByCategory_filter.
  rewrite (filter_if (truthy (f_category filters))).
  rewrite filterByDateRange_filter.
  rewrite (filter_if (given (f_startYear filters) || given (f_endYear filters))).
  rewrite filterByGeography_filter.
  rewrite (filter_if (truthy (f_geography filters))).
  rewrite !filter_and.
  destruct (f_customFilter filters) as [keep|].
  - rewrite filter_and. apply list_filter_iff. intros x.
    destruct (truthy (f_category filters)), (truthy (f_geography filters)),
      (given (f_startYear filters) || given (f_endYear filters)); simpl;
      by rewrite ?andb_true_r, ?andb_assoc.
  - apply list_filter_iff. intros x.
    destruct (truthy (f_category filters)), (truthy (f_geography filters)),
      (given (f_startYear filters) || given (f_endYear filters)); simpl;
      by rewrite ?andb_true_r, ?andb_assoc.
Qed.

Lemma firstYear_range s year : firstYear s = Some year -> 0 <= year <= 9999.
Proof.
  induction s as [|a s IH]; [done|]. simpl.
  destruct s as [|b [|c [|d s]]]; try done.
  destruct (isDigit a && isDigit b && isDigit c && isDigit d) eqn:Hd; [|exact IH].
  assert (forall ch, isDigit ch = true -> 0 <= digitValue ch <= 9) as Hdigit.
  { intros ch Hch. unfold isDigit, digitValue in *. cbv zeta in Hch.
    apply andb_true_iff in Hch as [?%Nat.leb_le ?%Nat.leb_le]. lia. }
  apply andb_true_iff in Hd as [Hd Hd4].
  apply andb_true_iff in Hd as [Hd Hd3].
  apply andb_true_iff in Hd as [Hd1 Hd2].
  apply Hdigit in Hd1, Hd2, Hd3, Hd4.
  intros [= <-]. lia.
Qed.
End Filtering.

(** X17. The filters only drop items: the result of each is a sublist of
    its input, in the order of the input, and a filter without criterion
    (no category or "all", no year or 0, no region or "all", no filter at
    all) gives its input back. *)
Theorem filters_only_drop (toLowerCase : string -> string)
    (items : list artwork) (category region : option string)
    (startYear endYear : option Z) (filters : Filters) :
  filterByCategory toLowerCase items category `sublist_of` items /\
  filterByDateRange items startYear endYear `sublist_of` items /\
  filterByGeography toLowerCase items region `sublist_of` items /\
  applyFilters toLowerCase items filters `sublist_of` items /\
  filterByCategory toLowerCase items None = items /\
  filterByCategory toLowerCase items (Some "all") = items /\
  filterByGeography toLowerCase items None = items /\
  filterByGeography toLowerCase items (Some "all") = items /\
  filterByDateRange items None None = items /\
  filterByDateRange items (Some 0) None = items /\
  applyFilters toLowerCase items (mkFilters None None None None None) = items.
Proof.
  rewrite filterByCategory_filter, filterByDateRange_filter,
    filterByGeography_filter, applyFilters_filter.
  repeat (split; [apply sublist_filter|]).
  repeat split; done.
Qed.

(** X18. The date filter keeps exactly the items of the range: an item
    is kept when the first four digits in a row of its date are a year (0
    to 9999) no smaller than [startYear] and no larger than [endYear],
    whichever of the two is given; an item whose date has no such digits is
    dropped. *)
Theorem filterByDateRange_in_range (items : list artwork)
    (startYear endYear : option Z) (x : artwork) :
  given startYear || given endYear = true ->
  x ∈ filterByDateRange items startYear endYear <->
  x ∈ items /\
  exists year, firstYear (dateOf x) = Some year /\ 0 <= year <= 9999 /\
    (given startYear = true -> default 0 startYear <= year) /\
    (given endYear = true -> year <= default 0 endYear).
Proof.
  intros Hgiven. rewrite filterByDateRange_filter, list_elem_of_filter, Hgiven.
  unfold inDateRange. fold (dateOf x).
  split.
  - intros [Hin Hx]. split; [done|].
    destruct (firstYear (dateOf x)) as [year|] eqn:Hyear; [|done].
    exists year. split; [done|]. split; [by eapply firstYear_range|].
    destruct (given startYear), (given endYear); simpl in *;
      repeat match goal with
             | H : context [?a <? ?b] |- _ => destruct (Z.ltb_spec a b)
             end; try done; split; intros; lia.
  - intros [Hin (year & -> & _ & Hs & He)]. split; [|done].
    destruct (given startYear), (given endYear); simpl in *;
      repeat match goal with
             | |- context [?a <? ?b] => destruct (Z.ltb_spec a b)
             end; try done; first [specialize (Hs eq_refl) | idtac];
      first [specialize (He eq_refl) | idtac]; lia.
Qed.

Lemma filterByDateRange_in_range_witness :
  Scenario.stoolOf1890 ∈
    filterByDateRange [Scenario.undated; Scenario.stoolOf1890] (Some 1800) None.
Proof.
  apply (filterByDateRange_in_range [Scenario.undated; Scenario.stoolOf1890]
           (Some 1800) None Scenario.stoolOf1890); [reflexivity|].
  split; [right; left|].
  exists 1890. split; [reflexivity|]. split; [lia|]. split; [simpl; lia | done].
Defined.


Section Sorting.
Context {A : Type} (cmp : A -> A -> Z).

Lemma insertSorted_Permutation x l : insertSorted cmp x l ≡ₚ x :: l.
Proof.
  induction l as [|y l IH]; simpl; [done|].
  destruct (_ <=? _); [done|]. rewrite IH. apply Permutation_swap.
Qed.

Lemma stableSort_Permutation l : stableSort cmp l ≡ₚ l.
Proof.
  induction l as [|x l IH]; simpl; [done|].
  by rewrite insertSorted_Permutation, IH.
Qed.

Hypothesis total : forall a b, 0 < cmp a b -> cmp b a <= 0.

Lemma insertSorted_inOrder x l :
  inOrder (fun a b => cmp a b <=? 0) l = true ->
  inOrder (fun a b => cmp a b <=? 0) (insertSorted cmp x l) = true.
Proof.
  induction l as [|y l IH]; intros Hl; [done|].
  cbn [insertSorted]. destruct (Z.leb_spec (cmp x y) 0) as [Hxy|Hxy].
  - cbn [inOrder]. apply andb_true_iff. split; [by apply Z.leb_le | done].
  - assert (inOrder (fun a b => cmp a b <=? 0) l = true) as Hl'.
    { destruct l as [|z l]; [done|]. cbn [inOrder] in Hl.
      by apply andb_true_iff in Hl as [_ ?]. }
    specialize (IH Hl').
    destruct l as [|z l].
    + cbn [insertSorted inOrder]. apply andb_true_iff.
      split; [apply Z.leb_le; by apply total | done].
    + cbn [insertSorted] in *. cbn [inOrder] in Hl.
      apply andb_true_iff in Hl as [Hyz _].
      destruct (Z.leb_spec (cmp x z) 0).
      * change ((cmp y x <=? 0) && inOrder (fun a b => cmp a b <=? 0) (x :: z :: l)
                = true).
        apply andb_true_iff. split; [apply Z.leb_le; by apply total | done].
      * change ((cmp y z <=? 0)
                && inOrder (fun a b => cmp a b <=? 0) (z :: insertSorted cmp x l)
                = true).
        apply andb_true_iff. split; done.
Qed.

Lemma stableSort_inOrder l :
  inOrder (fun a b => cmp a b <=? 0) (stableSort cmp l) = true.
Proof.
  induction l as [|x l IH]; [done|]. by apply insertSorted_inOrder.
Qed.
End Sorting.

Lemma stableSort_indifferent {A} (cmp : A -> A -> Z) (l : list A) :
  (forall a b, cmp a b = 0) -> stableSort cmp l = l.
Proof.
  intros H. induction l as [|x l IH]; simpl; [done|]. rewrite IH.
  destruct l as [|y l]; simpl; [done|]. by rewrite H.
Qed.

Lemma lessThan_asymmetric (a b : list N) :
  lessThan a b = true -> lessThan b a = false.
Proof.
  revert b. induction a as [|x a IH]; intros [|y b]; cbn [lessThan]; try done.
  intros H. apply orb_true_iff in H as [H|H].
  - apply N.ltb_lt in H.
    rewrite (proj2 (N.ltb_ge y x)) by lia.
    rewrite (proj2 (N.eqb_neq y x)) by lia. done.
  - apply andb_true_iff in H as [Hxy Hab]. apply N.eqb_eq in Hxy as ->.
    rewrite N.ltb_irrefl, N.eqb_refl. cbn. by apply IH.
Qed.

Lemma keyLt_asymmetric a b : keyLt a b = true -> keyLt b a = false.
Proof.
  destruct a as [s1|y1], b as [s2|y2]; simpl; try done.
  - apply lessThan_asymmetric.
  - intros ?%Z.ltb_lt. apply Z.ltb_ge. lia.
Qed.

Lemma compareBy_total (toLowerCase : string -> string) sortBy order a b :
  0 < compareBy toLowerCase sortBy order a b -> compareBy toLowerCase sortBy order b a <= 0.
Proof.
  unfold compareBy.
  destruct (sortValue toLowerCase sortBy a) as [va|], (sortValue toLowerCase sortBy b) as [vb|]; try lia.
  destruct (keyLt va vb) eqn:Hab.
  - rewrite (keyLt_asymmetric _ _ Hab). destruct (String.eqb order "asc"); lia.
  - destruct (keyLt vb va) eqn:Hba; [|lia].
    destruct (String.eqb order "asc"); lia.
Qed.

Lemma inOrder_weaken {A} (le1 le2 : A -> A -> bool) l :
  (forall a b, le1 a b = true -> le2 a b = true) ->
  inOrder le1 l = true -> inOrder le2 l = true.
Proof.
  intros H. induction l as [|x l IH]; [done|].
  destruct l as [|y l]; [done|]. cbn [inOrder].
  intros [Hxy Hl]%andb_true_iff. apply andb_true_iff. split; [by apply H | by apply IH].
Qed.

(** X20. [sortResults] gives the same items in sorted order: the result
    is a rearrangement of the input in which no item is followed by one the
    comparator puts before it; by date in ascending order the years never
    decrease, and in descending order they never increase; and for a
    [sortBy] other than "title", "date" or "artist" (such as the default
    "relevance") the order is left as it was. *)
Theorem sortResults_sorted (toLowerCase : string -> string)
    (items : list artwork) (sortBy order : string) :
  sortResults toLowerCase items sortBy order ≡ₚ items /\
  inOrder (fun a b => compareBy toLowerCase sortBy order a b <=? 0)
          (sortResults toLowerCase items sortBy order) = true /\
  inOrder (fun a b => extractYear (dateOf a) <=? extractYear (dateOf b))
          (sortResults toLowerCase items "date" "asc") = true /\
  inOrder (fun a b => extractYear (dateOf b) <=? extractYear (dateOf a))
          (sortResults toLowerCase items "date" "desc") = true /\
  (String.eqb sortBy "title" || String.eqb sortBy "date"
   || String.eqb sortBy "artist" = false ->
   sortResults toLowerCase items sortBy order = items).
Proof.
  unfold sortResults.
  split; [apply stableSort_Permutation|].
  split; [apply stableSort_inOrder, compareBy_total|].
  split; [|split].
  - eapply inOrder_weaken; [|apply stableSort_inOrder, compareBy_total].
    intros a b. unfold compareBy, sortValue. simpl. fold (dateOf a) (dateOf b).
    intros H. apply Z.leb_le in H. apply Z.leb_le.
    destruct (Z.ltb_spec (extractYear (dateOf a)) (extractYear (dateOf b)));
      [lia|].
    destruct (Z.ltb_spec (extractYear (dateOf b)) (extractYear (dateOf a))); lia.
  - eapply inOrder_weaken; [|apply stableSort_inOrder, compareBy_total].
    intros a b. unfold compareBy, sortValue. simpl. fold (dateOf a) (dateOf b).
    intros H. apply Z.leb_le in H. apply Z.leb_le.
    destruct (Z.ltb_spec (extractYear (dateOf a)) (extractYear (dateOf b)));
      [lia|].
    destruct (Z.ltb_spec (extractYear (dateOf b)) (extractYear (dateOf a))); lia.
  - intros Hother. apply stableSort_indifferent. intros a b.
    unfold compareBy, sortValue.
    destruct (String.eqb sortBy "title"), (String.eqb sortBy "date"),
      (String.eqb sortBy "artist"); done.
Qed.

(* ===================================================================== *)
(** * data-management.js: favorites                                       *)
(* ===================================================================== *)

Lemma existsb_filter_ne (itemId id' : ident) (l : list item) :
  existsb (fun x => bool_decide (item_id x = id'))
          (filter (fun x => item_id x <> itemId) l) =
  existsb (fun x => bool_decide (item_id x = id')) l
  && negb (bool_decide (id' = itemId)).
Proof.
  induction l as [|x l IH]; [done|].
  rewrite filter_cons. destruct (decide (item_id x <> itemId)) as [Hx|Hx].
  - cbn [existsb]. rewrite IH.
    destruct (decide (item_id x = id')) as [H1|H1].
    + rewrite (bool_decide_eq_true_2 _ H1). cbn [orb].
      rewrite (bool_decide_eq_false_2 (id' = itemId)) by congruence.
      cbn. by destruct (existsb _ l).
    + by rewrite (bool_decide_eq_false_2 _ H1).
  - apply dec_stable in Hx. rewrite IH. cbn [existsb].
    destruct (decide (item_id x = id')) as [H1|H1].
    + rewrite (bool_decide_eq_true_2 _ H1). cbn [orb].
      rewrite (bool_decide_eq_true_2 (id' = itemId)) by congruence.
      cbn. by rewrite andb_false_r.
    + by rewrite (bool_decide_eq_false_2 _ H1).
Qed.

(** X21. For every type, [removeFavorite] answers [true] when the type is
    a key of the stored favorites, answers [false] when [favorites[type]]
    is undefined, and throws a [TypeError] when the type names a member of
    [Object.prototype] and is no key. When the write is accepted, the item
    removed is no longer a favorite and every other answer of [isFavorite],
    exceptions included, is as before. *)
Theorem removeFavorite_isFavorite (type : string) (itemId : ident)
    (st : Storage) (type' : string) (id' : ident) :
  quotaExceeded st = false ->
  (removeFavorite type itemId st).2
    = match readMember (getFavorites st) type with
      | Own _ => Returned true
      | Inherited => Thrown (TypeError "favorites[type].filter is not a function")
      | Undefined => Returned false
      end /\
  isFavorite type' id' (removeFavorite type itemId st).1
    = match isFavorite type' id' st with
      | Returned b =>
          Returned (b && negb (bool_decide (type' = type)
                               && bool_decide (id' = itemId)))
      | Thrown e => Thrown e
      end /\
  (isFavorite type id' st
     = Thrown (TypeError "favorites[type].some is not a function") <->
   readMember (getFavorites st) type = Inherited).
Proof.
  intros Hquota. split; [|split].
  - unfold removeFavorite. cbv zeta.
    by destruct (readMember (getFavorites st) type).
  - unfold removeFavorite. cbv zeta.
    destruct (readMember (getFavorites st) type) as [l| |] eqn:Hm; cbn [fst].
    + apply readMember_Own in Hm.
      unfold isFavorite. rewrite getFavorites_saved by done.
      case_bool_decide as Ht.
      * subst type'. unfold readMember. rewrite lookup_insert_eq, Hm.
        cbn [andb]. by rewrite existsb_filter_ne.
      * unfold readMember. rewrite lookup_insert_ne by done.
        destruct (getFavorites st !! type') as [l'|]; [|by destruct (inherited type')].
        cbn. by rewrite andb_true_r.
    + case_bool_decide as Ht.
      * subst type'. unfold isFavorite. by rewrite Hm.
      * destruct (isFavorite type' id' st); [|done]. cbn. by rewrite andb_true_r.
    + case_bool_decide as Ht.
      * subst type'. unfold isFavorite. by rewrite Hm.
      * destruct (isFavorite type' id' st); [|done]. cbn. by rewrite andb_true_r.
  - unfold isFavorite.
    by destruct (readMember (getFavorites st) type).
Qed.

Lemma removeFavorite_isFavorite_witness :
  isFavorite "artifacts" (IdNum 4711) Scenario.withLukasa = Returned true /\
  isFavorite "artifacts" (IdNum 4711)
    (removeFavorite "artifacts" (IdNum 4711) Scenario.withLukasa).1
    = Returned false /\
  (removeFavorite "constructor" (IdNum 4711) Scenario.withLukasa).2
    = Thrown (TypeError "favorites[type].filter is not a function").
Proof.
  split; [reflexivity|]. split.
  - pose proof (removeFavorite_isFavorite "artifacts" (IdNum 4711)
                  Scenario.withLukasa "artifacts" (IdNum 4711) eq_refl)
      as (_ & H & _).
    rewrite H. reflexivity.
  - pose proof (removeFavorite_isFavorite "constructor" (IdNum 4711)
                  Scenario.withLukasa "artifacts" (IdNum 4711) eq_refl)
      as (H & _).
    rewrite H. reflexivity.
Defined.

Lemma filter_none_same_id (x : item) (l : list item) :
  someSameId x l = false ->
  filter (fun y => item_id y <> item_id x) l = l.
Proof.
  unfold someSameId. induction l as [|y l IH]; [done|].
  cbn [existsb]. intros H. apply orb_false_iff in H as [Hy Hl].
  apply bool_decide_eq_false in Hy.
  rewrite filter_cons, decide_True by done. by rewrite IH.
Qed.

Lemma removeFavorite_list (type : string) (itemId : ident) (st : Storage)
    (type' : string) :
  quotaExceeded st = false ->
  favoritesOf type' (removeFavorite type itemId st).1 =
    if bool_decide (type' = type)
    then filter (fun y => item_id y <> itemId) (favoritesOf type' st)
    else favoritesOf type' st.
Proof.
  intros Hquota. unfold removeFavorite, favoritesOf. cbv zeta.
  destruct (readMember (getFavorites st) type) as [l| |] eqn:Hm; cbn [fst].
  - apply readMember_Own in Hm.
    rewrite getFavorites_saved by done. case_bool_decide as Ht.
    + subst type'. by rewrite lookup_insert_eq, Hm.
    + by rewrite lookup_insert_ne.
  - apply readMember_inherited in Hm as [Hm _].
    case_bool_decide as Ht; [|done]. subst type'. by rewrite Hm.
  - apply readMember_undefined in Hm as [Hm _].
    case_bool_decide as Ht; [|done]. subst type'. by rewrite Hm.
Qed.

Lemma countLists_insert {A} (m : gmap string (list A)) (k : string) (l : list A) :
  (countLists (<[k := l]> m) + length (default [] (m !! k))
   = countLists m + length l)%nat.
Proof.
  unfold countLists.
  destruct (m !! k) as [l0|] eqn:Hk.
  - rewrite <-(insert_delete_id m k l0) at 2 by done.
    rewrite <-(insert_delete_eq m k l).
    rewrite !map_fold_insert_L; [cbn; lia|intros; lia|apply lookup_delete_eq
                                |intros; lia|apply lookup_delete_eq].
  - rewrite map_fold_insert_L; [cbn; lia|intros; lia|done].
Qed.

(** When the write is accepted, [getFavoriteCount] grows by one with an
    [addFavorite] that answers [true], stays as it is with one that answers
    [false] or throws, and never grows with [removeFavorite]. *)
Lemma getFavoriteCount_add_remove (type : string) (x : item)
    (today : string) (itemId : ident) (st : Storage) :
  quotaExceeded st = false ->
  getFavoriteCount (addFavorite type x today st).1
    = (getFavoriteCount st
       + match (addFavorite type x today st).2 with
         | Returned true => 1
         | _ => 0
         end)%nat /\
  (getFavoriteCount (removeFavorite type itemId st).1 <= getFavoriteCount st)%nat.
Proof.
  intros Hquota. split.
  - rewrite addFavorite_cases.
    destruct (readMember (getFavorites st) type) as [l| |] eqn:Hm;
      [| cbn [fst snd]; lia |].
    all: destruct (someSameId x (favoritesOf type st)) eqn:Hx; cbn [fst snd];
      [lia|].
    all: unfold getFavoriteCount; rewrite getFavorites_saved by done.
    all: pose proof (countLists_insert (getFavorites st) type
                       (favoritesOf type st ++ [favoriteEntry x today])) as H.
    all: rewrite length_app in H; cbn [length] in H.
    all: fold (favoritesOf type st) in H; lia.
  - unfold removeFavorite. cbv zeta.
    destruct (readMember (getFavorites st) type) as [l| |] eqn:Hm; cbn [fst];
      [|lia|lia].
    apply readMember_Own in Hm.
    unfold getFavoriteCount. rewrite getFavorites_saved by done.
    pose proof (countLists_insert (getFavorites st) type
                  (filter (fun y => item_id y <> itemId) l)) as H.
    rewrite Hm in H. cbn [default from_option id] in H.
    pose proof (length_filter (fun y => item_id y <> itemId) l). lia.
Qed.

(** X22. Where [isFavorite] answers [false] for an item and the write is
    accepted, adding the item makes it a favorite and raises
    [getFavoriteCount] by one; removing it again gives back the lists of
    favorites as they were, under every type. (Where [isFavorite] throws,
    under a type that names a member of [Object.prototype], [addFavorite]
    throws too.) *)
Theorem addFavorite_removeFavorite (type : string) (x : item)
    (today : string) (st : Storage) :
  quotaExceeded st = false ->
  isFavorite type (item_id x) st = Returned false ->
  let added := (addFavorite type x today st).1 in
  (addFavorite type x today st).2 = Returned true /\
  isFavorite type (item_id x) added = Returned true /\
  getFavoriteCount added = (getFavoriteCount st + 1)%nat /\
  (removeFavorite type (item_id x) added).2 = Returned true /\
  forall type',
    favoritesOf type' (removeFavorite type (item_id x) added).1
    = favoritesOf type' st.
Proof.
  intros Hquota Hnot added.
  assert (readMember (getFavorites st) type <> Inherited) as Hread.
  { intros H. unfold isFavorite in Hnot. by rewrite H in Hnot. }
  assert (someSameId x (favoritesOf type st) = false) as Habsent.
  { unfold isFavorite, readMember in Hnot. unfold favoritesOf, someSameId.
    destruct (getFavorites st !! type); [by injection Hnot | reflexivity]. }
  destruct (addFavorite_absent type x today st Hquota Hread Habsent)
    as (Htrue & Hq & Hfav & Hlist & Hothers).
  fold added in Hq, Hfav, Hlist, Hothers.
  assert (getFavorites added !! type
          = Some (favoritesOf type st ++ [favoriteEntry x today])) as Hl.
  { by rewrite Hfav, lookup_insert_eq. }
  split; [done|]. split; [|split; [|split]].
  - unfold isFavorite, readMember. rewrite Hl, existsb_app. cbn.
    rewrite bool_decide_eq_true_2 by done. by rewrite orb_true_r.
  - destruct (getFavoriteCount_add_remove type x today IdUndefined st Hquota)
      as [Hcount _].
    subst added. by rewrite Hcount, Htrue.
  - unfold removeFavorite, readMember. cbv zeta. by rewrite Hl.
  - intros type'. rewrite removeFavorite_list by done.
    case_bool_decide as Ht; [|by apply Hothers].
    subst type'. rewrite Hlist, filter_app, filter_none_same_id by done.
    rewrite filter_cons, decide_False, filter_nil, app_nil_r; [done|].
    cbn. by intros H.
Qed.

Lemma addFavorite_removeFavorite_witness :
  getFavoriteCount
    (addFavorite "artists" Scenario.stool "2024-05-02T10:00:00.000Z"
       Scenario.withLukasa).1
  = (getFavoriteCount Scenario.withLukasa + 1)%nat.
Proof.
  apply (addFavorite_removeFavorite "artists" Scenario.stool
           "2024-05-02T10:00:00.000Z" Scenario.withLukasa eq_refl eq_refl).
Defined.

(* ===================================================================== *)
(** * data-management.js: interaction history                             *)
(* ===================================================================== *)

Lemma getHistory_saved (history : gmap string (list historyEntry))
    (ls : LocalStorage) :
  canSave ls = true -> getHistory (saveHistory history ls) = history.
Proof. intros H. unfold saveHistory, getHistory. by rewrite H. Qed.

(** What [addToHistory] does, by what [history[type]] is. *)
Lemma addToHistory_cases (type : string) (x : viewedItem) (maxItems : Z)
    (viewedAt : string) (ls : LocalStorage) :
  addToHistory type x maxItems viewedAt ls =
    match readMember (getHistory ls) type with
    | Inherited =>
        (ls, Thrown (TypeError "history[type].filter is not a function"))
    | Own _ | Undefined =>
        let history :=
          <[type := slice0 maxItems
                      (viewedEntry x viewedAt
                         :: filter (fun h => entry_id h <> viewed_id x)
                                   (historyOf type ls))]> (getHistory ls) in
        (saveHistory history ls, Returned history)
    end.
Proof.
  unfold addToHistory, historyOf, readMember. cbv zeta.
  destruct (getHistory ls !! type) as [l|] eqn:Hl.
  - by rewrite ?Hl.
  - destruct (inherited type) eqn:Hinh.
    + by rewrite ?Hl, ?Hinh.
    + unfold writeMember. rewrite ?Hl, (inherited_proto _ Hinh).
      rewrite lookup_insert_eq. cbn. by rewrite insert_insert_eq.
Qed.

Lemma historyOf_addToHistory (type : string) (x : viewedItem) (maxItems : Z)
    (viewedAt : string) (ls : LocalStorage) (type' : string) :
  canSave ls = true ->
  readMember (getHistory ls) type <> Inherited ->
  historyOf type' (addToHistory type x maxItems viewedAt ls).1 =
    if bool_decide (type' = type)
    then slice0 maxItems
           (viewedEntry x viewedAt
              :: filter (fun h => entry_id h <> viewed_id x) (historyOf type ls))
    else historyOf type' ls.
Proof.
  intros H Hread. rewrite addToHistory_cases.
  assert (forall A (a b : A),
            match readMember (getHistory ls) type with
            | Inherited => a
            | Own _ | Undefined => b
            end = b) as ->.
  { intros A a b. by destruct (readMember (getHistory ls) type). }
  cbv zeta. cbn [fst]. unfold historyOf at 1.
  rewrite getHistory_saved by done. case_bool_decide as Ht.
  - subst type'. by rewrite lookup_insert_eq.
  - by rewrite lookup_insert_ne.
Qed.

Lemma slice0_sublist {A} (n : Z) (l : list A) : slice0 n l `sublist_of` l.
Proof. unfold slice0. destruct (n <? 0); apply sublist_take. Qed.

(** X23. Where [history[type]] is a list or missing, with room for at
    least one entry and a write that is accepted, [addToHistory] stores
    under the type exactly the entry of the item viewed followed by the
    older entries of another id, in their order, cut to [maxItems]
    entries: the item viewed comes first, no other entry has its id, and
    none of the older entries of another id is lost while there is room.
    The other types are left alone and the history returned is the one
    stored. *)
Theorem addToHistory_most_recent_first (type : string) (x : viewedItem)
    (maxItems : Z) (viewedAt : string) (ls : LocalStorage) :
  canSave ls = true ->
  1 <= maxItems ->
  readMember (getHistory ls) type <> Inherited ->
  let after := (addToHistory type x maxItems viewedAt ls).1 in
  let older := filter (fun h => entry_id h <> viewed_id x) (historyOf type ls) in
  historyOf type after
    = viewedEntry x viewedAt :: take (Z.to_nat maxItems - 1) older /\
  Forall (fun h => entry_id h <> viewed_id x) (tail (historyOf type after)) /\
  length (historyOf type after)
    = (1 + Nat.min (Z.to_nat maxItems - 1) (length older))%nat /\
  ((length older < Z.to_nat maxItems)%nat ->
     historyOf type after = viewedEntry x viewedAt :: older) /\
  (forall type', type' <> type ->
     historyOf type' after = historyOf type' ls) /\
  (addToHistory type x maxItems viewedAt ls).2 = Returned (getHistory after).
Proof.
  intros Hsave Hmax Hread after older. subst after.
  rewrite historyOf_addToHistory, bool_decide_eq_true_2 by done.
  fold older. unfold slice0. rewrite (proj2 (Z.ltb_ge maxItems 0)) by lia.
  destruct (Z.to_nat maxItems) as [|n] eqn:Hn; [lia|].
  replace (S n - 1)%nat with n by lia. cbn [take tail].
  split; [done|]. split; [|split; [|split; [|split]]].
  - apply Forall_take. apply Forall_forall. intros h Hh.
    by apply list_elem_of_filter in Hh as [? _].
  - cbn [length]. by rewrite length_take.
  - intros Hlen. by rewrite take_ge by lia.
  - intros type' Ht. rewrite historyOf_addToHistory by done.
    by rewrite bool_decide_eq_false_2.
  - rewrite addToHistory_cases.
    destruct (readMember (getHistory ls) type) eqn:Hm; [|done|];
      cbv zeta; cbn [fst snd]; by rewrite getHistory_saved.
Qed.

Lemma addToHistory_most_recent_first_witness :
  historyOf "artifacts"
    (addToHistory "artifacts" Scenario.viewedLukasa 20
       "2024-05-01T10:00:00.000Z" Scenario.noData).1
  = [mkEntry (IdNum 4711) "Lukasa" "2024-05-01T10:00:00.000Z"
             (Some "lukasa.jpg")].
Proof.
  assert (1 <= 20) as H by lia.
  pose proof (addToHistory_most_recent_first "artifacts" Scenario.viewedLukasa
                20 "2024-05-01T10:00:00.000Z" Scenario.noData eq_refl H
                ltac:(discriminate)) as (H1 & _).
  exact H1.
Defined.

(** Under a type that names a member of [Object.prototype] and is no key of
    the stored history, [addToHistory] throws and stores nothing. *)
Lemma addToHistory_inherited (type : string) (x : viewedItem) (maxItems : Z)
    (viewedAt : string) (ls : LocalStorage) :
  readMember (getHistory ls) type = Inherited ->
  addToHistory type x maxItems viewedAt ls
    = (ls, Thrown (TypeError "history[type].filter is not a function")).
Proof. intros H. by rewrite addToHistory_cases, H. Qed.

Lemma addToHistory_NoDup (type : string) (x : viewedItem) (maxItems : Z)
    (viewedAt : string) (ls : LocalStorage) :
  NoDup (entry_id <$> historyOf type ls) ->
  NoDup (entry_id <$> historyOf type (addToHistory type x maxItems viewedAt ls).1).
Proof.
  intros Hnodup.
  destruct (readMember (getHistory ls) type) as [l| |] eqn:Hm;
    [| by rewrite addToHistory_inherited |].
  all: destruct (canSave ls) eqn:Hsave;
    [| rewrite addToHistory_cases, Hm; unfold saveHistory; cbv zeta; cbn [fst];
       by rewrite Hsave].
  all: rewrite historyOf_addToHistory, bool_decide_eq_true_2
         by (done || by rewrite Hm).
  all: eapply sublist_NoDup; [|apply fmap_sublist, slice0_sublist].
  all: rewrite fmap_cons; apply NoDup_cons_2;
    [ intros Hin; apply list_elem_of_fmap in Hin as (h & Hid & Hh);
      apply list_elem_of_filter in Hh as [Hne _]; cbn in Hid; congruence
    | eapply sublist_NoDup; [exact Hnodup|]; apply fmap_sublist, sublist_filter ].
Qed.

(** X24. A history without two entries of one id stays so through every
    sequence of [addToHistory] calls, whatever [maxItems] is and whether or
    not the writes are accepted. *)
Theorem history_no_duplicates (type : string) (maxItems : Z)
    (views : list (viewedItem * string)) (ls : LocalStorage) :
  NoDup (entry_id <$> historyOf type ls) ->
  NoDup (entry_id <$> historyOf type (viewAll type maxItems views ls)).
Proof.
  revert ls. induction views as [|[x viewedAt] views IH]; intros ls H; [done|].
  apply IH. by apply addToHistory_NoDup.
Qed.

Lemma history_no_duplicates_witness :
  NoDup (entry_id <$> historyOf "artifacts"
           (viewAll "artifacts" 20
              [(Scenario.viewedLukasa, "2024-05-01T10:00:00.000Z");
               (Scenario.viewedLukasa, "2024-05-01T10:05:00.000Z")]
              Scenario.noData)).
Proof.
  apply (history_no_duplicates "artifacts" 20
           [(Scenario.viewedLukasa, "2024-05-01T10:00:00.000Z");
            (Scenario.viewedLukasa, "2024-05-01T10:05:00.000Z")]
           Scenario.noData).
  apply NoDup_nil_2.
Defined.

(* ===================================================================== *)
(** * data-management.js: community voting                                *)
(* ===================================================================== *)

Lemma getVotes_saved (v : voteData) (week : weekKey) (ls : LocalStorage) :
  canSave ls = true -> getVotes week (saveVotes v ls) = v.
Proof. intros H. unfold saveVotes, getVotes. by rewrite H. Qed.

(** The assignment of [castVote] is made on votes without a key. *)
Lemma setProperty_nil (itemId : string) (v : vote) :
  setProperty itemId v []
  = if String.eqb itemId "__proto__" then [] else [(itemId, v)].
Proof. unfold setProperty. cbn. by destruct (String.eqb itemId "__proto__"). Qed.

(** The votes of a vote that is cast: the new vote alone, or none when the
    item is called [__proto__]. *)
Lemma castVote_cast (itemId : string) (name title : option string)
    (votedAt : string) (week : weekKey) (ls : LocalStorage) (v : voteData) :
  (castVote itemId name title votedAt week ls).2 = VoteCast v ->
  v = mkVoteData week
        (if String.eqb itemId "__proto__" then []
         else [(itemId, mkVote itemId (orElse name title) votedAt)]) /\
  (castVote itemId name title votedAt week ls).1 = saveVotes v ls.
Proof.
  unfold castVote. cbv zeta.
  destruct (negb (bool_decide (currentWeek (getVotes week ls) = week))) eqn:Hw;
    cbn [votes length Nat.ltb Nat.leb currentWeek].
  - cbn [snd fst]. rewrite setProperty_nil. intros [= <-]. done.
  - apply negb_false_iff, bool_decide_eq_true in Hw.
    destruct (votes (getVotes week ls)) as [|kv l] eqn:Hv;
      cbn [length Nat.ltb Nat.leb snd fst]; [|done].
    rewrite setProperty_nil, Hw. intros [= <-]. done.
Qed.

(** X25. One vote per week, for every item id but [__proto__]: after a
    vote that was cast and stored, [getMyVote] gives that vote and every
    further [castVote] of that week, for any item, is refused and leaves
    the storage as it is; [hasVoted] holds of that item and of no other -
    unless the item is called [hasOwnProperty], after which [hasVoted]
    throws a [TypeError] for every item. A vote for [__proto__] is reported
    as cast and stores no vote: [getMyVote] and [hasVoted] answer no, and
    the next vote of the week is cast as well. *)
Theorem castVote_once_per_week (itemId : string) (name title : option string)
    (votedAt : string) (week : weekKey) (ls : LocalStorage) :
  canSave ls = true ->
  succeeded (castVote itemId name title votedAt week ls).2 = true ->
  let after := (castVote itemId name title votedAt week ls).1 in
  if String.eqb itemId "__proto__" then
    getMyVote week after = None /\
    (forall other, hasVoted other week after = Returned false) /\
    (forall itemId' name' title' votedAt',
       succeeded (castVote itemId' name' title' votedAt' week after).2 = true)
  else
    getMyVote week after = Some (mkVote itemId (orElse name title) votedAt) /\
    (forall other,
       hasVoted other week after =
         if String.eqb itemId "hasOwnProperty"
         then Thrown (TypeError "voteData.votes.hasOwnProperty is not a function")
         else Returned (String.eqb itemId other)) /\
    (forall itemId' name' title' votedAt',
       castVote itemId' name' title' votedAt' week after
       = (after, AlreadyVotedThisWeek)).
Proof.
  intros Hsave Hcast after. subst after.
  destruct (castVote itemId name title votedAt week ls).2 as [|v] eqn:Hr;
    [done|].
  destruct (castVote_cast _ _ _ _ _ _ _ Hr) as [-> ->].
  unfold getMyVote, hasVoted, castVote. cbv zeta.
  rewrite !getVotes_saved by done. cbn [currentWeek votes].
  rewrite bool_decide_eq_true_2 by done. cbn [negb].
  destruct (String.eqb itemId "__proto__") eqn:Hproto.
  - split; [done|]. split; [done|]. intros. cbn. done.
  - split; [done|]. split.
    + intros other. cbn [hasOwn existsb fst orb].
      rewrite String.eqb_sym, !orb_false_r.
      by destruct (String.eqb "hasOwnProperty" itemId).
    + intros. by cbn.
Qed.

Lemma castVote_once_per_week_witness :
  castVote "stool" None None "2024-05-02T09:00:00.000Z" (2024, 18)
    (castVote "lukasa" (Some "Lukasa") None "2024-05-01T10:00:00.000Z"
       (2024, 18) Scenario.noData).1
  = ((castVote "lukasa" (Some "Lukasa") None "2024-05-01T10:00:00.000Z"
        (2024, 18) Scenario.noData).1,
     AlreadyVotedThisWeek).
Proof.
  pose proof (castVote_once_per_week "lukasa" (Some "Lukasa") None
                "2024-05-01T10:00:00.000Z" (2024, 18) Scenario.noData
                eq_refl eq_refl) as H.
  cbv zeta in H. change (String.eqb "lukasa" "__proto__") with false in H.
  cbv iota in H. destruct H as (_ & _ & H). apply H.
Defined.

(** X26. [castVote] is refused exactly when [getMyVote] shows a vote of
    the week, and then nothing is written; otherwise the vote data it
    returns hold the new vote alone - or no vote at all when the item is
    called [__proto__]. In particular the votes stored under another week do
    not count: there [getMyVote] and [hasVoted] answer no. *)
Theorem castVote_refused_iff_voted (itemId : string)
    (name title : option string) (votedAt : string) (week : weekKey)
    (ls : LocalStorage) :
  match getMyVote week ls with
  | Some _ =>
      castVote itemId name title votedAt week ls = (ls, AlreadyVotedThisWeek)
  | None =>
      (castVote itemId name title votedAt week ls).2
      = VoteCast (mkVoteData week
                    (if String.eqb itemId "__proto__" then []
                     else [(itemId, mkVote itemId (orElse name title) votedAt)]))
  end /\
  (currentWeek (getVotes week ls) <> week ->
   getMyVote week ls = None /\
   forall other, hasVoted other week ls = Returned false).
Proof.
  split.
  - unfold getMyVote, castVote. cbv zeta.
    destruct (negb (bool_decide (currentWeek (getVotes week ls) = week)))
      eqn:Hw.
    + cbn [votes length Nat.ltb Nat.leb currentWeek snd]. by rewrite setProperty_nil.
    + apply negb_false_iff, bool_decide_eq_true in Hw.
      destruct (votes (getVotes week ls)) as [|kv l] eqn:Hv; [|done].
      cbn [head fmap option_fmap option_map length Nat.ltb Nat.leb snd].
      by rewrite setProperty_nil, Hw.
  - intros Hw. unfold getMyVote, hasVoted. cbv zeta.
    by rewrite !bool_decide_eq_false_2.
Qed.

(* ===================================================================== *)
(** * data-management.js: the week of a vote                              *)
(* ===================================================================== *)

(** X27. Within a year whose days are counted from 0, the week number is
    [(days + startOfYearDay) / 7 + 1]: January 1st is in week 1, the number
    is at most 54, it never decreases during the year, and from one day to
    the next it grows (by one) exactly when the next day is a Sunday. *)
Theorem getCurrentWeekKey_weeks (year ms start : Z) :
  0 <= ms < 366 * 86400000 ->
  0 <= start <= 6 ->
  let days := ms / 86400000 in
  let week t := (getCurrentWeekKey (mkToday year t start)).2 in
  week ms = (days + start) / 7 + 1 /\
  week 0 = 1 /\
  1 <= week ms <= 54 /\
  (forall later, ms <= later -> week ms <= week later) /\
  week (ms + 86400000)
    = week ms + (if (days + 1 + start) mod 7 =? 0 then 1 else 0).
Proof.
  intros Hms Hstart days week. subst week days.
  unfold getCurrentWeekKey.
  cbn [snd sinceStartOfYear startOfYearDay fullYear].
  change (24 * 60 * 60 * 1000) with 86400000.
  assert (forall n, (n + 1 + 6) / 7 = n / 7 + 1) as Hceil.
  { intros n. replace (n + 1 + 6) with (n + 1 * 7) by lia.
    by rewrite Z.div_add. }
  rewrite !Hceil.
  assert (0 <= ms / 86400000 <= 365) as Hdays.
  { split; [apply Z.div_pos; lia|].
    apply Z.lt_succ_r. apply Z.div_lt_upper_bound; lia. }
  split; [done|]. split; [|split; [|split]].
  - rewrite Z.div_0_l by lia. rewrite Z.add_0_l.
    rewrite Z.div_small by lia. lia.
  - split.
    + pose proof (Z.div_pos (ms / 86400000 + start) 7). lia.
    + assert ((ms / 86400000 + start) / 7 <= 371 / 7) as H
        by (apply Z.div_le_mono; lia).
      change (371 / 7) with 53 in H. lia.
  - intros later Hlater. rewrite Hceil.
    assert (ms / 86400000 <= later / 86400000) by (apply Z.div_le_mono; lia).
    assert ((ms / 86400000 + start) / 7 <= (later / 86400000 + start) / 7)
      by (apply Z.div_le_mono; lia).
    lia.
  - replace (ms + 86400000) with (ms + 1 * 86400000) by lia.
    rewrite Z.div_add by lia.
    set (d := ms / 86400000) in *.
    replace (d + 1 + start) with (d + start + 1) by lia.
    pose proof (Z.div_mod (d + start) 7 ltac:(lia)) as H1.
    pose proof (Z.mod_pos_bound (d + start) 7 ltac:(lia)) as H2.
    pose proof (Z.div_mod (d + start + 1) 7 ltac:(lia)) as H3.
    pose proof (Z.mod_pos_bound (d + start + 1) 7 ltac:(lia)) as H4.
    destruct (Z.eqb_spec ((d + start + 1) mod 7) 0) as [H0|H0]; lia.
Qed.

Lemma getCurrentWeekKey_weeks_witness :
  (getCurrentWeekKey (mkToday 2024 (6 * 86400000) 1)).2 = 2.
Proof.
  pose proof (getCurrentWeekKey_weeks 2024 (5 * 86400000) 1
                ltac:(lia) ltac:(lia)) as H.
  cbv zeta in H. destruct H as (H1 & _ & _ & _ & H5).
  exact H5.
Defined.

(* ===================================================================== *)
(** * data-management.js: preferences and theme                           *)
(* ===================================================================== *)

Lemma canSave_savePreferences (p : gmap string prefValue) (ls : LocalStorage) :
  canSave (savePreferences p ls) = canSave ls.
Proof. unfold savePreferences. by destruct (canSave ls) eqn:H. Qed.

Lemma canSave_saveTheme (t : slot prefValue) (ls : LocalStorage) :
  canSave (saveTheme t ls) = canSave ls.
Proof. unfold saveTheme. by destruct (canSave ls) eqn:H. Qed.

Lemma writeMember_insert {A} (name : string) (v : A) (o : gmap string A) :
  String.eqb name "__proto__" = false -> writeMember name v o = <[name := v]> o.
Proof. intros H. unfold writeMember. rewrite H. by destruct (o !! name). Qed.

Lemma updatePreference_theme (value : prefValue) (site : Site) :
  canSave (stored site) = true ->
  let after := (updatePreference "theme" value site).1 in
  getTheme after = value /\
  dataTheme after = Some (toText value) /\
  getPreferences after = <["theme" := value]> (getPreferences site) /\
  canSave (stored after) = true.
Proof.
  intros Hsave. unfold updatePreference. cbv zeta.
  rewrite writeMember_insert by done.
  change (String.eqb "theme" "theme") with true.
  change (String.eqb "theme" "language") with false.
  cbn iota. cbn [fst]. unfold applyTheme, getTheme, getPreferences.
  cbn [stored dataTheme defaultPreferences from_option].
  unfold saveTheme. rewrite canSave_savePreferences, Hsave.
  unfold savePreferences. rewrite Hsave.
  cbn [themeItem preferencesItem readSlot heritage canSave].
  repeat split; try done.
Qed.

(** X28. When the writes are accepted, [toggleTheme] answers "dark" if
    the stored theme reads "light" (or nothing is stored) and "light" for
    anything else; the stored theme, the [data-theme] attribute and the
    "theme" preference then all hold the answer, so a second toggle
    answers "light" after "dark" and "dark" after "light". *)
Theorem toggleTheme_flips (site : Site) :
  canSave (stored site) = true ->
  let once := toggleTheme site in
  let twice := toggleTheme once.1 in
  once.2 = (if bool_decide (getTheme site = PrefText "light")
            then PrefText "dark" else PrefText "light") /\
  getTheme once.1 = once.2 /\
  dataTheme once.1 = Some (toText once.2) /\
  getPreferences once.1 !! "theme" = Some once.2 /\
  twice.2 = (if bool_decide (getTheme site = PrefText "light")
             then PrefText "light" else PrefText "dark").
Proof.
  intros Hsave. cbv zeta.
  assert (forall s, canSave (stored s) = true ->
            (toggleTheme s).2
              = (if bool_decide (getTheme s = PrefText "light")
                 then PrefText "dark" else PrefText "light") /\
            getTheme (toggleTheme s).1 = (toggleTheme s).2 /\
            dataTheme (toggleTheme s).1 = Some (toText (toggleTheme s).2) /\
            getPreferences (toggleTheme s).1 !! "theme" = Some (toggleTheme s).2 /\
            canSave (stored (toggleTheme s).1) = true) as Hone.
  { intros s Hs. unfold toggleTheme. cbv zeta. cbn [fst snd].
    set (newTheme := if bool_decide (getTheme s = PrefText "light")
                     then PrefText "dark" else PrefText "light").
    assert (canSave (stored (applyTheme (Some newTheme) s)) = true) as Hs'.
    { unfold applyTheme. cbn [stored]. by rewrite canSave_saveTheme. }
    destruct (updatePreference_theme newTheme _ Hs') as (H1 & H2 & H3 & H4).
    split; [done|]. split; [done|]. split; [done|]. split; [|done].
    rewrite H3. apply lookup_insert_eq. }
  destruct (Hone site Hsave) as (H1 & H2 & H3 & H4 & H5).
  split; [done|]. split; [done|]. split; [done|]. split; [done|].
  destruct (Hone _ H5) as (H6 & _). rewrite H6, H2, H1.
  by destruct (bool_decide (getTheme site = PrefText "light")).
Qed.

Lemma toggleTheme_flips_witness :
  (toggleTheme (siteLoaded Scenario.noData)).2 = PrefText "dark" /\
  (toggleTheme (toggleTheme (siteLoaded Scenario.noData)).1).2 = PrefText "light".
Proof.
  pose proof (toggleTheme_flips (siteLoaded Scenario.noData) eq_refl) as H.
  cbv zeta in H. destruct H as (H1 & _ & _ & _ & H5).
  split; [exact H1 | exact H5].
Defined.

(** X29. [updatePreference] writes into the object [getPreferences] gave
    it: the key then holds the value (a key [__proto__] that the object
    does not have is not written at all). With preferences stored that
    object is a copy, and [resetPreferences] restores the defaults; with
    none stored it is [DEFAULT_PREFERENCES] itself, and [resetPreferences]
    then returns, stores and applies the value just set instead of the
    original default. *)
Theorem resetPreferences_after_update (key : string) (value : prefValue)
    (site : Site) :
  canSave (stored site) = true ->
  let updated := (updatePreference key value site).1 in
  let reset := resetPreferences updated in
  getPreferences updated = writeMember key value (getPreferences site) /\
  (String.eqb key "__proto__" = false ->
     getPreferences updated !! key = Some value) /\
  (key = "__proto__" -> getPreferences site !! key = None ->
     getPreferences updated = getPreferences site) /\
  reset.2 = match preferencesItem (stored site) with
            | Parsed _ => defaultPreferences site
            | Missing | Unparsable _ =>
                writeMember key value (defaultPreferences site)
            end /\
  getPreferences reset.1 = reset.2 /\
  ((forall p, preferencesItem (stored site) <> Parsed p) ->
   String.eqb key "__proto__" = false ->
     reset.2 !! key = Some value /\
     (key = "theme" ->
        getTheme reset.1 = value /\ dataTheme reset.1 = Some (toText value))).
Proof.
  intros Hsave. cbv zeta.
  assert (canSave (stored (updatePreference key value site).1) = true /\
          getPreferences (updatePreference key value site).1
            = writeMember key value (getPreferences site) /\
          defaultPreferences (updatePreference key value site).1
            = match preferencesItem (stored site) with
              | Parsed _ => defaultPreferences site
              | Missing | Unparsable _ =>
                  writeMember key value (defaultPreferences site)
              end) as (Hsave' & Hprefs & Hdefaults).
  { unfold updatePreference. cbv zeta. cbn [fst].
    destruct (String.eqb key "theme"), (String.eqb key "language");
      unfold applyLanguage, applyTheme, getPreferences;
      cbn [stored defaultPreferences];
      rewrite ?canSave_saveTheme, ?canSave_savePreferences;
      unfold saveTheme; rewrite ?canSave_savePreferences, ?Hsave;
      unfold savePreferences; rewrite Hsave;
      cbn [preferencesItem readSlot];
      (split; [done|]); (split; [done|]);
      unfold getPreferences; by destruct (preferencesItem (stored site)). }
  set (updated := (updatePreference key value site).1) in *.
  assert (getPreferences (resetPreferences updated).1
          = defaultPreferences updated) as Hreset.
  { unfold resetPreferences, applyTheme, getPreferences. cbv zeta.
    cbn [fst stored defaultPreferences]. unfold saveTheme.
    rewrite canSave_savePreferences, Hsave'.
    unfold savePreferences. rewrite Hsave'. done. }
  split; [exact Hprefs|].
  split; [intros Hkey; by rewrite Hprefs, writeMember_insert, lookup_insert_eq|].
  split.
  { intros -> Hnone. rewrite Hprefs. unfold writeMember. by rewrite Hnone. }
  split; [exact Hdefaults|]. split; [exact Hreset|].
  intros Hnone Hkey.
  assert ((resetPreferences updated).2 = <[key := value]> (defaultPreferences site))
    as Hr.
  { change ((resetPreferences updated).2) with (defaultPreferences updated).
    rewrite Hdefaults, writeMember_insert by done.
    destruct (preferencesItem (stored site)) eqn:Hp; try done.
    by destruct (Hnone v). }
  split; [by rewrite Hr, lookup_insert_eq|].
  intros ->. unfold resetPreferences, applyTheme, getTheme. cbv zeta.
  cbn [fst stored dataTheme].
  change (defaultPreferences updated) with ((resetPreferences updated).2).
  rewrite Hr, lookup_insert_eq. cbn [from_option].
  unfold saveTheme. rewrite canSave_savePreferences, Hsave'. done.
Qed.

Lemma resetPreferences_after_update_witness :
  let updated :=
    (updatePreference "theme" (PrefText "dark") (siteLoaded Scenario.noData)).1 in
  (resetPreferences updated).2 !! "theme" = Some (PrefText "dark") /\
  getTheme (resetPreferences updated).1 = PrefText "dark".
Proof.
  pose proof (resetPreferences_after_update "theme" (PrefText "dark")
                (siteLoaded Scenario.noData) eq_refl) as H.
  cbv zeta in H. destruct H as (_ & _ & _ & _ & _ & H).
  destruct (H ltac:(done) eq_refl) as [H1 H2]. destruct (H2 eq_refl) as [H3 _].
  cbv zeta. split; [exact H1 | exact H3].
Defined.

(** X30. After [clearAllData] every reader gives its default, whatever
    was stored and whether or not writes are accepted: no favorites
    ([isFavorite] answers [false], or throws as it does on any storage
    under a type that names a member of [Object.prototype]), an empty
    history, no vote (so that a vote can be cast again), the theme
    "light", and as preferences the object [DEFAULT_PREFERENCES] as it is
    by then. *)
Theorem clearAllData_defaults (site : Site) (week : weekKey) :
  let cleared := mkSite (clearAllData (stored site)) (defaultPreferences site)
                        (dataTheme site) (langAttribute site)
                        (languageChanged site) in
  getFavoriteCount (heritage (stored cleared)) = 0%nat /\
  (forall type itemId,
     isFavorite type itemId (heritage (stored cleared)) =
       if inherited type
       then Thrown (TypeError "favorites[type].some is not a function")
       else Returned false) /\
  countLists (getHistory (stored cleared)) = 0%nat /\
  getMyVote week (stored cleared) = None /\
  (forall itemId, hasVoted itemId week (stored cleared) = Returned false) /\
  (forall itemId name title votedAt,
     succeeded (castVote itemId name title votedAt week (stored cleared)).2 = true) /\
  getTheme cleared = PrefText "light" /\
  getPreferences cleared = defaultPreferences site.
Proof.
  cbv zeta. cbn [stored].
  assert (getFavorites (heritage (clearAllData (stored site)))
          = <["artifacts" := []]> (<["recordings" := []]> (<["artists" := []]>
              (<["narratives" := []]> ∅)))) as Hfav.
  { unfold getFavorites, getFromStorage, clearAllData. cbn [heritage entries].
    by rewrite lookup_delete_eq. }
  split; [|split; [|split; [|split; [|split; [|split; [|split]]]]]].
  - unfold getFavoriteCount. rewrite Hfav. by vm_compute.
  - intros type itemId. unfold isFavorite, readMember. rewrite Hfav.
    destruct (_ !! type) as [l|] eqn:Hl; [|by destruct (inherited type)].
    repeat (apply lookup_insert_Some in Hl as [[<- <-]|[_ Hl]]; [done|]).
    done.
  - by vm_compute.
  - unfold getMyVote, getVotes, clearAllData. cbn. by case_bool_decide.
  - intros itemId. unfold hasVoted, getVotes, clearAllData. cbn.
    by case_bool_decide.
  - intros itemId name title votedAt. unfold castVote, getVotes, clearAllData.
    cbv zeta. cbn [votesItem readSlot currentWeek].
    by rewrite bool_decide_eq_true_2.
  - done.
  - done.
Qed.

